(** * Question extraction: [parseModelQuestion] and [generateQuestion]

    A shallow embedding of the two copies of the question-extraction logic
    of the interview coach:

    - [parseModelQuestion]   (scripts/test_parse.js)
    - the body of [generateQuestion] after the model has answered, with its
      local helper [keepOnlyFirstQuestion]   (the Gemini service module)

    and, around them, the other functions of the service from the reply of
    the model on ([askCustomQuestion], [evaluateAnswer] and the request it
    builds, the test for an HR interview of [getQuestionGenerationPrompt])
    and the handler [handleCustomAsk] of the dashboard.

    JavaScript strings are sequences of UTF-16 code units; regular
    expressions follow the continuation-passing matcher of ECMA-262;
    [JSON.parse] follows the JSON grammar of ECMA-404.  Exceptions are
    explicit: every JavaScript computation yields an [outcome]. *)

From Stdlib Require Import List NArith Bool Arith Lia String Ascii.
Import ListNotations.

(* ================================================================== *)
(** ** Code units and strings *)
(* ================================================================== *)

Module Js.

(** A UTF-16 code unit.  Only values below 65536 occur in a JavaScript
    string; no definition below depends on that bound. *)
Definition char := N.
Definition jsstring := list char.

Open Scope N_scope.

(** An ASCII literal as a sequence of code units. *)
Definition js (s : string) : jsstring :=
  List.map N_of_ascii (list_ascii_of_string s).

(** The same, where every apostrophe of the literal stands for a double
    quote (convenient for JSON texts). *)
Definition jsq (s : string) : jsstring :=
  List.map (fun c => if c =? 39 then 34 else c) (js s).

Definition LF : jsstring := [10].
Definition CR : jsstring := [13].

Definition c_bang : char := 33.      (* ! *)
Definition c_dquote : char := 34.    (* double quote *)
Definition c_rparen : char := 41.    (* ) *)
Definition c_comma : char := 44.
Definition c_minus : char := 45.
Definition c_dot : char := 46.
Definition c_colon : char := 58.
Definition c_qmark : char := 63.     (* ? *)
Definition c_lbrack : char := 91.
Definition c_bslash : char := 92.
Definition c_rbrack : char := 93.
Definition c_lbrace : char := 123.
Definition c_rbrace : char := 125.

(** [WhiteSpace] and [LineTerminator] of ECMA-262: the characters removed
    by [String.prototype.trim] and matched by the class escape [\s]. *)
Definition is_space (c : char) : bool :=
  ((9 <=? c) && (c <=? 13)) || (c =? 32) || (c =? 160) || (c =? 5760)
  || ((8192 <=? c) && (c <=? 8202)) || (c =? 8232) || (c =? 8233)
  || (c =? 8239) || (c =? 8287) || (c =? 12288) || (c =? 65279).

(** [\d] *)
Definition is_digit (c : char) : bool := (48 <=? c) && (c <=? 57).

(** [\w], which also decides the word boundary [\b]. *)
Definition is_word (c : char) : bool :=
  ((65 <=? c) && (c <=? 90)) || ((97 <=? c) && (c <=? 122))
  || is_digit c || (c =? 95).

Fixpoint drop_while (p : char -> bool) (s : jsstring) : jsstring :=
  match s with
  | [] => []
  | c :: r => if p c then drop_while p r else s
  end.

Fixpoint take_while (p : char -> bool) (s : jsstring) : jsstring :=
  match s with
  | [] => []
  | c :: r => if p c then c :: take_while p r else []
  end.

(** [String.prototype.trimStart], [trimEnd] and [trim]. *)
Definition trimStart (s : jsstring) : jsstring := drop_while is_space s.
Definition trimEnd (s : jsstring) : jsstring := rev (drop_while is_space (rev s)).
Definition trim (s : jsstring) : jsstring := trimEnd (trimStart s).

(** [s.includes(c)] for a one-character needle. *)
Definition includes (c : char) (s : jsstring) : bool :=
  existsb (N.eqb c) s.

(** [s.endsWith(c)] for a one-character needle. *)
Definition endsWith (c : char) (s : jsstring) : bool :=
  match rev s with
  | x :: _ => x =? c
  | [] => false
  end.

(** [s.split(c)] for a one-character separator: the pieces between the
    occurrences of [c]; always at least one piece. *)
Fixpoint split_char (c : char) (s : jsstring) : list jsstring :=
  match s with
  | [] => [[]]
  | x :: r =>
      if x =? c then [] :: split_char c r
      else match split_char c r with
           | p :: ps => (x :: p) :: ps
           | [] => [[x]]
           end
  end.

(** Truthiness of a string value: non-empty. *)
Definition truthy (s : jsstring) : bool :=
  match s with [] => false | _ => true end.

(** Truthiness of a value that is a string or [undefined]. *)
Definition truthy_opt (o : option jsstring) : bool :=
  match o with Some s => truthy s | None => false end.

(** [Array.prototype.find]: the first element satisfying the predicate,
    or [undefined]. *)
Definition find (p : jsstring -> bool) (l : list jsstring) : option jsstring :=
  List.find p l.

(** [x || y] on strings, and on a possibly undefined left operand. *)
Definition or_else (x : option jsstring) (y : jsstring) : jsstring :=
  match x with
  | Some s => if truthy s then s else y
  | None => y
  end.

End Js.

(* ================================================================== *)
(** ** Regular expressions *)
(* ================================================================== *)

Module Regex.
Import Js.
Open Scope N_scope.

(** The fragment of the pattern language used by the two programs.  Every
    quantified atom in their patterns is a character class, so the greedy
    star is taken over a class. *)
Inductive regex :=
| Eps                          (* the empty pattern *)
| Bol                          (* ^  (no multiline flag) *)
| WordB                        (* \b *)
| Chr (c : char)               (* a pattern character *)
| Cls (p : char -> bool)       (* a character class or class escape *)
| Seq (r1 r2 : regex)
| Alt (r1 r2 : regex)          (* r1|r2, left alternative first *)
| Star (p : char -> bool).     (* [..]*, greedy *)

(** [[..]+], [r?] (greedy), a literal word, and a list of alternatives. *)
Definition Plus (p : char -> bool) : regex := Seq (Cls p) (Star p).
Definition Opt (r : regex) : regex := Alt r Eps.

Fixpoint Lit (s : jsstring) : regex :=
  match s with
  | [] => Eps
  | c :: r => Seq (Chr c) (Lit r)
  end.

Fixpoint OneOf (r : regex) (rs : list regex) : regex :=
  match rs with
  | [] => r
  | r' :: rs' => Alt r (OneOf r' rs')
  end.

(** [Canonicalize] of ECMA-262 for a pattern without the [u] flag.  A code
    unit from 128 on never canonicalizes to an ASCII one, and every pattern
    character of the two programs is ASCII, so for those units only the
    fact that they stay outside ASCII matters. *)
Definition canonicalize (c : char) : char :=
  if (97 <=? c) && (c <=? 122) then c - 32 else c.

Definition chr_matches (icase : bool) (pat c : char) : bool :=
  if icase then canonicalize pat =? canonicalize c else pat =? c.

Definition is_word_at (s : jsstring) : bool :=
  match s with
  | c :: _ => is_word c
  | [] => false
  end.

(** The state of a match is the text already consumed, last character
    first, and the text still ahead. *)
Definition mstate : Type := jsstring * jsstring.
Definition cont : Type := jsstring -> jsstring -> option mstate.

Fixpoint star_cls (p : char -> bool) (b a : jsstring) (k : cont) : option mstate :=
  match a with
  | c :: a' =>
      if p c then
        match star_cls p (c :: b) a' k with
        | Some r => Some r
        | None => k b a
        end
      else k b a
  | [] => k b a
  end.

(** The matcher of a pattern: [m icase r b a k] matches [r] at the state
    [(b, a)] and hands every end state, in priority order, to the
    continuation [k] until it succeeds.  The classes of the two programs
    hold no letters, so the [i] flag only acts on pattern characters. *)
Fixpoint m (icase : bool) (r : regex) (b a : jsstring) (k : cont) : option mstate :=
  match r with
  | Eps => k b a
  | Bol => match b with [] => k b a | _ :: _ => None end
  | WordB => if xorb (is_word_at b) (is_word_at a) then k b a else None
  | Chr c =>
      match a with
      | x :: a' => if chr_matches icase c x then k (x :: b) a' else None
      | [] => None
      end
  | Cls p =>
      match a with
      | x :: a' => if p x then k (x :: b) a' else None
      | [] => None
      end
  | Seq r1 r2 => m icase r1 b a (fun b' a' => m icase r2 b' a' k)
  | Alt r1 r2 =>
      match m icase r1 b a k with
      | Some s => Some s
      | None => m icase r2 b a k
      end
  | Star p => star_cls p b a k
  end.

(** A pattern with its flags ([g] only matters to the caller). *)
Record pattern := Pattern { source : regex; ignoreCase : bool }.

(** One match attempt at a fixed position: the end state, if any. *)
Definition match_at (re : pattern) (b a : jsstring) : option mstate :=
  m (ignoreCase re) (source re) b a (fun b' a' => Some (b', a')).

(** The number of code units of a match that started at [(b, a)]. *)
Definition match_length (b : jsstring) (e : mstate) : nat :=
  (List.length (fst e) - List.length b)%nat.

(** The leftmost match at or after the state [(b, a)]: the text before the
    match (last character first) and the end state. *)
Fixpoint exec_from (re : pattern) (b a : jsstring) : option (jsstring * mstate) :=
  match match_at re b a with
  | Some e => Some (b, e)
  | None =>
      match a with
      | c :: a' => exec_from re (c :: b) a'
      | [] => None
      end
  end.

Definition exec (re : pattern) (s : jsstring) : option (jsstring * mstate) :=
  exec_from re [] s.

(** [re.test(s)] *)
Definition test (re : pattern) (s : jsstring) : bool :=
  match exec re s with Some _ => true | None => false end.

(** [s.search(re)]: the index of the leftmost match; [None] stands for -1. *)
Definition search (re : pattern) (s : jsstring) : option nat :=
  match exec re s with
  | Some (b, _) => Some (List.length b)
  | None => None
  end.

(** [s.match(re)[0]] for a pattern without the [g] flag: the matched text;
    [None] stands for [null]. *)
Definition match0 (re : pattern) (s : jsstring) : option jsstring :=
  match exec re s with
  | Some (b, e) => Some (rev (firstn (match_length b e) (fst e)))
  | None => None
  end.

(** [s.replace(re, repl)] for a pattern without the [g] flag and a
    replacement text without [$]. *)
Definition replace (re : pattern) (repl s : jsstring) : jsstring :=
  match exec re s with
  | Some (b, e) => rev b ++ repl ++ snd e
  | None => s
  end.

(** [s.replace(re, repl)] for a pattern with the [g] flag.  [skip] counts
    the code units of the current match that are still to be passed over.
    After an empty match the scan moves on by one code unit. *)
Fixpoint replace_all_from (re : pattern) (repl b a : jsstring) (skip : nat) : jsstring :=
  match a with
  | [] =>
      match skip, match_at re b [] with
      | O, Some _ => repl
      | _, _ => []
      end
  | c :: a' =>
      match skip with
      | S n => replace_all_from re repl (c :: b) a' n
      | O =>
          match match_at re b a with
          | Some e =>
              match match_length b e with
              | O => repl ++ c :: replace_all_from re repl (c :: b) a' 0
              | S n => repl ++ replace_all_from re repl (c :: b) a' n
              end
          | None => c :: replace_all_from re repl (c :: b) a' 0
          end
      end
  end.

Definition replace_all (re : pattern) (repl s : jsstring) : jsstring :=
  replace_all_from re repl [] s 0.

(** [s.split(re)] for a pattern without capture groups and no limit.
    [seg] is the current piece, last character first; a match that is empty
    and sits at the start of the current piece is passed over. *)
Fixpoint split_from (re : pattern) (b a seg : jsstring) (skip : nat) : list jsstring :=
  match a with
  | [] => [rev seg]
  | c :: a' =>
      match skip with
      | S n => split_from re (c :: b) a' seg n
      | O =>
          match match_at re b a with
          | Some e =>
              match match_length b e, seg with
              | O, [] => split_from re (c :: b) a' [c] 0
              | O, _ :: _ => rev seg :: split_from re (c :: b) a' [c] 0
              | S n, _ => rev seg :: split_from re (c :: b) a' [] n
              end
          | None => split_from re (c :: b) a' (c :: seg) 0
          end
      end
  end.

Definition split (re : pattern) (s : jsstring) : list jsstring :=
  match s with
  | [] => match match_at re [] [] with Some _ => [] | None => [[]] end
  | _ :: _ => split_from re [] s [] 0
  end.

End Regex.

(* ================================================================== *)
(** ** Outcomes of a JavaScript computation *)
(* ================================================================== *)

Inductive exn := SyntaxError | TypeError.

(** A computation returns a value or throws.  [OutOfFuel] is the model's
    own third outcome, for a bounded loop that used up its bound; it is not
    an exception and no handler catches it. *)
Inductive outcome (A : Type) :=
| Returned (a : A)
| Threw (e : exn)
| OutOfFuel.

Arguments Returned {A} a.
Arguments Threw {A} e.
Arguments OutOfFuel {A}.

Definition bind {A B : Type} (c : outcome A) (f : A -> outcome B) : outcome B :=
  match c with
  | Returned a => f a
  | Threw e => Threw e
  | OutOfFuel => OutOfFuel
  end.

(** [try { c } catch (e) { h }] *)
Definition try_catch {A : Type} (c : outcome A) (h : exn -> outcome A) : outcome A :=
  match c with
  | Threw e => h e
  | _ => c
  end.

Declare Scope js_scope.
Delimit Scope js_scope with js.
Notation "x <- c ;; k" := (bind c (fun x => k))
  (at level 61, c at next level, right associativity) : js_scope.

(* ================================================================== *)
(** ** JSON.parse *)
(* ================================================================== *)

Module Json.
Import Js.
Open Scope N_scope.

(** The value of a JSON text.  A number keeps its lexeme: the programs
    never look at the value of a number.  An object keeps its members in
    source order; a later member overrides an earlier one of the same
    name. *)
#[warnings="-register-all"]
Inductive json :=
| JNull
| JBool (b : bool)
| JNumber (lexeme : jsstring)
| JString (s : jsstring)
| JArray (elements : list json)
| JObject (members : list (jsstring * json)).

(** The outcome of parsing a value at the head of a text. *)
Inductive presult :=
| Parsed (v : json) (rest : jsstring)
| Invalid
| Exhausted.

(** JSON white space: tab, line feed, carriage return, space. *)
Definition is_json_ws (c : char) : bool :=
  (c =? 9) || (c =? 10) || (c =? 13) || (c =? 32).

Definition skip_ws (s : jsstring) : jsstring := drop_while is_json_ws s.

Definition hex_value (c : char) : option N :=
  if is_digit c then Some (c - 48)
  else if (65 <=? c) && (c <=? 70) then Some (c - 55)
  else if (97 <=? c) && (c <=? 102) then Some (c - 87)
  else None.

Definition hex4 (a b c d : char) : option char :=
  match hex_value a, hex_value b, hex_value c, hex_value d with
  | Some x, Some y, Some z, Some w => Some (((x * 16 + y) * 16 + z) * 16 + w)
  | _, _, _, _ => None
  end.

(** The character denoted by a one-letter escape. *)
Definition simple_escape (c : char) : option char :=
  if c =? 34 then Some 34           (* escaped double quote *)
  else if c =? 92 then Some 92      (* escaped backslash *)
  else if c =? 47 then Some 47      (* escaped slash *)
  else if c =? 98 then Some 8       (* b: backspace *)
  else if c =? 102 then Some 12     (* f: form feed *)
  else if c =? 110 then Some 10     (* n: line feed *)
  else if c =? 114 then Some 13     (* r: carriage return *)
  else if c =? 116 then Some 9      (* t: tab *)
  else None.

(** The characters of a string after its opening quote, up to and
    including the closing quote: the decoded string (in [acc], last
    character first) and the rest of the text. *)
Fixpoint string_chars (s acc : jsstring) : option (jsstring * jsstring) :=
  match s with
  | [] => None
  | c :: r =>
      if c =? c_dquote then Some (rev acc, r)
      else if c =? c_bslash then
        match r with
        | [] => None
        | e :: r1 =>
            if e =? 117 then               (* u and four hex digits *)
              match r1 with
              | h1 :: h2 :: h3 :: h4 :: r2 =>
                  match hex4 h1 h2 h3 h4 with
                  | Some u => string_chars r2 (u :: acc)
                  | None => None
                  end
              | _ => None
              end
            else
              match simple_escape e with
              | Some x => string_chars r1 (x :: acc)
              | None => None
              end
        end
      else if c <? 32 then None
      else string_chars r (c :: acc)
  end.

(** One or more digits. *)
Definition digits1 (s : jsstring) : option (jsstring * jsstring) :=
  match take_while is_digit s with
  | [] => None
  | ds => Some (ds, drop_while is_digit s)
  end.

(** A number: an optional minus sign; a zero, or a non-zero digit and any
    digits; optionally a dot and one or more digits; optionally [e] or
    [E], an optional sign and one or more digits. *)
Definition number_lexeme (s : jsstring) : option (jsstring * jsstring) :=
  let '(sign, s1) :=
    match s with
    | c :: r => if c =? c_minus then ([c], r) else ([], s)
    | [] => ([], s)
    end in
  match s1 with
  | [] => None
  | d :: r1 =>
      let int_part :=
        if d =? 48 then Some ([d], r1)
        else if is_digit d then Some (d :: take_while is_digit r1, drop_while is_digit r1)
        else None in
      match int_part with
      | None => None
      | Some (ip, s2) =>
          let frac_part :=
            match s2 with
            | p :: r2 =>
                if p =? c_dot then
                  match digits1 r2 with
                  | Some (ds, s3) => Some (p :: ds, s3)
                  | None => None
                  end
                else Some ([], s2)
            | [] => Some ([], s2)
            end in
          match frac_part with
          | None => None
          | Some (fp, s3) =>
              let exp_part :=
                match s3 with
                | e :: r3 =>
                    if (e =? 101) || (e =? 69) then
                      let '(esign, s4) :=
                        match r3 with
                        | g :: r4 => if (g =? 43) || (g =? c_minus) then ([g], r4) else ([], r3)
                        | [] => ([], r3)
                        end in
                      match digits1 s4 with
                      | Some (ds, s5) => Some (e :: esign ++ ds, s5)
                      | None => None
                      end
                    else Some ([], s3)
                | [] => Some ([], s3)
                end in
              match exp_part with
              | None => None
              | Some (ep, s4) => Some (sign ++ ip ++ fp ++ ep, s4)
              end
          end
      end
  end.

(** [strip_prefix p s]: the rest of [s] after its prefix [p]. *)
Fixpoint strip_prefix (p s : jsstring) : option jsstring :=
  match p, s with
  | [], _ => Some s
  | x :: p', y :: s' => if x =? y then strip_prefix p' s' else None
  | _ :: _, [] => None
  end.

(** A value at the head of [s] (no leading white space), the elements of
    an array after the first bracket, and the members of an object after
    the first brace. *)
Fixpoint parse_value (fuel : nat) (s : jsstring) : presult :=
  match fuel with
  | O => Exhausted
  | S f =>
      match s with
      | [] => Invalid
      | c :: r =>
          if c =? c_lbrace then
            match skip_ws r with
            | x :: r' =>
                if x =? c_rbrace then Parsed (JObject []) r'
                else parse_members f (x :: r') []
            | [] => Invalid
            end
          else if c =? c_lbrack then
            match skip_ws r with
            | x :: r' =>
                if x =? c_rbrack then Parsed (JArray []) r'
                else parse_elements f (x :: r') []
            | [] => Invalid
            end
          else if c =? c_dquote then
            match string_chars r [] with
            | Some (str, r') => Parsed (JString str) r'
            | None => Invalid
            end
          else
            match strip_prefix (js "true") s, strip_prefix (js "false") s,
                  strip_prefix (js "null") s with
            | Some r', _, _ => Parsed (JBool true) r'
            | _, Some r', _ => Parsed (JBool false) r'
            | _, _, Some r' => Parsed JNull r'
            | None, None, None =>
                match number_lexeme s with
                | Some (lx, r') => Parsed (JNumber lx) r'
                | None => Invalid
                end
            end
      end
  end
with parse_elements (fuel : nat) (s : jsstring) (acc : list json) : presult :=
  match fuel with
  | O => Exhausted
  | S f =>
      match parse_value f s with
      | Parsed v r =>
          match skip_ws r with
          | x :: r' =>
              if x =? c_comma then parse_elements f (skip_ws r') (v :: acc)
              else if x =? c_rbrack then Parsed (JArray (rev (v :: acc))) r'
              else Invalid
          | [] => Invalid
          end
      | Invalid => Invalid
      | Exhausted => Exhausted
      end
  end
with parse_members (fuel : nat) (s : jsstring) (acc : list (jsstring * json)) : presult :=
  match fuel with
  | O => Exhausted
  | S f =>
      match s with
      | q :: r =>
          if q =? c_dquote then
            match string_chars r [] with
            | Some (key, r1) =>
                match skip_ws r1 with
                | col :: r2 =>
                    if col =? c_colon then
                      match parse_value f (skip_ws r2) with
                      | Parsed v r3 =>
                          match skip_ws r3 with
                          | x :: r4 =>
                              if x =? c_comma then
                                parse_members f (skip_ws r4) ((key, v) :: acc)
                              else if x =? c_rbrace then
                                Parsed (JObject (rev ((key, v) :: acc))) r4
                              else Invalid
                          | [] => Invalid
                          end
                      | Invalid => Invalid
                      | Exhausted => Exhausted
                      end
                    else Invalid
                | [] => Invalid
                end
            | None => Invalid
            end
          else Invalid
      | [] => Invalid
      end
  end.

(** The bound of the parser: every call of [parse_value] on a text of [n]
    code units is served by [2 * n + 1] steps. *)
Definition parse_fuel (s : jsstring) : nat := (2 * List.length s + 1)%nat.

(** [JSON.parse(text)]: white space, one value, white space, end of text;
    anything else is a [SyntaxError]. *)
Definition JSON_parse (text : jsstring) : outcome json :=
  let s := skip_ws text in
  match parse_value (parse_fuel s) s with
  | Parsed v rest =>
      match skip_ws rest with
      | [] => Returned v
      | _ :: _ => Threw SyntaxError
      end
  | Invalid => Threw SyntaxError
  | Exhausted => OutOfFuel
  end.

Fixpoint str_eqb (x y : jsstring) : bool :=
  match x, y with
  | [], [] => true
  | a :: x', b :: y' => (a =? b) && str_eqb x' y'
  | _, _ => false
  end.

(** The value of the own property [key] of an object built by
    [JSON.parse]: that of the last member so named. *)
Fixpoint get_member (key : jsstring) (ms : list (jsstring * json)) : option json :=
  match ms with
  | [] => None
  | (k, v) :: r =>
      match get_member key r with
      | Some x => Some x
      | None => if str_eqb k key then Some v else None
      end
  end.

(** [parsed && typeof parsed.question === 'string'], with the string.
    [null] is falsy; a number, a boolean, a string or an array has no
    property [question], whatever its truth value; an object has the
    property when a member is so named. *)
Definition question_of (parsed : json) : option jsstring :=
  match parsed with
  | JObject ms =>
      match get_member (js "question") ms with
      | Some (JString q) => Some q
      | _ => None
      end
  | _ => None
  end.

End Json.

Import Js Regex Json.
Open Scope js_scope.

Infix ">>" := Seq (at level 60, right associativity) : js_scope.

(* ================================================================== *)
(** ** parseModelQuestion (scripts/test_parse.js) *)
(* ================================================================== *)

(** An argument of the function: a string, or none at all. *)
Inductive arg :=
| Undefined
| Null
| Str (s : jsstring).

(** [(raw || '')]: [undefined], [null] and the empty string are falsy. *)
Definition or_empty (raw : arg) : jsstring :=
  match raw with
  | Str s => if truthy s then s else []
  | Undefined | Null => []
  end.

(** [arr[0]], which is [undefined] for an empty array, and [.trim()] called
    on that value. *)
Definition index0 (l : list jsstring) : option jsstring := hd_error l.

Definition call_trim (v : option jsstring) : outcome jsstring :=
  match v with
  | Some s => Returned (trim s)
  | None => Threw TypeError
  end.

Definition any_char (c : char) : bool := is_space c || negb (is_space c).
Definition dot_or_rparen (c : char) : bool := (c =? c_dot) || (c =? c_rparen).
Definition colon_dash_space (c : char) : bool :=
  (c =? c_colon) || (c =? c_minus) || is_space c.
Definition colon_space (c : char) : bool := (c =? c_colon) || is_space c.

(** [/\{[\s\S]*\}/] *)
Definition re_braces : pattern :=
  Pattern (Chr c_lbrace >> Star any_char >> Chr c_rbrace) false.

(** [/^[\d]+[\.\)]\s*/], written [/^[\d]+[\.)]\s*/] at its second use *)
Definition re_item_number : pattern :=
  Pattern (Bol >> Plus is_digit >> Cls dot_or_rparen >> Star is_space) false.

(** [/^Question\s+[\d]+[\:\-\s]*/] *)
Definition re_question_number : pattern :=
  Pattern (Bol >> Lit (js "Question") >> Plus is_space >> Plus is_digit
           >> Star colon_dash_space) false.

(** [/\r?\n/] *)
Definition re_newline : pattern :=
  Pattern (Opt (Chr 13) >> Chr 10) false.

Definition question_words : list string :=
  ["what"; "how"; "why"; "explain"; "describe"; "define"; "implement";
   "compare"; "difference"; "when"; "where"; "which"]%string.

(** [/\b(what|how|why|explain|describe|define|implement|compare|difference|when|where|which)\b/i] *)
Definition questionWordRegex : pattern :=
  Pattern (WordB
           >> OneOf (Lit (js "what")) (List.map (fun w => Lit (js w)) (tl question_words))
           >> WordB) true.

(** [/^(Question|Q|Ask)[:\s]*/i] *)
Definition re_label : pattern :=
  Pattern (Bol >> OneOf (Lit (js "Question")) [Lit (js "Q"); Lit (js "Ask")]
           >> Star colon_space) true.

(** The [try] block: the value it returns, or [None] when control leaves
    it at its end. *)
Definition parse_json_block (raw : jsstring) : outcome (option jsstring) :=
  match match0 re_braces raw with
  | Some jsonMatch =>
      parsed <- JSON_parse jsonMatch ;;
      match question_of parsed with
      | Some question =>
          if (0 <? List.length (trim question))%nat
          then Returned (Some (trim question))
          else Returned None
      | None => Returned None
      end
  | None => Returned None
  end.

Definition cleanText (raw : jsstring) : jsstring :=
  trim (replace re_question_number [] (replace re_item_number [] raw)).

Definition lines_of (text : jsstring) : list jsstring :=
  filter truthy (List.map trim (split re_newline text)).

(** [candidateLine] after the steps 1) to 3). *)
Definition pick_candidate (lines : list jsstring) : option jsstring :=
  let candidateLine := find (includes c_qmark) lines in
  let candidateLine :=
    if negb (truthy_opt candidateLine)
    then find (test questionWordRegex) lines
    else candidateLine in
  if negb (truthy_opt candidateLine) then
    let numbered :=
      find (fun l => truthy l && (5 <? List.length l)%nat)
           (List.map (replace re_item_number []) lines) in
    Some (or_else numbered (or_else (index0 lines) []))
  else candidateLine.

(** The two prefix removals and the trim applied to the chosen line. *)
Definition strip_candidate (candidateLine : option jsstring) : jsstring :=
  trim (replace re_label [] (replace re_item_number [] (or_else candidateLine []))).

(** The cut at the first question mark. *)
Definition first_question (candidateLine : jsstring) : outcome jsstring :=
  if includes c_qmark candidateLine then
    firstQ <- call_trim (index0 (split_char c_qmark candidateLine)) ;;
    Returned (if truthy firstQ then firstQ ++ [c_qmark] else candidateLine)
  else Returned candidateLine.

(** [question] *)
Definition with_question_mark (candidateLine : jsstring) : jsstring :=
  if truthy candidateLine then
    if endsWith c_qmark candidateLine then candidateLine
    else candidateLine ++ [c_qmark]
  else [].

(** The fallback after the [try] statement, down to [question]. *)
Definition fallback_question (raw : jsstring) : outcome jsstring :=
  let lines := lines_of (cleanText raw) in
  candidateLine <- first_question (strip_candidate (pick_candidate lines)) ;;
  Returned (with_question_mark candidateLine).

Definition parseModelQuestion_arg (raw : arg) : outcome (option jsstring) :=
  let raw := trim (or_empty raw) in
  early <- try_catch (parse_json_block raw) (fun _ => Returned None) ;;
  match early with
  | Some question => Returned (Some question)
  | None =>
      question <- fallback_question raw ;;
      if negb (truthy question) || str_eqb question [c_qmark]
      then Returned None
      else Returned (Some question)
  end.

(** The function on a string argument; [None] is its [null]. *)
Definition parseModelQuestion (raw : jsstring) : outcome (option jsstring) :=
  parseModelQuestion_arg (Str raw).

(* ================================================================== *)
(** ** generateQuestion (the Gemini service) *)
(* ================================================================== *)

Definition dot_only (c : char) : bool := c =? c_dot.
Definition colon_space_dash (c : char) : bool :=
  (c =? c_colon) || is_space c || (c =? c_minus).
Definition dot_or_bang (c : char) : bool := (c =? c_dot) || (c =? c_bang).

(** [/\s+/g] *)
Definition re_spaces : pattern := Pattern (Plus is_space) false.

(** [/^[\d]+[\.]?\)?\s*/] *)
Definition re_numbering : pattern :=
  Pattern (Bol >> Plus is_digit >> Opt (Cls dot_only) >> Opt (Chr c_rparen)
           >> Star is_space) false.

(** [/^(Question|Q|Ask)[:\s-]*/i] *)
Definition re_label_dash : pattern :=
  Pattern (Bol >> OneOf (Lit (js "Question")) [Lit (js "Q"); Lit (js "Ask")]
           >> Star colon_space_dash) true.

Definition connectors : list string :=
  ["Also"; "Additionally"; "And then"; "Next"; "Follow up"; "Follow-up";
   "As well as"]%string.

(** [/\b(?:Also|Additionally|And then|Next|Follow up|Follow-up|As well as)\b/i] *)
Definition re_connector : pattern :=
  Pattern (WordB
           >> OneOf (Lit (js "Also")) (List.map (fun w => Lit (js w)) (tl connectors))
           >> WordB) true.

(** [/[.!]/] *)
Definition re_sentence_end : pattern := Pattern (Cls dot_or_bang) false.

Definition keepOnlyFirstQuestion (text : jsstring) : outcome jsstring :=
  if negb (truthy text) then Returned []
  else
    let candidate := trim (replace_all re_spaces (js " ") text) in
    let candidate :=
      trim (replace re_label_dash [] (replace re_numbering [] candidate)) in
    candidate <- call_trim (index0 (split re_connector candidate)) ;;
    if includes c_qmark candidate then
      firstQ <- call_trim (index0 (split_char c_qmark candidate)) ;;
      Returned (if truthy firstQ then firstQ ++ [c_qmark] else candidate)
    else
      match search re_sentence_end candidate with
      | Some sentenceEnd => Returned (trim (firstn (sentenceEnd + 1) candidate))
      | None => Returned candidate
      end.

Definition trouble_message : jsstring :=
  js "I'm having trouble coming up with a question right now. Let's try again in a moment.".

(** The first [try] block: the schema-constrained reply. *)
Definition schema_block (raw : jsstring) : outcome (option jsstring) :=
  parsed <- JSON_parse raw ;;
  match question_of parsed with
  | Some question =>
      single <- keepOnlyFirstQuestion question ;;
      if truthy single then Returned (Some single) else Returned None
  | None => Returned None
  end.

(** [cleanText] of this copy. *)
Definition cleanText_g (raw : jsstring) : jsstring :=
  trim (replace re_question_number [] (replace re_numbering [] raw)).

(** The body of the outer [try], from the moment the reply has arrived;
    [text] is [response.text], absent when the reply carries none.  The
    second [try] block is, word for word, the one of [parseModelQuestion]
    ([parse_json_block]), and so are the split into lines and the steps
    1) to 3) ([lines_of], [pick_candidate]).  The calls of [console.warn]
    and the block that only counts question marks for a warning have no
    bearing on the value and are left out. *)
Definition generateQuestion_body (text : option jsstring) : outcome jsstring :=
  let raw := trim (or_else text []) in
  first <- try_catch (schema_block raw) (fun _ => Returned None) ;;
  match first with
  | Some single => Returned single
  | None =>
      second <- try_catch (parse_json_block raw) (fun _ => Returned None) ;;
      match second with
      | Some question => Returned question
      | None =>
          let lines := lines_of (cleanText_g raw) in
          candidateLine <- keepOnlyFirstQuestion (or_else (pick_candidate lines) []) ;;
          let question := with_question_mark candidateLine in
          if negb (truthy question) || str_eqb question [c_qmark]
          then Returned trouble_message
          else Returned question
      end
  end.

(** [generateQuestion] once the model has replied: the outer [catch]
    turns every exception into the same message. *)
Definition generateQuestion (text : option jsstring) : outcome jsstring :=
  try_catch (generateQuestion_body text) (fun _ => Returned trouble_message).

(* ================================================================== *)
(** ** The rules in words *)
(* ================================================================== *)

(** The definitions of this part restate, step by step and without
    patterns, what the extraction rules say; the theorems compare them
    with the programs above. *)

(** The text of [s] through the last occurrence of [c]. *)
Fixpoint through_last (c : char) (s : jsstring) : option jsstring :=
  match s with
  | [] => None
  | x :: r =>
      match through_last c r with
      | Some p => Some (x :: p)
      | None => if x =? c then Some [x] else None
      end
  end.

(** The text of [s] from its first opening brace through its last closing
    brace. *)
Definition greedy_braces (s : jsstring) : option jsstring :=
  match drop_while (fun x => negb (x =? c_lbrace)) s with
  | [] => None
  | x :: r => option_map (cons x) (through_last c_rbrace r)
  end.

(** The text before the first character satisfying [p], and the text
    through that character. *)
Definition before_first (p : char -> bool) (s : jsstring) : jsstring :=
  take_while (fun x => negb (p x)) s.

Fixpoint through_first (p : char -> bool) (s : jsstring) : jsstring :=
  match s with
  | [] => []
  | x :: r => if p x then [x] else x :: through_first p r
  end.

Definition is_qmark (c : char) : bool := c =? c_qmark.

(** [w] is a prefix of [s] up to the case of ASCII letters: the rest. *)
Fixpoint prefix_ci (w s : jsstring) : option jsstring :=
  match w, s with
  | [], _ => Some s
  | x :: w', y :: s' => if chr_matches true x y then prefix_ci w' s' else None
  | _ :: _, [] => None
  end.

(** [w] stands as a whole word between the text [b] behind (last character
    first) and the text [a] ahead: no word character just before it and
    none just after it. *)
Definition word_at (b a w : jsstring) : bool :=
  negb (is_word_at b)
  && match prefix_ci w a with
     | Some rest => negb (is_word_at rest)
     | None => false
     end.

(** One of the words [ws] stands as a whole word somewhere in [a]. *)
Fixpoint occurs_from (ws : list jsstring) (b a : jsstring) : bool :=
  existsb (word_at b a) ws
  || match a with
     | [] => false
     | c :: a' => occurs_from ws (c :: b) a'
     end.

(** The text of [a] before the first whole-word occurrence of one of [ws]. *)
Fixpoint before_word (ws : list jsstring) (b a : jsstring) : jsstring :=
  if existsb (word_at b a) ws then []
  else match a with
       | [] => []
       | c :: a' => c :: before_word ws (c :: b) a'
       end.

Definition has_question_word (l : jsstring) : bool :=
  occurs_from (List.map js question_words) [] l.

(** A leading run of digits followed by a dot or a closing parenthesis, with
    the white space after it, removed. *)
Definition strip_item_number (s : jsstring) : jsstring :=
  match take_while is_digit s, drop_while is_digit s with
  | _ :: _, c :: r => if dot_or_rparen c then drop_while is_space r else s
  | _, _ => s
  end.

(** The choice of the candidate among the lines, by priority. *)
Definition choose_line (lines : list jsstring) : jsstring :=
  match List.find (includes c_qmark) lines with
  | Some l => l
  | None =>
      match List.find has_question_word lines with
      | Some l => l
      | None =>
          match List.find (fun l => (5 <? List.length l)%nat)
                          (List.map strip_item_number lines) with
          | Some l => l
          | None =>
              match lines with
              | l :: _ => l
              | [] => []
              end
          end
      end
  end.

(** Every run of white space replaced by one space: a white-space
    character survives, as a space, when it is the last of its run. *)
Fixpoint collapse_spaces (s : jsstring) : jsstring :=
  match s with
  | [] => []
  | c :: r =>
      if is_space c then
        match r with
        | x :: _ => if is_space x then collapse_spaces r else 32 :: collapse_spaces r
        | [] => [32]
        end
      else c :: collapse_spaces r
  end.

Definition drop_one (p : char -> bool) (s : jsstring) : jsstring :=
  match s with
  | c :: r => if p c then r else s
  | [] => s
  end.

(** A leading numbering removed: digits, then at most one dot, then at
    most one closing parenthesis, then white space. *)
Definition strip_numbering (s : jsstring) : jsstring :=
  match take_while is_digit s with
  | [] => s
  | _ :: _ =>
      drop_while is_space
        (drop_one (N.eqb c_rparen) (drop_one dot_only (drop_while is_digit s)))
  end.

(** A leading label removed, with the characters of [sep] that follow it. *)
Definition strip_label (sep : char -> bool) (s : jsstring) : jsstring :=
  match prefix_ci (js "Question") s, prefix_ci (js "Q") s, prefix_ci (js "Ask") s with
  | Some r, _, _ => drop_while sep r
  | None, Some r, _ => drop_while sep r
  | None, None, Some r => drop_while sep r
  | None, None, None => s
  end.

(** The cut at the first question mark, when some text stands before it. *)
Definition cut_at_qmark (c : jsstring) : jsstring :=
  let firstQ := trim (before_first is_qmark c) in
  if truthy firstQ then firstQ ++ [c_qmark] else c.

(** [keepOnlyFirstQuestion] in words. *)
Definition keep_first_question (text : jsstring) : jsstring :=
  let c := trim (collapse_spaces text) in
  let c := trim (strip_label colon_space_dash (strip_numbering c)) in
  let c := trim (before_word (List.map js connectors) [] c) in
  if includes c_qmark c then cut_at_qmark c
  else trim (through_first dot_or_bang c).

(** The structured path of [parseModelQuestion] on a reply: the question
    found in a JSON object between braces, or nothing. *)
Definition structured_path (raw : jsstring) : outcome (option jsstring) :=
  try_catch (parse_json_block (trim raw)) (fun _ => Returned None).

(** The schema path of [generateQuestion]: the question of a reply that is
    a JSON text as a whole, or nothing. *)
Definition schema_path (raw : jsstring) : outcome (option jsstring) :=
  try_catch (schema_block (trim raw)) (fun _ => Returned None).

(** The selected and normalized candidate line of the fallback. *)
Definition candidate_of (raw : jsstring) : jsstring :=
  strip_candidate (pick_candidate (lines_of (cleanText (trim raw)))).

(** The last step of the fallback: the closing question mark and the
    rejection of an empty result. *)
Definition finish (candidateLine : jsstring) : option jsstring :=
  let question := with_question_mark candidateLine in
  if negb (truthy question) || str_eqb question [c_qmark] then None
  else Some question.

(** A string is trimmed when neither its first nor its last character is
    a white-space character. *)
Definition starts_clean (s : jsstring) : bool :=
  match s with c :: _ => negb (is_space c) | [] => true end.

Definition trimmed (s : jsstring) : bool :=
  starts_clean s && starts_clean (rev s).

(** A character of a plain question: no question mark, no opening brace,
    no line feed. *)
Definition plain_char (c : char) : bool :=
  negb (c =? c_qmark) && negb (c =? c_lbrace) && negb (c =? 10).

Definition is_digit_at (s : jsstring) : bool :=
  match s with c :: _ => is_digit c | [] => false end.

(** One of the label patterns matches at the start of [s].  The patterns
    ask for no separator after Question, Q or Ask, so they match as soon
    as [s] begins with the letter q or Q (as Question does, and Quicksort)
    or with the letters ask in any letter case (as in Asking). *)
Definition has_label (s : jsstring) : bool :=
  match prefix_ci (js "Q") s, prefix_ci (js "Ask") s with
  | None, None => false
  | _, _ => true
  end.

(** [w] is the body of a clean question [w?], a text that both copies
    leave as it is.  In the order of the conjuncts: [w] is not empty;
    neither its first nor its last character is white space, so no white
    space stands before the question mark; it holds no question mark, no
    opening brace and no line feed; it does not begin with a digit; it
    does not begin with the letter q or Q, nor with the letters ask in any
    letter case ([has_label]: the label patterns would remove them, and
    turn Quicksort into uicksort); every white-space character in it is a
    space that is not followed by white space; and none of the connectors
    stands in it as a whole word, in any letter case. *)
Definition clean_question (w : jsstring) : bool :=
  let s := w ++ [c_qmark] in
  truthy w && trimmed w && forallb plain_char w
  && negb (is_digit_at s) && negb (has_label s)
  && str_eqb (collapse_spaces s) s
  && negb (occurs_from (List.map js connectors) [] s).

(** A well-formed question: not empty, trimmed, closed by a question mark
    that is its only one. *)
Definition well_formed_question (q : jsstring) : Prop :=
  q <> [] /\ trim q = q /\ endsWith c_qmark q = true
  /\ count_occ N.eq_dec q c_qmark = 1%nat.



(* ================================================================== *)
(** ** Notions used in the proofs *)
(* ================================================================== *)

(** What a successful parse leaves is shorter than what it was given. *)
Definition consumes (fuel : nat) : Prop :=
  (forall s v r, parse_value fuel s = Parsed v r ->
                 (List.length r < List.length s)%nat)
  /\ (forall s acc v r, parse_elements fuel s acc = Parsed v r ->
                        (List.length r < List.length s)%nat)
  /\ (forall s acc v r, parse_members fuel s acc = Parsed v r ->
                        (List.length r < List.length s)%nat).

(** With [2 * n + 1] steps for a value of [n] code units (one more for a
    list of elements or members) the bound is never reached. *)
Definition never_dry (fuel : nat) : Prop :=
  (forall s, (2 * List.length s + 1 <= fuel)%nat -> parse_value fuel s <> Exhausted)
  /\ (forall s acc, (2 * List.length s + 2 <= fuel)%nat ->
                    parse_elements fuel s acc <> Exhausted)
  /\ (forall s acc, (2 * List.length s + 2 <= fuel)%nat ->
                    parse_members fuel s acc <> Exhausted).

(** The continuation that ends a match. *)
Definition accept : cont := fun b a => Some (b, a).

(** The text consumed by a match of [n] code units, last character first. *)
Definition eaten (n : nat) (b a : jsstring) : jsstring := rev (firstn n a) ++ b.

(** ASCII letters. *)
Definition is_letter (c : char) : bool :=
  ((65 <=? c) && (c <=? 90)) || ((97 <=? c) && (c <=? 122)).

(** A word of a pattern begins and ends with a letter. *)
Definition wordlike (w : jsstring) : bool :=
  match w with c :: _ => is_letter c | [] => false end
  && match rev w with c :: _ => is_letter c | [] => false end.

(** The pattern [\b(w0|w1|...)\b] with the [i] flag. *)
Definition word_pattern (w0 : jsstring) (ws : list jsstring) : pattern :=
  Pattern (WordB >> OneOf (Lit w0) (List.map Lit ws) >> WordB) true.

Definition ends_word (a w : jsstring) : bool :=
  match prefix_ci w a with
  | Some rest => negb (is_word_at rest)
  | None => false
  end.

Definition word_end (b a : jsstring) (w : option jsstring) : option mstate :=
  match w with
  | Some w => Some (eaten (List.length w) b a, skipn (List.length w) a)
  | None => None
  end.

Definition to_rbrace : cont := fun b a => m false (Chr c_rbrace) b a accept.

Definition matched_text (found : option (jsstring * mstate)) : option jsstring :=
  match found with
  | Some (b, e) => Some (rev (firstn (match_length b e) (fst e)))
  | None => None
  end.

Definition not_lbrace (x : char) : bool := negb (x =? c_lbrace).

(** The pattern [^(Question|Q|Ask)[..]*] with the [i] flag, for a class
    [sep] of separators. *)
Definition label_pattern (sep : char -> bool) : pattern :=
  Pattern (Bol >> OneOf (Lit (js "Question")) [Lit (js "Q"); Lit (js "Ask")]
           >> Star sep) true.

Open Scope N_scope.

(* ================================================================== *)
(** ** generateQuestion with its call of the model *)
(* ================================================================== *)

(** The outcome of the awaited call of the model: the promise is rejected
    (or reading the reply throws), or a reply arrives, with or without a
    [text]. *)
Inductive reply :=
| Rejected (e : exn)
| Replied (text : option jsstring).

(** [generateQuestion] with its call of the model: the outer [try] also
    covers the call. *)
Definition generateQuestion_call (r : reply) : outcome jsstring :=
  try_catch
    match r with
    | Rejected e => Threw e
    | Replied text => generateQuestion_body text
    end
    (fun _ => Returned trouble_message).

(* ================================================================== *)
(** ** The other functions of the service *)
(* ================================================================== *)

(** The two fixed answers of [askCustomQuestion]. *)
Definition no_answer_message : jsstring :=
  js "I couldn't generate an answer just now. Please try asking again.".

Definition snag_message : jsstring :=
  js "Sorry, I hit a snag answering that. Please try again.".

(** [askCustomQuestion] from the call of the model on; its arguments only
    go into the prompt. *)
Definition askCustomQuestion (r : reply) : outcome jsstring :=
  try_catch
    match r with
    | Rejected e => Threw e
    | Replied response_text =>
        let text := trim (or_else response_text []) in
        if negb (truthy text) then Returned no_answer_message
        else Returned text
    end
    (fun _ => Returned snag_message).

(** The object returned by the [catch] of [evaluateAnswer]. *)
Definition error_feedback : json :=
  JObject
    [(js "score", JNumber (js "0"));
     (js "feedback",
      JString (js "Sorry, I encountered an error while evaluating your answer. It might be due to a content safety policy or a network issue. Please try a different answer or restart the session."));
     (js "suggestedAnswer", JString (js "No suggestion available due to an error."));
     (js "error", JBool true)].

(** [evaluateAnswer] from the call of the model on: [response.text.trim()]
    throws on a reply without text, and the parsed value is returned as it
    is. *)
Definition evaluateAnswer (r : reply) : outcome json :=
  try_catch
    match r with
    | Rejected e => Threw e
    | Replied response_text =>
        jsonText <- call_trim response_text ;;
        JSON_parse jsonText
    end
    (fun _ => Returned error_feedback).

(** The levels of [Difficulty] (types.ts). *)
Inductive Difficulty := Beginner | Intermediate | Advanced.

(** The [contents] of the request of [evaluateAnswer]: the prompt alone,
    or the prompt and the image as two parts. *)
Inductive contents :=
| Prompt (prompt : jsstring)
| Parts (prompt mimeType : jsstring) (data : option jsstring).

(** [difficulty === 'Advanced' && !!imageB64Data] *)
Definition withVisualAnalysis (difficulty : Difficulty)
    (imageB64Data : option jsstring) : bool :=
  match difficulty with
  | Advanced => truthy_opt imageB64Data
  | _ => false
  end.

(** [requestContents]: the data of the image is the second piece of the
    image text split at its commas, undefined when there is none. *)
Definition requestContents (difficulty : Difficulty)
    (imageB64Data : option jsstring) (prompt : jsstring) : contents :=
  match imageB64Data with
  | Some image =>
      if withVisualAnalysis difficulty imageB64Data && truthy image
      then Parts prompt (js "image/jpeg") (nth_error (split_char c_comma image) 1)
      else Prompt prompt
  | None => Prompt prompt
  end.

(** [/hr/i] and the test of [getQuestionGenerationPrompt] on the subject. *)
Definition re_hr : pattern := Pattern (Lit (js "hr")) true.

Definition isHrInterview (subject : jsstring) : bool := test re_hr subject.

(* ================================================================== *)
(** ** handleCustomAsk (components/DashboardScreen) *)
(* ================================================================== *)

(** A message of the conversation (types.ts), without its optional
    feedback. *)
Inductive Role := user | model | system.

Record ChatMessage := { role : Role; text : jsstring }.

(** The argument of the handler: nothing, a string, or the event object
    that a click passes to it. *)
Inductive handler_arg := NoValue | Value (s : jsstring) | ClickEvent.

(** The part of the component state that the handler reads and writes. *)
Record dashboard := {
  customInput : jsstring;
  isCustomLoading : bool;
  customMessages : list ChatMessage
}.

(** The text of the message that the [catch] of the handler adds. *)
Definition apology : jsstring :=
  js "Sorry, I couldn't answer that right now. Please try again.".

(** [handleCustomAsk]: the first line calls [trim] on whatever the
    argument is; the [try] only covers the call of [askCustomQuestion].
    [r] is the way the call of the model settles. *)
Definition handleCustomAsk (value : handler_arg) (r : reply) (st : dashboard)
  : outcome dashboard :=
  question <- match value with
              | NoValue => Returned (trim (customInput st))
              | Value s => Returned (trim s)
              | ClickEvent => Threw TypeError
              end ;;
  if negb (truthy question) || isCustomLoading st then Returned st
  else
    let asked := customMessages st ++ [{| role := user; text := question |}] in
    messages <-
      try_catch
        (answer <- askCustomQuestion r ;;
         Returned (asked ++ [{| role := model; text := answer |}]))
        (fun _ => Returned (asked ++ [{| role := system; text := apology |}])) ;;
    Returned {| customInput := [];
                isCustomLoading := false;
                customMessages := messages |}.

(* ================================================================== *)
(** ** Further notions used in the proofs *)
(* ================================================================== *)

(** The fallback of [generateQuestion], once both JSON paths gave
    nothing. *)
Definition service_fallback (raw : jsstring) : jsstring :=
  let question :=
    with_question_mark
      (keep_first_question
         (or_else (pick_candidate (lines_of (cleanText_g raw))) [])) in
  if negb (truthy question) || str_eqb question [c_qmark]
  then trouble_message else question.

(** White space is written with single spaces: every white-space character
    is a space and no other white-space character follows it. *)
Fixpoint single_spaced (s : jsstring) : bool :=
  match s with
  | [] => true
  | c :: r =>
      (if is_space c
       then (c =? 32) && negb (match r with x :: _ => is_space x | [] => false end)
       else true)
      && single_spaced r
  end.

(** The text [s] begins with a white-space character. *)
Definition space_at (s : jsstring) : bool :=
  match s with x :: _ => is_space x | [] => false end.

(** The text [s] holds no line feed. *)
Definition no_line_feed (s : jsstring) : Prop := includes 10 s = false.

(** No character of the word [w0] matches [q], whatever the case. *)
Definition free_of (q : char) (w0 : jsstring) : bool :=
  forallb (fun c => negb (chr_matches true c q)) w0.

(** The first character of [s] satisfies [p]. *)
Definition head_in (p : char -> bool) (s : jsstring) : bool :=
  match s with c :: _ => p c | [] => false end.

(** The labels of the two patterns, and a text that is one of them up to
    the case of its letters. *)
Definition labels : list string := ["Question"; "Q"; "Ask"]%string.

Definition is_label (l : jsstring) : bool :=
  existsb (fun W => match prefix_ci (js W) l with
                    | Some [] => true
                    | _ => false
                    end) labels.

(** A character that stands for itself inside a JSON string. *)
Definition json_plain (c : char) : bool :=
  (32 <=? c) && negb (c =? c_dquote) && negb (c =? c_bslash).

(** The reply that the prompt asks for: an object whose only member is
    named question, with any JSON white space around its tokens. *)
Definition question_reply (ws1 ws2 ws3 ws4 q : jsstring) : jsstring :=
  c_lbrace :: ws1 ++ c_dquote :: js "question" ++ c_dquote :: ws2
    ++ c_colon :: ws3 ++ c_dquote :: q ++ c_dquote :: ws4 ++ [c_rbrace].

(* ================================================================== *)
(** ** Lists of code units *)
(* ================================================================== *)

Section Lists.

Variable p : char -> bool.

Lemma take_drop_while (s : jsstring) :
  take_while p s ++ drop_while p s = s.
Proof.
  induction s as [|c r IH]; simpl; [reflexivity|].
  destruct (p c); simpl; [now rewrite IH | reflexivity].
Qed.

Lemma drop_while_head (s r : jsstring) (c : char) :
  drop_while p s = c :: r -> p c = false.
Proof.
  induction s as [|x s IH]; simpl; [discriminate|].
  destruct (p x) eqn:E; [exact IH|].
  intros H; injection H as -> _; exact E.
Qed.

Lemma drop_while_stop (c : char) (r : jsstring) :
  p c = false -> drop_while p (c :: r) = c :: r.
Proof. intros H; simpl; now rewrite H. Qed.

Lemma drop_while_all (s : jsstring) :
  forallb p s = true -> drop_while p s = [].
Proof.
  induction s as [|c r IH]; simpl; [reflexivity|].
  intros H; apply andb_true_iff in H as [-> H]; auto.
Qed.

Lemma take_while_all (s : jsstring) :
  forallb p (take_while p s) = true.
Proof.
  induction s as [|c r IH]; simpl; [reflexivity|].
  destruct (p c) eqn:E; simpl; [now rewrite E | reflexivity].
Qed.

Lemma drop_while_app_all (s t : jsstring) :
  forallb p s = true -> drop_while p (s ++ t) = drop_while p t.
Proof.
  induction s as [|c r IH]; simpl; [reflexivity|].
  intros H; apply andb_true_iff in H as [-> H]; auto.
Qed.

Lemma drop_while_length (s : jsstring) :
  (List.length (drop_while p s) <= List.length s)%nat.
Proof.
  induction s as [|c r IH]; simpl; [lia|].
  destruct (p c); simpl; lia.
Qed.

Lemma drop_while_idem (s : jsstring) :
  drop_while p (drop_while p s) = drop_while p s.
Proof.
  destruct (drop_while p s) as [|c r] eqn:E; [reflexivity|].
  apply drop_while_stop. eapply drop_while_head; eauto.
Qed.

End Lists.

(* ================================================================== *)
(** ** trim *)
(* ================================================================== *)

Lemma trimEnd_split (s : jsstring) :
  exists t, s = trimEnd s ++ t /\ forallb is_space t = true.
Proof.
  exists (rev (take_while is_space (rev s))). split.
  - unfold trimEnd. rewrite <- rev_app_distr, take_drop_while.
    now rewrite rev_involutive.
  - rewrite forallb_forall. intros x Hx. apply in_rev in Hx.
    pose proof (take_while_all is_space (rev s)) as H.
    rewrite forallb_forall in H. auto.
Qed.

Lemma starts_clean_drop (s : jsstring) :
  starts_clean (drop_while is_space s) = true.
Proof.
  destruct (drop_while is_space s) as [|c r] eqn:E; [reflexivity|].
  simpl. apply drop_while_head in E. now rewrite E.
Qed.

Lemma drop_while_clean (s : jsstring) :
  starts_clean s = true -> drop_while is_space s = s.
Proof.
  destruct s as [|c r]; [reflexivity|]. simpl.
  intros H; apply negb_true_iff in H. now rewrite H.
Qed.

Lemma starts_clean_prefix (s t : jsstring) :
  starts_clean (s ++ t) = true -> s <> [] -> starts_clean s = true.
Proof. destruct s; [congruence | simpl; auto]. Qed.

Lemma trimEnd_nil_all (s : jsstring) :
  trimEnd s = [] -> forallb is_space s = true.
Proof.
  intros H. destruct (trimEnd_split s) as (t & E & Ht).
  rewrite H in E. simpl in E. now subst.
Qed.

Lemma trimmed_trim (s : jsstring) : trimmed (trim s) = true.
Proof.
  unfold trimmed, trim. apply andb_true_iff. split.
  - set (u := trimStart s).
    destruct (trimEnd u) as [|c r] eqn:E; [reflexivity|].
    destruct (trimEnd_split u) as (t & Eu & _).
    apply starts_clean_prefix with (t := t); [|congruence].
    rewrite <- E, <- Eu. apply starts_clean_drop.
  - unfold trimEnd. rewrite rev_involutive. apply starts_clean_drop.
Qed.

Lemma trim_trimmed (s : jsstring) : trimmed s = true -> trim s = s.
Proof.
  unfold trimmed, trim, trimStart, trimEnd.
  intros H; apply andb_true_iff in H as [H1 H2].
  rewrite (drop_while_clean s H1), (drop_while_clean (rev s) H2).
  apply rev_involutive.
Qed.

Lemma trim_fixed_iff (s : jsstring) : trim s = s <-> trimmed s = true.
Proof.
  split; [|apply trim_trimmed].
  intros H; rewrite <- H; apply trimmed_trim.
Qed.

Lemma trim_idem (s : jsstring) : trim (trim s) = trim s.
Proof. apply trim_trimmed, trimmed_trim. Qed.

Lemma trim_nil : trim [] = [].
Proof. reflexivity. Qed.

Lemma qmark_not_space : is_space c_qmark = false.
Proof. reflexivity. Qed.

(** Appending a character that is not white space to a trimmed, non-empty
    string keeps it trimmed. *)
Lemma trimmed_snoc (s : jsstring) (c : char) :
  trimmed s = true -> s <> [] -> is_space c = false -> trimmed (s ++ [c]) = true.
Proof.
  unfold trimmed. intros H Hs Hc. apply andb_true_iff in H as [H1 _].
  apply andb_true_iff; split.
  - destruct s; [congruence | exact H1].
  - rewrite rev_app_distr. simpl. now rewrite Hc.
Qed.

(** The trimmed text is a contiguous part of the text. *)
Lemma trim_infix (s : jsstring) :
  exists u v, s = u ++ trim s ++ v.
Proof.
  unfold trim. destruct (trimEnd_split (trimStart s)) as (t & E & _).
  exists (take_while is_space s), t.
  rewrite <- E. unfold trimStart. now rewrite take_drop_while.
Qed.

Lemma includes_app (c : char) (s t : jsstring) :
  includes c (s ++ t) = includes c s || includes c t.
Proof. unfold includes. apply existsb_app. Qed.

Lemma includes_trim_false (c : char) (s : jsstring) :
  includes c s = false -> includes c (trim s) = false.
Proof.
  intros H. destruct (trim_infix s) as (u & v & E).
  rewrite E, !includes_app in H.
  apply orb_false_iff in H as [_ H]. now apply orb_false_iff in H as [H _].
Qed.

Lemma includes_count (c : char) (s : jsstring) :
  includes c s = false -> count_occ N.eq_dec s c = 0%nat.
Proof.
  unfold includes. induction s as [|x r IH]; simpl; [reflexivity|].
  intros H; apply orb_false_iff in H as [Hx Hr].
  destruct (N.eq_dec x c) as [->|_]; [|auto].
  now rewrite N.eqb_refl in Hx.
Qed.

Lemma count_snoc (c : char) (s : jsstring) :
  count_occ N.eq_dec (s ++ [c]) c = S (count_occ N.eq_dec s c).
Proof.
  rewrite count_occ_app. simpl.
  destruct (N.eq_dec c c); [|congruence].
  apply Nat.add_1_r.
Qed.

Lemma endsWith_snoc (c : char) (s : jsstring) : endsWith c (s ++ [c]) = true.
Proof. unfold endsWith. rewrite rev_app_distr. simpl. apply N.eqb_refl. Qed.

Lemma before_first_clean (p : char -> bool) (s : jsstring) :
  existsb p (before_first p s) = false.
Proof.
  unfold before_first. induction s as [|c r IH]; simpl; [reflexivity|].
  destruct (p c) eqn:E; simpl; [reflexivity|]. now rewrite E.
Qed.

Lemma before_first_no_qmark (s : jsstring) :
  includes c_qmark (before_first is_qmark s) = false.
Proof.
  unfold includes, before_first, is_qmark.
  induction s as [|c r IH]; [reflexivity|].
  cbn [take_while]. destruct (c =? c_qmark) eqn:E; cbn [negb existsb]; [reflexivity|].
  rewrite N.eqb_sym, E. exact IH.
Qed.

(** [s.split('?')[0]] is the text before the first question mark. *)
Lemma split_char_first (s : jsstring) :
  index0 (split_char c_qmark s) = Some (before_first is_qmark s).
Proof.
  unfold before_first, is_qmark.
  induction s as [|x r IH]; [reflexivity|].
  cbn [split_char take_while].
  destruct (x =? c_qmark); cbn [negb]; [reflexivity|].
  destruct (split_char c_qmark r) as [|q qs]; cbn in IH |- *; [discriminate|].
  now injection IH as ->.
Qed.


(* ================================================================== *)
(** ** JSON.parse: the parser consumes its input and never runs dry *)
(* ================================================================== *)

Section JsonParser.

Local Abbreviation len := (@List.length char).

Lemma skip_ws_le (s t : jsstring) : skip_ws s = t -> (len t <= len s)%nat.
Proof. intros <-. apply drop_while_length. Qed.

Lemma string_chars_lt (s acc str r : jsstring) :
  string_chars s acc = Some (str, r) -> (len r < len s)%nat.
Proof.
  remember (len s) as n eqn:Hn. revert s acc Hn.
  induction n as [n IH] using lt_wf_ind. intros s acc -> H.
  destruct s as [|c s1]; [discriminate|]. cbn [string_chars] in H.
  destruct (c =? c_dquote).
  { injection H as _ <-. simpl; lia. }
  destruct (c =? c_bslash).
  - destruct s1 as [|e s2]; [discriminate|].
    destruct (e =? 117).
    + destruct s2 as [|h1 [|h2 [|h3 [|h4 s3]]]]; try discriminate.
      destruct (hex4 h1 h2 h3 h4); [|discriminate].
      apply IH with (m := len s3) in H; simpl in *; lia.
    + destruct (simple_escape e); [|discriminate].
      apply IH with (m := len s2) in H; simpl in *; lia.
  - destruct (c <? 32); [discriminate|].
    apply IH with (m := len s1) in H; simpl in *; lia.
Qed.

Lemma digits1_le (s ds r : jsstring) :
  digits1 s = Some (ds, r) -> (len r <= len s)%nat.
Proof.
  unfold digits1. destruct (take_while is_digit s); [discriminate|].
  intros H; injection H as _ <-. apply drop_while_length.
Qed.

Lemma number_lexeme_lt (s lx r : jsstring) :
  number_lexeme s = Some (lx, r) -> (len r < len s)%nat.
Proof.
  unfold number_lexeme.
  set (signed := match s with
                 | c :: r0 => if c =? c_minus then ([c], r0) else ([], s)
                 | [] => ([], s)
                 end).
  assert (Hs : (len (snd signed) <= len s)%nat).
  { subst signed. destruct s as [|c r0]; simpl; [lia|].
    destruct (c =? c_minus); simpl; lia. }
  destruct signed as [sign s1]. simpl in Hs.
  destruct s1 as [|d r1]; [discriminate|].
  set (ip := if d =? 48 then Some ([d], r1)
             else if is_digit d
                  then Some (d :: take_while is_digit r1, drop_while is_digit r1)
                  else None).
  assert (Hi : forall x s2, ip = Some (x, s2) -> (len s2 <= len r1)%nat).
  { subst ip. intros x s2. destruct (d =? 48).
    - intros H; injection H as _ <-. lia.
    - destruct (is_digit d); [|discriminate].
      intros H; injection H as _ <-. apply drop_while_length. }
  destruct ip as [[ipx s2]|]; [|discriminate].
  specialize (Hi _ _ eq_refl).
  set (fp := match s2 with
             | p :: r2 =>
                 if p =? c_dot
                 then match digits1 r2 with
                      | Some (ds, s3) => Some (p :: ds, s3)
                      | None => None
                      end
                 else Some ([], s2)
             | [] => Some ([], s2)
             end).
  assert (Hf : forall x s3, fp = Some (x, s3) -> (len s3 <= len s2)%nat).
  { subst fp. intros x s3. destruct s2 as [|p r2].
    - intros H; injection H as _ <-. lia.
    - destruct (p =? c_dot).
      + destruct (digits1 r2) as [[ds s3']|] eqn:E; [|discriminate].
        intros H; injection H as _ <-. apply digits1_le in E. simpl; lia.
      + intros H; injection H as _ <-. lia. }
  destruct fp as [[fpx s3]|]; [|discriminate].
  specialize (Hf _ _ eq_refl).
  set (ep := match s3 with
             | e :: r3 =>
                 if (e =? 101) || (e =? 69)
                 then let '(esign, s4) :=
                        match r3 with
                        | g :: r4 =>
                            if (g =? 43) || (g =? c_minus) then ([g], r4) else ([], r3)
                        | [] => ([], r3)
                        end in
                      match digits1 s4 with
                      | Some (ds, s5) => Some (e :: esign ++ ds, s5)
                      | None => None
                      end
                 else Some ([], s3)
             | [] => Some ([], s3)
             end).
  assert (He : forall x s4, ep = Some (x, s4) -> (len s4 <= len s3)%nat).
  { subst ep. intros x s4. destruct s3 as [|e r3].
    - intros H; injection H as _ <-. lia.
    - destruct ((e =? 101) || (e =? 69)).
      + destruct r3 as [|g r4].
        * destruct (digits1 []) as [[ds s5]|] eqn:E; [|discriminate].
          intros H; injection H as _ <-. apply digits1_le in E. simpl in *; lia.
        * destruct ((g =? 43) || (g =? c_minus)).
          -- destruct (digits1 r4) as [[ds s5]|] eqn:E; [|discriminate].
             intros H; injection H as _ <-. apply digits1_le in E. simpl in *; lia.
          -- destruct (digits1 (g :: r4)) as [[ds s5]|] eqn:E; [|discriminate].
             intros H; injection H as _ <-. apply digits1_le in E. simpl in *; lia.
      + intros H; injection H as _ <-. lia. }
  destruct ep as [[epx s4]|]; [|discriminate].
  specialize (He _ _ eq_refl).
  intros H; injection H as _ <-. simpl in *; lia.
Qed.

Lemma strip_prefix_length (p s r : jsstring) :
  strip_prefix p s = Some r -> (len r + len p = len s)%nat.
Proof.
  revert s. induction p as [|x p IH]; intros s; simpl.
  - intros H; injection H as ->. lia.
  - destruct s as [|y s]; [discriminate|].
    destruct (x =? y); [|discriminate].
    intros H; apply IH in H. simpl; lia.
Qed.

Ltac len_facts :=
  repeat match goal with
    | H : skip_ws _ = _ |- _ => apply skip_ws_le in H
    | H : string_chars _ _ = Some _ |- _ => apply string_chars_lt in H
    | H : number_lexeme _ = Some _ |- _ => apply number_lexeme_lt in H
    | H : strip_prefix _ _ = Some _ |- _ => apply strip_prefix_length in H
    end.

Lemma parser_consumes (fuel : nat) : consumes fuel.
Proof.
  induction fuel as [|f (IHv & IHe & IHm)]; [repeat split; discriminate|].
  repeat split.
  - intros s v r H. cbn [parse_value] in H.
    destruct s as [|c r0]; [discriminate|].
    destruct (c =? c_lbrace).
    { destruct (skip_ws r0) as [|x r'] eqn:E; [discriminate|].
      destruct (x =? c_rbrace).
      - injection H as _ <-. len_facts. simpl in *; lia.
      - apply IHm in H. len_facts. simpl in *; lia. }
    destruct (c =? c_lbrack).
    { destruct (skip_ws r0) as [|x r'] eqn:E; [discriminate|].
      destruct (x =? c_rbrack).
      - injection H as _ <-. len_facts. simpl in *; lia.
      - apply IHe in H. len_facts. simpl in *; lia. }
    destruct (c =? c_dquote).
    { destruct (string_chars r0 []) as [[str r']|] eqn:E; [|discriminate].
      injection H as _ <-. len_facts. simpl; lia. }
    destruct (strip_prefix (js "true") (c :: r0)) eqn:E1.
    { injection H as _ <-. len_facts. simpl in *; lia. }
    destruct (strip_prefix (js "false") (c :: r0)) eqn:E2.
    { injection H as _ <-. len_facts. simpl in *; lia. }
    destruct (strip_prefix (js "null") (c :: r0)) eqn:E3.
    { injection H as _ <-. len_facts. simpl in *; lia. }
    destruct (number_lexeme (c :: r0)) as [[lx r']|] eqn:E4; [|discriminate].
    injection H as _ <-. len_facts. simpl in *; lia.
  - intros s acc v r H. cbn [parse_elements] in H.
    destruct (parse_value f s) as [v1 r1| |] eqn:E; try discriminate.
    apply IHv in E.
    destruct (skip_ws r1) as [|x r'] eqn:E1; [discriminate|].
    destruct (x =? c_comma).
    + apply IHe in H. destruct (skip_ws r') eqn:E2 in H; len_facts; simpl in *; lia.
    + destruct (x =? c_rbrack); [|discriminate].
      injection H as _ <-. len_facts. simpl in *; lia.
  - intros s acc v r H. cbn [parse_members] in H.
    destruct s as [|q r0]; [discriminate|].
    destruct (q =? c_dquote); [|discriminate].
    destruct (string_chars r0 []) as [[key r1]|] eqn:E; [|discriminate].
    destruct (skip_ws r1) as [|col r2] eqn:E1; [discriminate|].
    destruct (col =? c_colon); [|discriminate].
    destruct (parse_value f (skip_ws r2)) as [v1 r3| |] eqn:E2; try discriminate.
    apply IHv in E2. pose proof (drop_while_length is_json_ws r2) as L2.
    fold (skip_ws r2) in L2.
    destruct (skip_ws r3) as [|x r4] eqn:E3; [discriminate|].
    destruct (x =? c_comma).
    + apply IHm in H. pose proof (drop_while_length is_json_ws r4) as L4.
      fold (skip_ws r4) in L4. len_facts. simpl in *; lia.
    + destruct (x =? c_rbrace); [|discriminate].
      injection H as _ <-. len_facts. simpl in *; lia.
Qed.

Lemma parser_never_dry (fuel : nat) : never_dry fuel.
Proof.
  induction fuel as [|f (IHv & IHe & IHm)].
  { repeat split; intros; simpl in *; lia. }
  destruct (parser_consumes f) as (Cv & Ce & Cm).
  repeat split.
  - intros s Hf. cbn [parse_value].
    destruct s as [|c r0]; [discriminate|]. simpl in Hf.
    destruct (c =? c_lbrace).
    { destruct (skip_ws r0) as [|x r'] eqn:E; [discriminate|].
      destruct (x =? c_rbrace); [discriminate|].
      apply IHm. len_facts. simpl in *; lia. }
    destruct (c =? c_lbrack).
    { destruct (skip_ws r0) as [|x r'] eqn:E; [discriminate|].
      destruct (x =? c_rbrack); [discriminate|].
      apply IHe. len_facts. simpl in *; lia. }
    destruct (c =? c_dquote).
    { destruct (string_chars r0 []) as [[str r']|]; discriminate. }
    destruct (strip_prefix (js "true") (c :: r0)); [discriminate|].
    destruct (strip_prefix (js "false") (c :: r0)); [discriminate|].
    destruct (strip_prefix (js "null") (c :: r0)); [discriminate|].
    destruct (number_lexeme (c :: r0)) as [[lx r']|]; discriminate.
  - intros s acc Hf. cbn [parse_elements].
    destruct (parse_value f s) as [v1 r1| |] eqn:E; [|discriminate|].
    + apply Cv in E.
      destruct (skip_ws r1) as [|x r'] eqn:E1; [discriminate|].
      destruct (x =? c_comma).
      * apply IHe. pose proof (drop_while_length is_json_ws r') as L.
        fold (skip_ws r') in L. len_facts. simpl in *; lia.
      * destruct (x =? c_rbrack); discriminate.
    + exfalso. apply (IHv s); [lia | exact E].
  - intros s acc Hf. cbn [parse_members].
    destruct s as [|q r0]; [discriminate|]. simpl in Hf.
    destruct (q =? c_dquote); [|discriminate].
    destruct (string_chars r0 []) as [[key r1]|] eqn:E; [|discriminate].
    destruct (skip_ws r1) as [|col r2] eqn:E1; [discriminate|].
    destruct (col =? c_colon); [|discriminate].
    pose proof (drop_while_length is_json_ws r2) as L2. fold (skip_ws r2) in L2.
    destruct (parse_value f (skip_ws r2)) as [v1 r3| |] eqn:E2; [|discriminate|].
    + apply Cv in E2.
      destruct (skip_ws r3) as [|x r4] eqn:E3; [discriminate|].
      destruct (x =? c_comma).
      * apply IHm. pose proof (drop_while_length is_json_ws r4) as L4.
        fold (skip_ws r4) in L4. len_facts. simpl in *; lia.
      * destruct (x =? c_rbrace); discriminate.
    + exfalso. apply (IHv (skip_ws r2)); [|exact E2].
      len_facts. simpl in *; lia.
Qed.

End JsonParser.

(** [JSON.parse] returns a value or throws a [SyntaxError]. *)
Lemma JSON_parse_total (text : jsstring) :
  (exists v, JSON_parse text = Returned v) \/ JSON_parse text = Threw SyntaxError.
Proof.
  unfold JSON_parse.
  destruct (parser_never_dry (parse_fuel (skip_ws text))) as (Hv & _ & _).
  specialize (Hv (skip_ws text) (le_n _)).
  destruct (parse_value (parse_fuel (skip_ws text)) (skip_ws text)) as [v r| |].
  - destruct (skip_ws r); [left; eauto | right; reflexivity].
  - right; reflexivity.
  - congruence.
Qed.

(* ================================================================== *)
(** ** The matcher *)
(* ================================================================== *)

Lemma match_at_unfold (re : pattern) (b a : jsstring) :
  match_at re b a = m (ignoreCase re) (source re) b a accept.
Proof. reflexivity. Qed.

Section Star.

Variable p : char -> bool.

(** A greedy star takes the longest run when what follows succeeds there. *)
Lemma star_cls_first (b a : jsstring) (k : cont) (r : mstate) :
  k (rev (take_while p a) ++ b) (drop_while p a) = Some r ->
  star_cls p b a k = Some r.
Proof.
  revert b. induction a as [|c a IH]; intros b; cbn [take_while drop_while star_cls].
  - auto.
  - destruct (p c); [|auto].
    cbn [rev]. rewrite <- app_assoc. cbn [app]. intros H.
    now rewrite (IH _ H).
Qed.

(** It takes the longest run or fails when what follows cannot start with
    a character of the class. *)
Lemma star_cls_max (b a : jsstring) (k : cont) :
  (forall b' c a', p c = true -> k b' (c :: a') = None) ->
  star_cls p b a k = k (rev (take_while p a) ++ b) (drop_while p a).
Proof.
  intros Hk. revert b.
  induction a as [|c a IH]; intros b; cbn [take_while drop_while star_cls].
  - reflexivity.
  - destruct (p c) eqn:E; [|reflexivity].
    rewrite IH. cbn [rev]. rewrite <- app_assoc. cbn [app].
    destruct (k (rev (take_while p a) ++ c :: b) (drop_while p a)); [reflexivity|].
    now apply Hk.
Qed.

Lemma star_cls_accept (b a : jsstring) :
  star_cls p b a accept = Some (rev (take_while p a) ++ b, drop_while p a).
Proof. now apply star_cls_first. Qed.

Lemma skipn_take_while (a : jsstring) :
  skipn (List.length (take_while p a)) a = drop_while p a.
Proof.
  induction a as [|c a IH]; cbn [take_while drop_while]; [reflexivity|].
  destruct (p c); [exact IH | reflexivity].
Qed.

End Star.

(** A search that starts after the beginning of the text never satisfies
    a pattern anchored at the beginning. *)
Lemma exec_from_anchored (r : regex) (i : bool) (b a : jsstring) :
  b <> [] -> exec_from (Pattern (Bol >> r) i) b a = None.
Proof.
  revert b. induction a as [|c a IH]; intros b Hb; cbn [exec_from];
    rewrite match_at_unfold; cbn [source ignoreCase m];
    destruct b; try congruence.
  apply IH. discriminate.
Qed.

(** Replacing the match of an anchored pattern removes a prefix. *)
Lemma replace_anchored (r : regex) (i : bool) (s : jsstring) :
  replace (Pattern (Bol >> r) i) [] s
  = match m i r [] s accept with
    | Some e => snd e
    | None => s
    end.
Proof.
  unfold replace, exec.
  destruct s as [|c s]; cbn [exec_from]; rewrite match_at_unfold;
    cbn [source ignoreCase m].
  - destruct (m i r [] [] accept); reflexivity.
  - destruct (m i r [] (c :: s) accept); [reflexivity|].
    now rewrite exec_from_anchored.
Qed.

(* ------------------------------------------------------------------ *)
(** *** Literal words *)

Lemma m_lit (w b a : jsstring) (k : cont) :
  m true (Lit w) b a k
  = match prefix_ci w a with
    | Some rest => k (eaten (List.length w) b a) rest
    | None => None
    end.
Proof.
  unfold eaten. revert b a. induction w as [|x w IH]; intros b a.
  - reflexivity.
  - cbn [Lit m prefix_ci]. destruct a as [|y a]; [reflexivity|].
    destruct (chr_matches true x y); [|reflexivity].
    rewrite IH. destruct (prefix_ci w a); [|reflexivity].
    cbn [List.length firstn rev]. now rewrite <- app_assoc.
Qed.

Lemma prefix_ci_length (w a rest : jsstring) :
  prefix_ci w a = Some rest ->
  a = firstn (List.length w) a ++ rest /\ List.length (firstn (List.length w) a) = List.length w.
Proof.
  revert a. induction w as [|x w IH]; intros a; cbn [prefix_ci].
  - intros H; injection H as ->. now split.
  - destruct a as [|y a]; [discriminate|].
    destruct (chr_matches true x y); [|discriminate].
    intros H. destruct (IH _ H) as [E L]. cbn [List.length firstn]. split.
    + cbn [app]. now rewrite <- E.
    + now rewrite L.
Qed.

Lemma prefix_ci_skipn (w a rest : jsstring) :
  prefix_ci w a = Some rest -> rest = skipn (List.length w) a.
Proof.
  revert a. induction w as [|x w IH]; intros a; cbn [prefix_ci].
  - intros H; now injection H as ->.
  - destruct a as [|y a]; [discriminate|].
    destruct (chr_matches true x y); [|discriminate]. apply IH.
Qed.

Ltac bool_to_arith :=
  repeat match goal with
    | H : _ && _ = true |- _ => apply andb_true_iff in H as [? ?]
    | H : _ || _ = true |- _ => apply orb_true_iff in H as [?|?]
    | H : _ && _ = false |- _ => apply andb_false_iff in H as [?|?]
    | H : _ || _ = false |- _ => apply orb_false_iff in H as [? ?]
    | H : (_ <=? _) = true |- _ => apply N.leb_le in H
    | H : (_ <=? _) = false |- _ => apply N.leb_gt in H
    | H : (_ =? _) = true |- _ => apply N.eqb_eq in H
    | H : (_ =? _) = false |- _ => apply N.eqb_neq in H
    end.

(** A character that matches a letter of the pattern is a letter. *)
Lemma chr_matches_letter (x y : char) :
  is_letter x = true -> chr_matches true x y = true -> is_letter y = true.
Proof.
  unfold chr_matches, canonicalize, is_letter. intros Hx Hy.
  destruct ((97 <=? x) && (x <=? 122)) eqn:Ex;
    destruct ((97 <=? y) && (y <=? 122)) eqn:Ey;
    try (rewrite orb_true_r; reflexivity);
    bool_to_arith;
    apply orb_true_iff; left; apply andb_true_iff;
    split; apply N.leb_le; lia.
Qed.

Lemma letter_is_word (c : char) : is_letter c = true -> is_word c = true.
Proof. unfold is_letter, is_word. intros ->. reflexivity. Qed.

Lemma prefix_ci_head (w a rest : jsstring) :
  wordlike w = true -> prefix_ci w a = Some rest -> is_word_at a = true.
Proof.
  unfold wordlike. destruct w as [|x w]; [discriminate|].
  intros H; apply andb_true_iff in H as [Hx _].
  cbn [prefix_ci]. destruct a as [|y a]; [discriminate|].
  destruct (chr_matches true x y) eqn:E; [|discriminate]. intros _.
  cbn [is_word_at]. apply letter_is_word. eapply chr_matches_letter; eauto.
Qed.

Lemma prefix_ci_last (w a rest b : jsstring) :
  wordlike w = true -> prefix_ci w a = Some rest ->
  is_word_at (eaten (List.length w) b a) = true.
Proof.
  unfold wordlike, eaten. intros H; apply andb_true_iff in H as [_ H].
  revert a H. induction w as [|x w IH] using rev_ind; [discriminate|].
  intros a H. rewrite rev_app_distr in H. cbn [rev app] in H.
  intros Hp.
  assert (G : forall u v a0 r0, prefix_ci (u ++ [v]) a0 = Some r0 ->
              exists y, firstn (List.length (u ++ [v])) a0 = firstn (List.length u) a0 ++ [y]
                        /\ chr_matches true v y = true).
  { clear. induction u as [|z u IHu]; intros v a0 r0; cbn [app prefix_ci List.length firstn].
    - destruct a0 as [|y a0]; [discriminate|].
      destruct (chr_matches true v y) eqn:E; [|discriminate]. intros _.
      exists y. split; [reflexivity | exact E].
    - destruct a0 as [|y a0]; [discriminate|].
      destruct (chr_matches true z y); [|discriminate]. intros Hp.
      destruct (IHu _ _ _ Hp) as (y' & E & M). exists y'.
      split; [|exact M]. cbn [app]. now rewrite E. }
  destruct (G _ _ _ _ Hp) as (y & E & M).
  rewrite E, rev_app_distr. cbn [rev app is_word_at].
  apply letter_is_word. eapply chr_matches_letter; eauto.
Qed.

(* ------------------------------------------------------------------ *)
(** *** Whole words *)

Lemma find_none {A : Type} (f : A -> bool) (l : list A) :
  Forall (fun x => f x = false) l -> List.find f l = None.
Proof.
  induction 1 as [|x l Hx _ IH]; cbn [List.find]; [reflexivity|].
  now rewrite Hx.
Qed.

Lemma find_same {A : Type} (f g : A -> bool) (l : list A) :
  Forall (fun x => f x = g x) l -> List.find f l = List.find g l.
Proof.
  induction 1 as [|x l Hx _ IH]; cbn [List.find]; [reflexivity|].
  now rewrite Hx, IH.
Qed.

Lemma existsb_find {A : Type} (f : A -> bool) (l : list A) :
  existsb f l = match List.find f l with Some _ => true | None => false end.
Proof.
  induction l as [|x l IH]; cbn [existsb List.find]; [reflexivity|].
  destruct (f x); [reflexivity | exact IH].
Qed.

Lemma m_word_end (w b a : jsstring) :
  wordlike w = true ->
  m true (Lit w) b a (fun b' a' => m true WordB b' a' accept)
  = word_end b a (if ends_word a w then Some w else None).
Proof.
  intros Hw. rewrite m_lit. unfold ends_word.
  destruct (prefix_ci w a) as [rest|] eqn:E; [|reflexivity].
  cbn [m]. rewrite (prefix_ci_last w a rest b Hw E). cbn [xorb].
  destruct (is_word_at rest); cbn [negb word_end]; [reflexivity|].
  unfold accept. now rewrite (prefix_ci_skipn w a rest E).
Qed.

Lemma m_alt (i : bool) (r1 r2 : regex) (b a : jsstring) (k : cont) :
  m i (Alt r1 r2) b a k
  = match m i r1 b a k with
    | Some s => Some s
    | None => m i r2 b a k
    end.
Proof. reflexivity. Qed.

Lemma m_seq (i : bool) (r1 r2 : regex) (b a : jsstring) (k : cont) :
  m i (r1 >> r2) b a k = m i r1 b a (fun b' a' => m i r2 b' a' k).
Proof. reflexivity. Qed.

Lemma m_one_of_words (w0 : jsstring) (ws : list jsstring) (b a : jsstring) :
  Forall (fun w => wordlike w = true) (w0 :: ws) ->
  m true (OneOf (Lit w0) (List.map Lit ws)) b a (fun b' a' => m true WordB b' a' accept)
  = word_end b a (List.find (ends_word a) (w0 :: ws)).
Proof.
  revert w0. induction ws as [|w1 ws IH]; intros w0 H; inversion_clear H as [|? ? Hw0 Hws].
  - cbn [List.map OneOf List.find]. rewrite (m_word_end w0 b a Hw0).
    now destruct (ends_word a w0).
  - cbn [List.map OneOf]. rewrite m_alt, (m_word_end w0 b a Hw0), (IH _ Hws).
    cbn [List.find]. now destruct (ends_word a w0).
Qed.

Lemma ends_word_head (a w : jsstring) :
  wordlike w = true -> ends_word a w = true -> is_word_at a = true.
Proof.
  unfold ends_word. intros Hw.
  destruct (prefix_ci w a) eqn:E; [|discriminate].
  intros _. eapply prefix_ci_head; eauto.
Qed.

(** One attempt of a word pattern: the first word of the list that stands
    as a whole word at the position. *)
Lemma word_pattern_match (w0 : jsstring) (ws : list jsstring) (b a : jsstring) :
  Forall (fun w => wordlike w = true) (w0 :: ws) ->
  match_at (word_pattern w0 ws) b a
  = word_end b a (List.find (word_at b a) (w0 :: ws)).
Proof.
  intros H. rewrite match_at_unfold. unfold word_pattern.
  cbn [source ignoreCase]. rewrite m_seq.
  change (m true WordB b a ?k)
    with (if xorb (is_word_at b) (is_word_at a) then k b a else None).
  cbv beta. rewrite m_seq.
  assert (Hnone : is_word_at a = false ->
                  Forall (fun w => ends_word a w = false) (w0 :: ws)).
  { intros Ha. eapply Forall_impl; [|exact H]. cbn beta. intros w Hw.
    destruct (ends_word a w) eqn:E; [|reflexivity].
    rewrite (ends_word_head _ _ Hw E) in Ha. discriminate. }
  assert (Hw : forall w, word_at b a w = negb (is_word_at b) && ends_word a w)
    by reflexivity.
  destruct (is_word_at b) eqn:Eb; destruct (is_word_at a) eqn:Ea; cbn [xorb].
  - rewrite find_none; [reflexivity|].
    apply Forall_forall. intros w _. rewrite Hw. reflexivity.
  - rewrite (m_one_of_words w0 ws b a H), (find_none _ _ (Hnone eq_refl)).
    rewrite find_none; [reflexivity|].
    apply Forall_forall. intros w _. rewrite Hw. reflexivity.
  - rewrite (m_one_of_words w0 ws b a H). f_equal. apply find_same.
    apply Forall_forall. intros w _. rewrite Hw. reflexivity.
  - rewrite find_none; [reflexivity|].
    eapply Forall_impl; [|exact (Hnone eq_refl)]. cbn beta.
    intros w E. rewrite Hw, E. apply andb_false_r.
Qed.

Section Words.

Variables (w0 : jsstring) (ws : list jsstring).
Hypothesis words_ok : Forall (fun w => wordlike w = true) (w0 :: ws).

(** [test]: some word of the list stands as a whole word in the text. *)
Lemma word_pattern_exec (b a : jsstring) :
  match exec_from (word_pattern w0 ws) b a with
  | Some _ => true
  | None => false
  end = occurs_from (w0 :: ws) b a.
Proof.
  revert b. induction a as [|c a IH]; intros b;
    cbn [exec_from occurs_from]; rewrite (word_pattern_match w0 ws _ _ words_ok),
    existsb_find; destruct (List.find (word_at b _) (w0 :: ws));
    cbn [word_end orb]; try reflexivity.
  apply IH.
Qed.

Lemma word_pattern_test (s : jsstring) :
  test (word_pattern w0 ws) s = occurs_from (w0 :: ws) [] s.
Proof. unfold test, exec. apply word_pattern_exec. Qed.

Lemma wordlike_length (w : jsstring) :
  wordlike w = true -> exists n, List.length w = S n.
Proof. destruct w; [discriminate | simpl; eauto]. Qed.

Lemma word_at_length (b a w : jsstring) :
  word_at b a w = true -> (List.length w <= List.length a)%nat.
Proof.
  unfold word_at. intros H; apply andb_true_iff in H as [_ H].
  destruct (prefix_ci w a) as [rest|] eqn:E; [|discriminate].
  destruct (prefix_ci_length w a rest E) as [_ L]. rewrite <- L.
  rewrite length_firstn. lia.
Qed.

(** [split(...)[0]]: the text before the first whole-word occurrence. *)
Lemma word_pattern_split_from (b a seg : jsstring) :
  index0 (split_from (word_pattern w0 ws) b a seg 0)
  = Some (rev seg ++ before_word (w0 :: ws) b a).
Proof.
  revert b seg. induction a as [|c a IH]; intros b seg;
    cbn [split_from before_word].
  - rewrite existsb_find.
    destruct (List.find (word_at b []) (w0 :: ws)) as [w|] eqn:E.
    + apply find_some in E as [Hin E]. apply word_at_length in E.
      rewrite Forall_forall in words_ok.
      destruct (wordlike_length _ (words_ok _ Hin)) as [n Hn].
      rewrite Hn in E. simpl in E. lia.
    + now rewrite app_nil_r.
  - rewrite (word_pattern_match w0 ws _ _ words_ok), existsb_find.
    destruct (List.find (word_at b (c :: a)) (w0 :: ws)) as [w|] eqn:E;
      cbn [word_end].
    + apply find_some in E as [Hin E]. apply word_at_length in E.
      rewrite Forall_forall in words_ok.
      destruct (wordlike_length _ (words_ok _ Hin)) as [n Hn].
      unfold match_length, eaten. cbn [fst].
      rewrite length_app, length_rev, length_firstn, Nat.min_l by exact E.
      rewrite Hn. replace (S n + List.length b - List.length b)%nat with (S n) by lia.
      cbn [index0 hd_error]. now rewrite app_nil_r.
    + rewrite IH. cbn [rev]. now rewrite <- app_assoc.
Qed.

Lemma word_pattern_split (s : jsstring) :
  index0 (split (word_pattern w0 ws) s) = Some (before_word (w0 :: ws) [] s).
Proof.
  unfold split. destruct s as [|c s].
  - rewrite (word_pattern_match w0 ws _ _ words_ok).
    cbn [before_word]. rewrite existsb_find.
    destruct (List.find (word_at [] []) (w0 :: ws)) as [w|] eqn:E;
      [|reflexivity].
    apply find_some in E as [Hin E]. apply word_at_length in E.
    rewrite Forall_forall in words_ok.
    destruct (wordlike_length _ (words_ok _ Hin)) as [n Hn].
    rewrite Hn in E. simpl in E. lia.
  - apply (word_pattern_split_from [] (c :: s) []).
Qed.

End Words.

Lemma question_words_ok :
  Forall (fun w => wordlike w = true) (List.map js question_words).
Proof. repeat constructor. Qed.

Lemma connectors_ok :
  Forall (fun w => wordlike w = true) (List.map js connectors).
Proof. repeat constructor. Qed.

Lemma questionWordRegex_words :
  questionWordRegex = word_pattern (js "what") (List.map js (tl question_words)).
Proof. reflexivity. Qed.

Lemma re_connector_words :
  re_connector = word_pattern (js "Also") (List.map js (tl connectors)).
Proof. reflexivity. Qed.

(** [questionWordRegex.test(l)] says that a question word stands as a
    whole word in [l]. *)
Lemma question_word_test (l : jsstring) :
  test questionWordRegex l = has_question_word l.
Proof.
  rewrite questionWordRegex_words.
  apply (word_pattern_test _ _ question_words_ok).
Qed.

Lemma connector_split (s : jsstring) :
  index0 (split re_connector s) = Some (before_word (List.map js connectors) [] s).
Proof.
  rewrite re_connector_words.
  apply (word_pattern_split _ _ connectors_ok).
Qed.

(* ------------------------------------------------------------------ *)
(** *** The brace pattern *)

Lemma any_char_true (c : char) : any_char c = true.
Proof. unfold any_char. apply orb_negb_r. Qed.

Lemma star_any_rbrace (b a : jsstring) :
  star_cls any_char b a to_rbrace
  = match through_last c_rbrace a with
    | Some p => Some (rev p ++ b, skipn (List.length p) a)
    | None => None
    end.
Proof.
  revert b. induction a as [|c a IH]; intros b; cbn [star_cls through_last].
  - reflexivity.
  - rewrite any_char_true, IH.
    destruct (through_last c_rbrace a) as [p|].
    + cbn [rev List.length skipn]. now rewrite <- app_assoc.
    + unfold to_rbrace. cbn [m chr_matches]. rewrite (N.eqb_sym c_rbrace c).
      destruct (c =? c_rbrace); reflexivity.
Qed.

Lemma braces_match_at (b a : jsstring) :
  match_at re_braces b a
  = match a with
    | x :: r =>
        if x =? c_lbrace then
          match through_last c_rbrace r with
          | Some p => Some (rev p ++ x :: b, skipn (List.length p) r)
          | None => None
          end
        else None
    | [] => None
    end.
Proof.
  rewrite match_at_unfold. unfold re_braces. cbn [source ignoreCase].
  rewrite m_seq. cbn [m]. destruct a as [|x r]; [reflexivity|].
  cbn [chr_matches]. rewrite (N.eqb_sym c_lbrace x).
  destruct (x =? c_lbrace); [|reflexivity].
  apply (star_any_rbrace (x :: b) r).
Qed.

Lemma through_last_tail (c x : char) (r : jsstring) :
  through_last c (x :: r) = None -> through_last c r = None.
Proof. cbn [through_last]. now destruct (through_last c r). Qed.

Lemma braces_exec_none (b a : jsstring) :
  through_last c_rbrace a = None -> exec_from re_braces b a = None.
Proof.
  revert b. induction a as [|x r IH]; intros b H; cbn [exec_from];
    rewrite braces_match_at; [reflexivity|].
  apply through_last_tail in H. rewrite H.
  destruct (x =? c_lbrace); now apply IH.
Qed.

Lemma braces_exec (b a : jsstring) :
  matched_text (exec_from re_braces b a) = greedy_braces a.
Proof.
  unfold greedy_braces. revert b.
  induction a as [|x r IH]; intros b; cbn [exec_from drop_while];
    rewrite braces_match_at; [reflexivity|].
  destruct (x =? c_lbrace) eqn:E; cbn [negb]; [|apply IH].
  destruct (through_last c_rbrace r) as [p|] eqn:T; cbn [option_map].
  - unfold matched_text, match_length. cbn [fst].
    replace (List.length (rev p ++ x :: b) - List.length b)%nat
      with (List.length (rev p ++ [x])).
    + replace (rev p ++ x :: b) with ((rev p ++ [x]) ++ b)
        by (now rewrite <- app_assoc).
      rewrite firstn_app, Nat.sub_diag, firstn_all. cbn [firstn].
      rewrite app_nil_r, rev_app_distr, rev_involutive. reflexivity.
    + rewrite !length_app. cbn [List.length]. lia.
  - now rewrite braces_exec_none.
Qed.

(** [raw.match(/\{[\s\S]*\}/)[0]] is the text from the first opening brace
    through the last closing brace. *)
Lemma braces_match0 (s : jsstring) : match0 re_braces s = greedy_braces s.
Proof.
  rewrite <- (braces_exec [] s). unfold match0, exec, matched_text.
  now destruct (exec_from re_braces [] s) as [[b e]|].
Qed.

Lemma through_last_app (c : char) (r t : jsstring) :
  includes c t = false -> through_last c (r ++ t) = through_last c r.
Proof.
  intros Ht. induction r as [|x r IH]; cbn [app through_last].
  - induction t as [|y t IHt]; [reflexivity|].
    cbn [through_last]. unfold includes in Ht. cbn [existsb] in Ht.
    apply orb_false_iff in Ht as [Hy Ht]. rewrite (IHt Ht).
    now rewrite N.eqb_sym, Hy.
  - now rewrite IH.
Qed.

Lemma spaces_exclude (c : char) (t : jsstring) :
  is_space c = false -> forallb is_space t = true -> includes c t = false.
Proof.
  intros Hc. unfold includes. induction t as [|y t IH]; cbn [forallb existsb];
    [reflexivity|].
  intros H; apply andb_true_iff in H as [Hy Ht]. rewrite (IH Ht), orb_false_r.
  destruct (c =? y) eqn:E; [|reflexivity].
  apply N.eqb_eq in E. subst y. congruence.
Qed.

Lemma drop_spaces_not_lbrace (s : jsstring) :
  drop_while not_lbrace (drop_while is_space s) = drop_while not_lbrace s.
Proof.
  induction s as [|c s IH]; [reflexivity|]. cbn [drop_while].
  destruct (is_space c) eqn:E; [|reflexivity]. rewrite IH.
  assert (H : not_lbrace c = true).
  { unfold not_lbrace. destruct (c =? c_lbrace) eqn:B; [|reflexivity].
    apply N.eqb_eq in B. subst c. discriminate. }
  now rewrite H.
Qed.

Lemma spaces_not_lbrace (t : jsstring) :
  forallb is_space t = true -> forallb not_lbrace t = true.
Proof.
  induction t as [|y t IH]; cbn [forallb]; [reflexivity|].
  intros H; apply andb_true_iff in H as [Hy Ht]. rewrite (IH Ht), andb_true_r.
  unfold not_lbrace. destruct (y =? c_lbrace) eqn:B; [|reflexivity].
  apply N.eqb_eq in B. subst y. discriminate.
Qed.

Lemma drop_while_app_stop (p : char -> bool) (v t : jsstring) (x : char) (r : jsstring) :
  drop_while p v = x :: r -> drop_while p (v ++ t) = x :: r ++ t.
Proof.
  induction v as [|c v IH]; cbn [drop_while app]; [discriminate|].
  destruct (p c); [exact IH|]. intros H; now injection H as -> ->.
Qed.

Lemma drop_while_nil_all (p : char -> bool) (v : jsstring) :
  drop_while p v = [] -> forallb p v = true.
Proof.
  induction v as [|c v IH]; cbn [drop_while forallb]; [reflexivity|].
  destruct (p c); [exact IH | discriminate].
Qed.

Lemma greedy_braces_app_spaces (v t : jsstring) :
  forallb is_space t = true -> greedy_braces (v ++ t) = greedy_braces v.
Proof.
  intros Ht. unfold greedy_braces. fold not_lbrace.
  destruct (drop_while not_lbrace v) as [|x r] eqn:E.
  - rewrite (drop_while_app_all not_lbrace v t (drop_while_nil_all _ _ E)).
    now rewrite (drop_while_all not_lbrace t (spaces_not_lbrace t Ht)).
  - rewrite (drop_while_app_stop _ _ t _ _ E).
    rewrite through_last_app; [reflexivity|].
    now apply spaces_exclude.
Qed.

(** Trimming does not move the braces. *)
Lemma greedy_braces_trim (s : jsstring) :
  greedy_braces (trim s) = greedy_braces s.
Proof.
  unfold trim. destruct (trimEnd_split (trimStart s)) as (t & E & Ht).
  rewrite <- (greedy_braces_app_spaces (trimEnd (trimStart s)) t Ht), <- E.
  unfold greedy_braces, trimStart. fold not_lbrace.
  now rewrite drop_spaces_not_lbrace.
Qed.

(* ------------------------------------------------------------------ *)
(** *** Numbered items *)

Lemma digit_not_dot_or_rparen (c : char) :
  is_digit c = true -> dot_or_rparen c = false.
Proof.
  unfold is_digit, dot_or_rparen, c_dot, c_rparen. intros H.
  apply andb_true_iff in H as [H1 H2]. apply N.leb_le in H1.
  apply orb_false_iff; split; apply N.eqb_neq; lia.
Qed.

(** [l.replace(/^[\d]+[\.\)]\s*/, '')] *)
Lemma item_number_replace (s : jsstring) :
  replace re_item_number [] s = strip_item_number s.
Proof.
  unfold re_item_number. rewrite replace_anchored. unfold strip_item_number, Plus.
  rewrite !m_seq. destruct s as [|d a]; [reflexivity|].
  cbn [m take_while drop_while].
  destruct (is_digit d) eqn:Ed; [|reflexivity].
  rewrite star_cls_max.
  - destruct (drop_while is_digit a) as [|c r]; [reflexivity|].
    destruct (dot_or_rparen c); [|reflexivity].
    now rewrite star_cls_accept.
  - intros b' c a' Hc. now rewrite (digit_not_dot_or_rparen c Hc).
Qed.

Lemma rparen_tail (b a : jsstring) :
  exists b2,
    m false (Opt (Chr c_rparen) >> Star is_space) b a accept
    = Some (b2, drop_while is_space (drop_one (N.eqb c_rparen) a)).
Proof.
  rewrite m_seq. unfold Opt. rewrite m_alt. cbn [m].
  destruct a as [|x a']; cbn [drop_one].
  - rewrite star_cls_accept. eauto.
  - cbn [chr_matches]. destruct (c_rparen =? x); rewrite star_cls_accept; eauto.
Qed.

Lemma numbering_tail (b a : jsstring) :
  exists b2,
    m false (Opt (Cls dot_only) >> Opt (Chr c_rparen) >> Star is_space) b a accept
    = Some (b2, drop_while is_space
                  (drop_one (N.eqb c_rparen) (drop_one dot_only a))).
Proof.
  rewrite m_seq. unfold Opt at 1. rewrite m_alt.
  change (m false Eps b a ?k) with (k b a). cbv beta.
  destruct a as [|x a']; cbn [drop_one].
  - change (m false (Cls dot_only) b [] ?k) with (@None mstate).
    apply rparen_tail.
  - change (m false (Cls dot_only) b (x :: a') ?k)
      with (if dot_only x then k (x :: b) a' else None). cbv beta.
    destruct (dot_only x).
    + destruct (rparen_tail (x :: b) a') as [b2 E]. rewrite E. eauto.
    + apply rparen_tail.
Qed.

(** [candidate.replace(/^[\d]+[\.]?\)?\s*/, '')] *)
Lemma numbering_replace (s : jsstring) :
  replace re_numbering [] s = strip_numbering s.
Proof.
  unfold re_numbering. rewrite replace_anchored. unfold strip_numbering, Plus.
  rewrite m_seq, m_seq. destruct s as [|d a]; [reflexivity|].
  change (m false (Cls is_digit) [] (d :: a) ?k)
    with (if is_digit d then k [d] a else None). cbv beta.
  cbn [take_while drop_while].
  destruct (is_digit d) eqn:Ed; [|reflexivity].
  change (m false (Star is_digit) [d] a ?k) with (star_cls is_digit [d] a k).
  destruct (numbering_tail (rev (take_while is_digit a) ++ [d])
              (drop_while is_digit a)) as [b2 E].
  now rewrite (star_cls_first is_digit [d] a _ _ E).
Qed.

(* ------------------------------------------------------------------ *)
(** *** Labels *)

Lemma label_replace (sep : char -> bool) (s : jsstring) :
  replace (label_pattern sep) [] s = strip_label sep s.
Proof.
  unfold label_pattern. rewrite replace_anchored. unfold strip_label.
  rewrite m_seq. cbn [OneOf]. rewrite !m_alt, !m_lit.
  destruct (prefix_ci (js "Question") s) as [r|].
  { cbn [m]. now rewrite star_cls_accept. }
  destruct (prefix_ci (js "Q") s) as [r|].
  { cbn [m]. now rewrite star_cls_accept. }
  destruct (prefix_ci (js "Ask") s) as [r|]; [|reflexivity].
  cbn [m]. now rewrite star_cls_accept.
Qed.

(** [candidate.replace(/^(Question|Q|Ask)[:\s-]*/i, '')] *)
Lemma label_dash_replace (s : jsstring) :
  replace re_label_dash [] s = strip_label colon_space_dash s.
Proof. apply (label_replace colon_space_dash). Qed.

(* ------------------------------------------------------------------ *)
(** *** Runs of white space *)

Lemma spaces_match_at (b a : jsstring) :
  match_at re_spaces b a
  = match a with
    | c :: a' =>
        if is_space c
        then Some (rev (take_while is_space a') ++ c :: b, drop_while is_space a')
        else None
    | [] => None
    end.
Proof.
  rewrite match_at_unfold. unfold re_spaces, Plus. cbn [source ignoreCase].
  rewrite m_seq. cbn [m]. destruct a as [|c a']; [reflexivity|].
  destruct (is_space c); [|reflexivity]. apply star_cls_accept.
Qed.

Lemma replace_all_skip (re : pattern) (repl : jsstring) (n : nat) :
  forall b a, (n <= List.length a)%nat ->
  exists b', replace_all_from re repl b a n = replace_all_from re repl b' (skipn n a) 0.
Proof.
  induction n as [|n IH]; intros b a Hn.
  - exists b. reflexivity.
  - destruct a as [|c a]; [simpl in Hn; lia|].
    cbn [replace_all_from skipn]. apply IH. simpl in Hn. lia.
Qed.

Lemma collapse_spaces_run (c : char) (a : jsstring) :
  is_space c = true ->
  collapse_spaces (c :: a) = 32 :: collapse_spaces (drop_while is_space a).
Proof.
  revert c. induction a as [|x a IH]; intros c Hc.
  - cbn [collapse_spaces drop_while]. now rewrite Hc.
  - cbn [drop_while]. destruct (is_space x) eqn:Ex.
    + rewrite <- (IH x Ex). cbn [collapse_spaces]. now rewrite Hc, Ex.
    + cbn [collapse_spaces]. now rewrite Hc, Ex.
Qed.

Lemma take_while_length (p : char -> bool) (a : jsstring) :
  (List.length (take_while p a) <= List.length a)%nat.
Proof.
  induction a as [|c a IH]; cbn [take_while]; [lia|].
  destruct (p c); simpl; lia.
Qed.

Lemma spaces_replace_from (a : jsstring) :
  forall b, replace_all_from re_spaces [32] b a 0 = collapse_spaces a.
Proof.
  remember (List.length a) as n eqn:Hn. revert a Hn.
  induction n as [n IH] using lt_wf_ind. intros a -> b.
  destruct a as [|c a]; cbn [replace_all_from]; rewrite spaces_match_at.
  - reflexivity.
  - destruct (is_space c) eqn:Ec.
    + unfold match_length. cbn [fst].
      rewrite length_app, length_rev. cbn [List.length].
      replace (List.length (take_while is_space a) + S (List.length b)
               - List.length b)%nat
        with (S (List.length (take_while is_space a))) by lia.
      destruct (replace_all_skip re_spaces [32] (List.length (take_while is_space a))
                  (c :: b) a (take_while_length is_space a)) as [b' E].
      rewrite E, skipn_take_while, (collapse_spaces_run c a Ec).
      cbn [app]. f_equal.
      apply IH with (m := List.length (drop_while is_space a)); [|reflexivity].
      pose proof (drop_while_length is_space a). simpl. lia.
    + cbn [collapse_spaces]. rewrite Ec. f_equal.
      apply IH with (m := List.length a); [simpl; lia | reflexivity].
Qed.

(** [text.replace(/\s+/g, ' ')] *)
Lemma spaces_replace_all (s : jsstring) :
  replace_all re_spaces (js " ") s = collapse_spaces s.
Proof. apply spaces_replace_from. Qed.

(* ------------------------------------------------------------------ *)
(** *** The end of a sentence *)

Lemma sentence_end_exec (b a : jsstring) :
  match exec_from re_sentence_end b a with
  | Some (b0, _) =>
      exists pre, b0 = rev pre ++ b
                  /\ through_first dot_or_bang a = firstn (List.length pre + 1) a
  | None => through_first dot_or_bang a = a
  end.
Proof.
  revert b. induction a as [|c a IH]; intros b; cbn [exec_from];
    rewrite match_at_unfold; cbn [re_sentence_end source ignoreCase m].
  - reflexivity.
  - cbn [through_first]. destruct (dot_or_bang c).
    + exists []. split; reflexivity.
    + specialize (IH (c :: b)).
      destruct (exec_from re_sentence_end (c :: b) a) as [[b0 e]|].
      * destruct IH as (pre & -> & E). exists (c :: pre). split.
        -- cbn [rev]. now rewrite <- app_assoc.
        -- cbn [List.length Nat.add firstn]. now rewrite E.
      * now rewrite IH.
Qed.

(** [candidate.slice(0, candidate.search(/[.!]/) + 1)] *)
Lemma sentence_end_search (s : jsstring) :
  match search re_sentence_end s with
  | Some i => firstn (i + 1) s
  | None => s
  end = through_first dot_or_bang s.
Proof.
  unfold search, exec. pose proof (sentence_end_exec [] s) as H.
  destruct (exec_from re_sentence_end [] s) as [[b0 e]|]; [|now rewrite H].
  destruct H as (pre & -> & E).
  now rewrite app_nil_r, length_rev, E.
Qed.

(* ================================================================== *)
(** ** The two programs, step by step *)
(* ================================================================== *)

(** The cut at the first question mark never reads past the array that
    [split] returns. *)
Lemma first_question_returns (c : jsstring) :
  first_question c
  = Returned (if includes c_qmark c then cut_at_qmark c else c).
Proof.
  unfold first_question, cut_at_qmark.
  destruct (includes c_qmark c); [|reflexivity].
  now rewrite split_char_first.
Qed.

Lemma fallback_question_returns (raw : jsstring) :
  fallback_question (trim raw)
  = Returned (with_question_mark
                (if includes c_qmark (candidate_of raw)
                 then cut_at_qmark (candidate_of raw)
                 else candidate_of raw)).
Proof.
  unfold fallback_question. fold (candidate_of raw).
  now rewrite first_question_returns.
Qed.

Lemma parse_json_block_cases (raw : jsstring) :
  (exists q, parse_json_block raw = Returned q)
  \/ parse_json_block raw = Threw SyntaxError.
Proof.
  unfold parse_json_block.
  destruct (match0 re_braces raw) as [jm|]; [|left; eauto].
  destruct (JSON_parse_total jm) as [[v ->]| ->]; [|right; reflexivity].
  left. cbn [bind]. destruct (question_of v) as [q|]; [|eauto].
  destruct (0 <? List.length (trim q))%nat; eauto.
Qed.

Lemma structured_path_returns (raw : jsstring) :
  exists r, structured_path raw = Returned r.
Proof.
  unfold structured_path.
  destruct (parse_json_block_cases (trim raw)) as [[q ->]| ->];
    cbn [try_catch]; eauto.
Qed.

(** A question found on the structured path is a trimmed, non-empty
    string field. *)
Lemma parse_json_block_some (raw q : jsstring) :
  parse_json_block raw = Returned (Some q) ->
  exists question, q = trim question /\ q <> [].
Proof.
  unfold parse_json_block.
  destruct (match0 re_braces raw) as [jm|]; [|discriminate].
  destruct (JSON_parse jm) as [v| |]; cbn [bind]; try discriminate.
  destruct (question_of v) as [question|]; [|discriminate].
  destruct (0 <? List.length (trim question))%nat eqn:L; [|discriminate].
  intros H; injection H as <-. exists question. split; [reflexivity|].
  apply Nat.ltb_lt in L. destruct (trim question); [simpl in L; lia | discriminate].
Qed.

Lemma structured_path_some (raw q : jsstring) :
  structured_path raw = Returned (Some q) ->
  parse_json_block (trim raw) = Returned (Some q).
Proof.
  unfold structured_path.
  destruct (parse_json_block (trim raw)) as [r|e|]; cbn [try_catch];
    congruence.
Qed.

Lemma or_empty_str (raw : jsstring) : or_empty (Str raw) = raw.
Proof. now destruct raw. Qed.

(** [parseModelQuestion] is its structured path, then its fallback. *)
Lemma parseModelQuestion_unfold (raw : jsstring) :
  parseModelQuestion raw
  = (early <- structured_path raw ;;
     match early with
     | Some question => Returned (Some question)
     | None =>
         Returned (finish (if includes c_qmark (candidate_of raw)
                           then cut_at_qmark (candidate_of raw)
                           else candidate_of raw))
     end).
Proof.
  unfold parseModelQuestion, parseModelQuestion_arg.
  rewrite or_empty_str. fold (structured_path raw).
  destruct (structured_path raw) as [[q|]| |]; cbn [bind]; try reflexivity.
  rewrite fallback_question_returns. cbn [bind]. unfold finish.
  now destruct (_ || _).
Qed.

Lemma parseModelQuestion_structured (raw q : jsstring) :
  structured_path raw = Returned (Some q) ->
  parseModelQuestion raw = Returned (Some q).
Proof. intros H. now rewrite parseModelQuestion_unfold, H. Qed.

Lemma parseModelQuestion_fallback (raw : jsstring) :
  structured_path raw = Returned None ->
  parseModelQuestion raw
  = Returned (finish (if includes c_qmark (candidate_of raw)
                      then cut_at_qmark (candidate_of raw)
                      else candidate_of raw)).
Proof. intros H. now rewrite parseModelQuestion_unfold, H. Qed.

(** The structured path of a reply whose braces hold an object with a
    non-empty string field [question]. *)
Lemma parse_json_block_found (raw sub q : jsstring) (ms : list (jsstring * json)) :
  greedy_braces raw = Some sub ->
  JSON_parse sub = Returned (JObject ms) ->
  get_member (js "question") ms = Some (JString q) ->
  truthy (trim q) = true ->
  parse_json_block (trim raw) = Returned (Some (trim q)).
Proof.
  intros Hb Hp Hm Hq. unfold parse_json_block.
  rewrite braces_match0, greedy_braces_trim, Hb, Hp. cbn [bind question_of].
  rewrite Hm. destruct (trim q); [discriminate | reflexivity].
Qed.

Lemma Returned_inj {A : Type} (x y : A) : Returned x = Returned y -> x = y.
Proof. intros H; now injection H. Qed.

Lemma or_else_some (raw : jsstring) : or_else (Some raw) [] = raw.
Proof. now destruct raw. Qed.

(* ------------------------------------------------------------------ *)
(** *** The shape of a question of the fallback *)

Lemma trim_nil_spaces (s : jsstring) : trim s = [] -> forallb is_space s = true.
Proof.
  unfold trim. intros H. apply trimEnd_nil_all in H.
  unfold trimStart in H. apply drop_while_nil_all.
  destruct (drop_while is_space s) as [|c r] eqn:E; [reflexivity|].
  apply drop_while_head in E. cbn [forallb] in H.
  apply andb_true_iff in H as [H _]. congruence.
Qed.

Lemma candidate_trimmed (raw : jsstring) : trimmed (candidate_of raw) = true.
Proof. apply trimmed_trim. Qed.

Lemma endsWith_includes (c : char) (s : jsstring) :
  endsWith c s = true -> includes c s = true.
Proof.
  unfold endsWith, includes. intros H.
  destruct (rev s) as [|x r] eqn:E; [discriminate|].
  apply N.eqb_eq in H. subst x.
  apply existsb_exists. exists c. split; [|apply N.eqb_refl].
  assert (Hin : In c (rev s)) by (rewrite E; now left).
  now apply in_rev in Hin.
Qed.

(** A trimmed line with a question mark and only blanks before it begins
    with the question mark. *)
Lemma blank_before_qmark (c : jsstring) :
  trimmed c = true -> includes c_qmark c = true ->
  trim (before_first is_qmark c) = [] -> hd_error c = Some c_qmark.
Proof.
  intros Ht Hi Hb. destruct c as [|x r]; [discriminate|].
  unfold before_first, is_qmark in Hb. cbn [take_while] in Hb.
  destruct (x =? c_qmark) eqn:E.
  - apply N.eqb_eq in E. now subst x.
  - cbn [negb] in Hb. apply trim_nil_spaces in Hb. cbn [forallb] in Hb.
    apply andb_true_iff in Hb as [Hx _].
    unfold trimmed in Ht. apply andb_true_iff in Ht as [Ht _].
    cbn [starts_clean] in Ht. rewrite Hx in Ht. discriminate.
Qed.

Lemma str_eqb_snoc (f : jsstring) (c : char) :
  f <> [] -> str_eqb (f ++ [c]) [c] = false.
Proof.
  destruct f as [|x [|y f]]; [congruence| |]; intros _; cbn [app str_eqb];
    now rewrite andb_false_r.
Qed.

Lemma truthy_nonempty (s : jsstring) : truthy s = true <-> s <> [].
Proof. destruct s; cbn; split; congruence. Qed.

Lemma finish_snoc (f : jsstring) :
  f <> [] -> finish (f ++ [c_qmark]) = Some (f ++ [c_qmark]).
Proof.
  intros Hf. unfold finish, with_question_mark.
  rewrite endsWith_snoc.
  assert (T : truthy (f ++ [c_qmark]) = true) by (now destruct f).
  rewrite T. cbn [negb orb]. rewrite T. cbn [negb orb].
  now rewrite (str_eqb_snoc f c_qmark Hf).
Qed.

Lemma finish_open (c : jsstring) :
  c <> [] -> endsWith c_qmark c = false -> finish c = Some (c ++ [c_qmark]).
Proof.
  intros Hc He. unfold finish, with_question_mark.
  apply truthy_nonempty in Hc as T. rewrite T, He.
  assert (T' : truthy (c ++ [c_qmark]) = true) by (now destruct c).
  cbv zeta. rewrite T'. cbn [negb orb].
  now rewrite (str_eqb_snoc c c_qmark Hc).
Qed.

Lemma finish_some (c q : jsstring) :
  finish c = Some q ->
  c <> []
  /\ ((endsWith c_qmark c = true /\ q = c)
      \/ (endsWith c_qmark c = false /\ q = c ++ [c_qmark])).
Proof.
  unfold finish, with_question_mark.
  destruct c as [|x r]; [discriminate|]. cbn [truthy].
  destruct (endsWith c_qmark (x :: r)) eqn:E.
  - destruct (_ || _); [discriminate|]. intros H; injection H as <-.
    split; [discriminate | now left].
  - destruct (_ || _); [discriminate|]. intros H; injection H as <-.
    split; [discriminate | now right].
Qed.

Lemma hd_error_app (s t : jsstring) :
  s <> [] -> hd_error (s ++ t) = hd_error s.
Proof. destruct s; [congruence | reflexivity]. Qed.

(* ------------------------------------------------------------------ *)
(** *** The choice of the line *)

Lemma has_question_word_nil : has_question_word [] = false.
Proof. reflexivity. Qed.

Lemma lines_trimmed (text : jsstring) :
  Forall (fun l => l <> [] /\ trim l = l) (lines_of text).
Proof.
  unfold lines_of. apply Forall_forall. intros l H.
  apply filter_In in H as [H T]. apply in_map_iff in H as (x & <- & _).
  split; [now apply truthy_nonempty | apply trim_idem].
Qed.

Lemma longer_than_five_truthy (l : jsstring) :
  truthy l && (5 <? List.length l)%nat = (5 <? List.length l)%nat.
Proof. now destruct l. Qed.

Lemma numbered_find (lines : list jsstring) :
  find (fun l => truthy l && (5 <? List.length l)%nat)
       (List.map (replace re_item_number []) lines)
  = List.find (fun l => (5 <? List.length l)%nat)
              (List.map strip_item_number lines).
Proof.
  unfold find.
  rewrite (map_ext _ _ item_number_replace).
  apply find_same, Forall_forall. intros l _. apply longer_than_five_truthy.
Qed.

(** [keepOnlyFirstQuestion], pattern by pattern, is [keep_first_question]. *)
Lemma keepOnlyFirstQuestion_returns (text : jsstring) :
  keepOnlyFirstQuestion text = Returned (keep_first_question text).
Proof.
  unfold keepOnlyFirstQuestion. destruct text as [|c text]; [reflexivity|].
  cbn [truthy negb]. unfold keep_first_question.
  rewrite spaces_replace_all, numbering_replace, label_dash_replace,
    connector_split.
  cbn [call_trim bind].
  set (cand := trim (before_word _ _ _)).
  destruct (includes c_qmark cand).
  - rewrite split_char_first. reflexivity.
  - pose proof (sentence_end_search cand) as H.
    destruct (search re_sentence_end cand); rewrite <- H; [reflexivity|].
    subst cand. now rewrite trim_idem.
Qed.


(* ------------------------------------------------------------------ *)
(** *** A clean question, through both copies *)

Lemma str_eqb_eq (x y : jsstring) : str_eqb x y = true -> x = y.
Proof.
  revert y. induction x as [|a x IH]; intros [|b y]; cbn [str_eqb];
    try discriminate; [reflexivity|].
  intros H; apply andb_true_iff in H as [E H].
  apply N.eqb_eq in E. subst b. now rewrite (IH y H).
Qed.

(** A JSON text whose value is an object begins with a brace. *)
Lemma parse_elements_array (fuel : nat) :
  forall s acc v r, parse_elements fuel s acc = Parsed v r ->
                    exists l, v = JArray l.
Proof.
  induction fuel as [|f IH]; intros s acc v r; cbn [parse_elements];
    [discriminate|].
  destruct (parse_value f s) as [v1 r1| |]; try discriminate.
  destruct (skip_ws r1) as [|x r']; [discriminate|].
  destruct (x =? c_comma); [apply IH|].
  destruct (x =? c_rbrack); [|discriminate].
  intros H; injection H as <- _. eauto.
Qed.

Lemma parse_value_object (fuel : nat) (s r : jsstring) (ms : list (jsstring * json)) :
  parse_value fuel s = Parsed (JObject ms) r -> exists t, s = c_lbrace :: t.
Proof.
  destruct fuel as [|f]; cbn [parse_value]; [discriminate|].
  destruct s as [|c r0]; [discriminate|].
  destruct (c =? c_lbrace) eqn:E.
  { apply N.eqb_eq in E. subst c. eauto. }
  destruct (c =? c_lbrack).
  { destruct (skip_ws r0) as [|x r']; [discriminate|].
    destruct (x =? c_rbrack); [discriminate|].
    intros H. apply parse_elements_array in H as [l H]. discriminate. }
  destruct (c =? c_dquote).
  { destruct (string_chars r0 []) as [[str r']|]; discriminate. }
  destruct (strip_prefix (js "true") (c :: r0)); [discriminate|].
  destruct (strip_prefix (js "false") (c :: r0)); [discriminate|].
  destruct (strip_prefix (js "null") (c :: r0)); [discriminate|].
  destruct (number_lexeme (c :: r0)) as [[lx r']|]; discriminate.
Qed.

Lemma JSON_parse_object (text : jsstring) (ms : list (jsstring * json)) :
  JSON_parse text = Returned (JObject ms) -> exists t, skip_ws text = c_lbrace :: t.
Proof.
  unfold JSON_parse.
  destruct (parse_value (parse_fuel (skip_ws text)) (skip_ws text))
    as [v r| |] eqn:E; try discriminate.
  destruct (skip_ws r); [|discriminate].
  intros H. apply Returned_inj in H. subst v.
  eapply parse_value_object; eauto.
Qed.

Lemma json_ws_is_space (c : char) : is_json_ws c = true -> is_space c = true.
Proof.
  unfold is_json_ws. intros H.
  repeat (apply orb_true_iff in H as [H|H]); apply N.eqb_eq in H; now subst c.
Qed.

Lemma plain_no_line_feed (w : jsstring) :
  forallb plain_char w = true -> includes 10 w = false.
Proof.
  unfold includes. induction w as [|x r IH]; [reflexivity|].
  cbn [forallb existsb]. intros H; apply andb_true_iff in H as [Hx Hr].
  rewrite (IH Hr), orb_false_r.
  unfold plain_char in Hx. apply andb_true_iff in Hx as [_ Hx].
  apply negb_true_iff in Hx. now rewrite N.eqb_sym.
Qed.

Lemma plain_no_qmark (w : jsstring) :
  forallb plain_char w = true -> includes c_qmark w = false.
Proof.
  unfold includes. induction w as [|x r IH]; [reflexivity|].
  cbn [forallb existsb]. intros H; apply andb_true_iff in H as [Hx Hr].
  rewrite (IH Hr), orb_false_r.
  unfold plain_char in Hx. apply andb_true_iff in Hx as [Hx _].
  apply andb_true_iff in Hx as [Hx _].
  apply negb_true_iff in Hx. now rewrite N.eqb_sym.
Qed.

Lemma newline_no_match (b a : jsstring) :
  includes 10 a = false -> match_at re_newline b a = None.
Proof.
  intros H. rewrite match_at_unfold. unfold re_newline, Opt.
  cbn [source ignoreCase]. rewrite m_seq, m_alt. cbn [m chr_matches].
  unfold includes in H. destruct a as [|x a']; [reflexivity|].
  cbn [existsb] in H. apply orb_false_iff in H as [Hx H]. rewrite Hx.
  destruct (13 =? x); [|reflexivity].
  destruct a' as [|y a'']; [reflexivity|].
  cbn [existsb] in H. apply orb_false_iff in H as [Hy _]. now rewrite Hy.
Qed.

Lemma split_one_line (a : jsstring) :
  includes 10 a = false ->
  forall b seg, split_from re_newline b a seg 0 = [rev seg ++ a].
Proof.
  induction a as [|c a IH]; intros H b seg; cbn [split_from].
  - now rewrite app_nil_r.
  - rewrite (newline_no_match b (c :: a) H).
    unfold includes in H. cbn [existsb] in H.
    apply orb_false_iff in H as [_ H].
    rewrite (IH H). cbn [rev]. now rewrite <- app_assoc.
Qed.


Lemma before_word_none (ws : list jsstring) (a : jsstring) :
  forall b, occurs_from ws b a = false -> before_word ws b a = a.
Proof.
  induction a as [|c a IH]; intros b; cbn [occurs_from before_word];
    intros H; apply orb_false_iff in H as [-> H]; [reflexivity|].
  now rewrite (IH _ H).
Qed.

Section CleanQuestion.

Variable w : jsstring.
Hypothesis clean : clean_question w = true.

Let s : jsstring := w ++ [c_qmark].

Lemma clean_parts :
  w <> [] /\ trimmed w = true /\ forallb plain_char w = true
  /\ is_digit_at s = false /\ has_label s = false
  /\ collapse_spaces s = s
  /\ occurs_from (List.map js connectors) [] s = false.
Proof.
  unfold clean_question in clean. fold s in clean.
  repeat (apply andb_true_iff in clean as [clean ?]).
  repeat split; try (now apply negb_true_iff); try assumption.
  - now apply truthy_nonempty.
  - now apply str_eqb_eq.
Qed.


Lemma clean_head : exists c r, s = c :: r /\ plain_char c = true
                               /\ is_space c = false /\ is_digit c = false
                               /\ chr_matches true 81 c = false.
Proof.
  destruct clean_parts as (Hne & Ht & Hp & Hd & Hl & _).
  subst s. destruct w as [|c r]; [congruence|].
  exists c, (r ++ [c_qmark]). cbn [app forallb is_digit_at] in *.
  apply andb_true_iff in Hp as [Hc _].
  unfold trimmed in Ht. apply andb_true_iff in Ht as [Ht _].
  cbn [starts_clean] in Ht. apply negb_true_iff in Ht.
  repeat split; try assumption.
  unfold has_label in Hl. cbn [js list_ascii_of_string List.map prefix_ci] in Hl.
  change (N_of_ascii "Q") with 81 in Hl.
  destruct (chr_matches true 81 c); [discriminate | reflexivity].
Qed.







Lemma clean_label (sep : char -> bool) : strip_label sep s = s.
Proof.
  destruct clean_parts as (_ & _ & _ & _ & Hl & _).
  destruct clean_head as (c & r & Es & _ & _ & _ & Hq).
  unfold strip_label. unfold has_label in Hl.
  destruct (prefix_ci (js "Q") s); [discriminate|].
  destruct (prefix_ci (js "Ask") s); [discriminate|].
  rewrite Es. cbn [js list_ascii_of_string List.map prefix_ci].
  change (N_of_ascii "Q") with 81. now rewrite Hq.
Qed.




Lemma clean_includes : includes c_qmark s = true.
Proof. subst s. rewrite includes_app. apply orb_true_r. Qed.



Lemma clean_finish : finish s = Some s.
Proof.
  destruct clean_parts as (Hne & _). now apply finish_snoc.
Qed.




End CleanQuestion.

(** A question found on the structured path is the trimmed [question]
    member of the value that the text between the braces parses to. *)
Lemma parse_json_block_source (raw q : jsstring) :
  parse_json_block raw = Returned (Some q) ->
  exists sub parsed question,
    greedy_braces raw = Some sub
    /\ JSON_parse sub = Returned parsed
    /\ question_of parsed = Some question
    /\ q = trim question.
Proof.
  unfold parse_json_block. rewrite braces_match0.
  destruct (greedy_braces raw) as [sub|]; [|discriminate].
  destruct (JSON_parse sub) as [v| |] eqn:P; cbn [bind]; try discriminate.
  destruct (question_of v) as [question|] eqn:Q; [|discriminate].
  destruct (0 <? List.length (trim question))%nat; [|discriminate].
  intros H. apply Returned_inj in H. injection H as <-.
  exists sub, v, question. repeat split; assumption.
Qed.

Lemma structured_path_source (raw q : jsstring) :
  structured_path raw = Returned (Some q) ->
  exists sub parsed question,
    greedy_braces raw = Some sub
    /\ JSON_parse sub = Returned parsed
    /\ question_of parsed = Some question
    /\ q = trim question.
Proof.
  intros H. apply structured_path_some, parse_json_block_source in H.
  now rewrite greedy_braces_trim in H.
Qed.

Lemma parseModelQuestion_structured_source (raw q : jsstring) :
  parseModelQuestion raw = Returned (Some q) ->
  structured_path raw <> Returned None ->
  exists sub parsed question,
    greedy_braces raw = Some sub
    /\ JSON_parse sub = Returned parsed
    /\ question_of parsed = Some question
    /\ q = trim question.
Proof.
  intros H N. destruct (structured_path_returns raw) as [[q'|] S]; [|congruence].
  rewrite (parseModelQuestion_structured raw q' S) in H.
  apply Returned_inj in H. injection H as <-.
  now apply structured_path_source.
Qed.

(** The steps 1) to 3) of the fallback choose the candidate by
    priority. *)
Lemma pick_candidate_choose (lines : list jsstring) :
  pick_candidate lines = Some (choose_line lines).
Proof.
  revert lines.
  intros lines. unfold pick_candidate, choose_line, find. cbv zeta.
  destruct (List.find (includes c_qmark) lines) as [l|] eqn:E1.
  { apply find_some in E1 as [_ E1].
    assert (T : truthy l = true) by (destruct l; [discriminate | reflexivity]).
    cbn [truthy_opt]. rewrite T. cbn [negb truthy_opt]. now rewrite T. }
  cbn [truthy_opt negb].
  rewrite (find_same (test questionWordRegex) has_question_word lines)
    by (apply Forall_forall; intros l _; apply question_word_test).
  destruct (List.find has_question_word lines) as [l|] eqn:E2.
  { apply find_some in E2 as [_ E2].
    assert (T : truthy l = true) by (destruct l; [discriminate | reflexivity]).
    cbn [truthy_opt]. now rewrite T. }
  cbn [truthy_opt negb]. fold (find (fun l => truthy l && (5 <? List.length l)%nat)
                                 (List.map (replace re_item_number []) lines)).
  rewrite numbered_find.
  destruct (List.find (fun l => (5 <? List.length l)%nat)
              (List.map strip_item_number lines)) as [l|] eqn:E3.
  { apply find_some in E3 as [_ E3].
    assert (T : truthy l = true) by (destruct l; [discriminate | reflexivity]).
    cbn [or_else]. now rewrite T. }
  cbn [or_else]. destruct lines as [|[|x l] ?]; reflexivity.
Qed.

(* ================================================================== *)
(** ** The claims *)
(* ================================================================== *)

(* ------------------------------------------------------------------ *)
(** *** C1 *)

(** C1 as worded fails: the structured path returns the field as it is,
    with or without a question mark; and a line that begins with a
    question mark keeps every question mark it has. *)
Lemma well_formed_result_counterexample :
  (parseModelQuestion (jsq "{'question':'Define a closure.'}")
   = Returned (Some (js "Define a closure."))
   /\ ~ well_formed_question (js "Define a closure."))
  /\ (parseModelQuestion (js "? a?") = Returned (Some (js "? a?"))
      /\ ~ well_formed_question (js "? a?")).
Proof.
  split; (split; [vm_compute; reflexivity|]).
  - intros (_ & _ & H & _). vm_compute in H. discriminate.
  - intros (_ & _ & _ & H). vm_compute in H. discriminate.
Qed.

Lemma fallback_result_shape (raw q : jsstring) :
  parseModelQuestion raw = Returned (Some q) ->
  (q <> [] /\ trim q = q)
  /\ (structured_path raw = Returned None -> endsWith c_qmark q = true)
  /\ (structured_path raw = Returned None ->
      hd_error q <> Some c_qmark -> well_formed_question q).
Proof.
  intros H. rewrite parseModelQuestion_unfold in H.
  destruct (structured_path raw) as [[q'|]| |] eqn:S; cbn [bind] in H;
    try discriminate.
  { injection H as <-.
    apply structured_path_some, parse_json_block_some in S as (question & -> & Hne).
    split; [split; [exact Hne | apply trim_idem]|].
    split; intros; discriminate. }
  apply Returned_inj in H. pose proof (candidate_trimmed raw) as Ht.
  set (c := candidate_of raw) in *.
  assert (Shape :
    exists c', finish c' = Some q /\ trimmed c' = true
               /\ (includes c_qmark c' = false
                   \/ (exists f, c' = f ++ [c_qmark] /\ includes c_qmark f = false)
                   \/ hd_error c' = Some c_qmark)).
  { destruct (includes c_qmark c) eqn:Hi.
    - unfold cut_at_qmark in H.
      destruct (trim (before_first is_qmark c)) as [|x f] eqn:Ef.
      + cbn [truthy] in H. exists c. repeat split; try assumption.
        right; right. now apply blank_before_qmark.
      + cbn [truthy] in H. exists ((x :: f) ++ [c_qmark]).
        split; [exact H|]. split.
        * apply trimmed_snoc; [|discriminate|reflexivity].
          rewrite <- Ef. apply trimmed_trim.
        * right; left. exists (x :: f). split; [reflexivity|].
          rewrite <- Ef. apply includes_trim_false, before_first_no_qmark.
    - exists c. repeat split; try assumption. now left. }
  clear H. destruct Shape as (c' & Hfin & Htc & Hshape).
  apply finish_some in Hfin as [Hne Hq].
  assert (Hends : endsWith c_qmark q = true).
  { destruct Hq as [[E ->]|[_ ->]]; [exact E | apply endsWith_snoc]. }
  assert (Hqne : q <> []).
  { destruct Hq as [[_ ->]|[_ ->]]; [exact Hne | now destruct c']. }
  assert (Htq : trimmed q = true).
  { destruct Hq as [[_ ->]|[_ ->]]; [exact Htc|].
    apply trimmed_snoc; [exact Htc | exact Hne | reflexivity]. }
  split; [split; [exact Hqne | now apply trim_trimmed]|].
  split; [intros _; exact Hends|].
  intros _ Hhd. repeat split; try assumption; [now apply trim_trimmed|].
  destruct Hshape as [Hno | [(f & -> & Hf) | Hq1]].
  - destruct Hq as [[E _]|[_ ->]].
    + apply endsWith_includes in E. congruence.
    + rewrite count_snoc, (includes_count c_qmark c' Hno). reflexivity.
  - destruct Hq as [[_ ->]|[E _]].
    + rewrite count_snoc, (includes_count c_qmark f Hf). reflexivity.
    + rewrite endsWith_snoc in E. discriminate.
  - exfalso. apply Hhd.
    destruct Hq as [[_ ->]|[_ ->]]; [exact Hq1|].
    now rewrite hd_error_app.
Qed.

(** C1, amended.  A result of [parseModelQuestion] is never empty and is
    equal to its own trim.  When it comes from the fallback it ends with a
    question mark; and when, moreover, it does not begin with a question
    mark, that closing question mark is its only one.  When it comes from
    the structured path it is the [question] member, a string, of the
    value that the text from the first opening brace to the last closing
    brace parses to, trimmed and otherwise as it is. *)
Theorem result_shape (raw q : jsstring) :
  parseModelQuestion raw = Returned (Some q) ->
  (q <> [] /\ trim q = q)
  /\ (structured_path raw = Returned None -> endsWith c_qmark q = true)
  /\ (structured_path raw = Returned None ->
      hd_error q <> Some c_qmark -> well_formed_question q)
  /\ (structured_path raw <> Returned None ->
      exists sub parsed question,
        greedy_braces raw = Some sub
        /\ JSON_parse sub = Returned parsed
        /\ question_of parsed = Some question
        /\ q = trim question).
Proof.
  intros H. destruct (fallback_result_shape raw q H) as (A & B & C).
  split; [exact A|]. split; [exact B|]. split; [exact C|].
  intros N. now apply parseModelQuestion_structured_source.
Qed.

Lemma result_shape_witness :
  well_formed_question (js "What is Big O?").
Proof.
  apply (result_shape
           (js "Here are some questions:" ++ LF ++ js "1) What is Big O?" ++ LF
              ++ js "2) How do you reverse a linked list?")
           (js "What is Big O?")).
  - vm_compute; reflexivity.
  - vm_compute; reflexivity.
  - vm_compute; discriminate.
Defined.

(* ------------------------------------------------------------------ *)
(** *** C2 *)

(** C2. When the text of a reply from its first opening brace through its
    last closing brace parses as JSON to an object with a string field
    [question] whose trimmed content is not empty, [parseModelQuestion]
    returns that trimmed content, whatever text surrounds the object; the
    fallback is not consulted.  In particular the hash-table sample gives
    its question, also when prose follows the object. *)
Theorem json_short_circuit :
  (forall raw sub ms q,
      greedy_braces raw = Some sub ->
      JSON_parse sub = Returned (JObject ms) ->
      get_member (js "question") ms = Some (JString q) ->
      truthy (trim q) = true ->
      structured_path raw = Returned (Some (trim q))
      /\ parseModelQuestion raw = Returned (Some (trim q)))
  /\ parseModelQuestion (jsq "{'question':'Describe how a hash table works?'}")
     = Returned (Some (js "Describe how a hash table works?"))
  /\ parseModelQuestion
       (jsq "{'question':'Describe how a hash table works?'} Is that one fine? Tell me.")
     = Returned (Some (js "Describe how a hash table works?")).
Proof.
  split; [|split; vm_compute; reflexivity].
  intros raw sub ms q Hb Hp Hm Hq.
  assert (S : structured_path raw = Returned (Some (trim q))).
  { unfold structured_path.
    now rewrite (parse_json_block_found raw sub q ms Hb Hp Hm Hq). }
  split; [exact S | now apply parseModelQuestion_structured].
Qed.

Lemma json_short_circuit_witness :
  parseModelQuestion (jsq "Sure. {'id': 7, 'question':' What is a heap? '} Good luck!")
  = Returned (Some (js "What is a heap?")).
Proof.
  apply (proj1 json_short_circuit
           (jsq "Sure. {'id': 7, 'question':' What is a heap? '} Good luck!")
           (jsq "{'id': 7, 'question':' What is a heap? '}")
           [(js "id", JNumber (js "7")); (js "question", JString (js " What is a heap? "))]
           (js " What is a heap? ")); vm_compute; reflexivity.
Defined.

(* ------------------------------------------------------------------ *)
(** *** C3 *)

(** C3 as worded fails: a candidate that begins with a question mark is
    kept whole, with all that follows its first question mark; and the
    blanks before the question mark are not kept. *)
Lemma first_question_cut_counterexample :
  (structured_path (js "? a?") = Returned None
   /\ includes c_qmark (candidate_of (js "? a?")) = true
   /\ through_first is_qmark (candidate_of (js "? a?")) = js "?"
   /\ parseModelQuestion (js "? a?") = Returned (Some (js "? a?")))
  /\ (structured_path (js "What is X ? more") = Returned None
      /\ through_first is_qmark (candidate_of (js "What is X ? more")) = js "What is X ?"
      /\ parseModelQuestion (js "What is X ? more") = Returned (Some (js "What is X?"))).
Proof. repeat split; vm_compute; reflexivity. Qed.

(** C3, amended.  On the fallback path: a candidate with a question mark
    and some text that is not blank before the first one is cut to that
    text, trimmed, and one question mark; a final candidate that is not
    empty and has no closing question mark gets exactly one.  The sample
    with two questions on one line yields the first. *)
Theorem first_question_cut :
  (forall raw,
      structured_path raw = Returned None ->
      includes c_qmark (candidate_of raw) = true ->
      truthy (trim (before_first is_qmark (candidate_of raw))) = true ->
      parseModelQuestion raw
      = Returned (Some (trim (before_first is_qmark (candidate_of raw)) ++ [c_qmark])))
  /\ (forall raw final,
         structured_path raw = Returned None ->
         first_question (candidate_of raw) = Returned final ->
         truthy final = true ->
         endsWith c_qmark final = false ->
         parseModelQuestion raw = Returned (Some (final ++ [c_qmark])))
  /\ parseModelQuestion (js "What is a REST API? Also, explain GraphQL differences?")
     = Returned (Some (js "What is a REST API?")).
Proof.
  split; [|split; [|vm_compute; reflexivity]].
  - intros raw Hs Hi Hq. rewrite (parseModelQuestion_fallback raw Hs), Hi.
    unfold cut_at_qmark. rewrite Hq. rewrite finish_snoc; [reflexivity|].
    now apply truthy_nonempty.
  - intros raw final Hs Hf Ht He. rewrite (parseModelQuestion_fallback raw Hs).
    rewrite first_question_returns in Hf.
    apply Returned_inj in Hf. subst final.
    rewrite finish_open; [reflexivity | now apply truthy_nonempty | exact He].
Qed.

Lemma first_question_cut_witness :
  parseModelQuestion (js "1) What is X ? And Y?") = Returned (Some (js "What is X?"))
  /\ parseModelQuestion (js "Tell me about heaps") = Returned (Some (js "Tell me about heaps?")).
Proof.
  split.
  - apply (proj1 first_question_cut (js "1) What is X ? And Y?"));
      vm_compute; reflexivity.
  - apply (proj1 (proj2 first_question_cut) (js "Tell me about heaps")
             (js "Tell me about heaps")); vm_compute; reflexivity.
Defined.

(* ------------------------------------------------------------------ *)
(** *** C4 *)

(** C4. For every input string, [parseModelQuestion] ends normally: it
    returns a string or its absent result, it never throws, and the bound
    of the JSON parser of the model is never reached. *)
Theorem parseModelQuestion_never_throws (raw : jsstring) :
  exists result, parseModelQuestion raw = Returned result.
Proof.
  rewrite parseModelQuestion_unfold.
  destruct (structured_path_returns raw) as [[q|] ->]; cbn [bind]; eauto.
Qed.

(* ------------------------------------------------------------------ *)
(** *** C5 *)

(** C5. Failure is the absent result, not an exception: on the fallback
    path, when the final candidate [question] is empty or is the single
    character [?], [parseModelQuestion] returns the absent result; so it
    does for the empty string, for blanks and for a lone [?]. *)
Theorem degenerate_question_rejected :
  (forall raw question,
      structured_path raw = Returned None ->
      fallback_question (trim raw) = Returned question ->
      question = [] \/ question = [c_qmark] ->
      parseModelQuestion raw = Returned None)
  /\ parseModelQuestion [] = Returned None
  /\ parseModelQuestion (js "   ") = Returned None
  /\ parseModelQuestion (js "?") = Returned None.
Proof.
  split; [|repeat split; vm_compute; reflexivity].
  intros raw question Hs Hf Hq.
  rewrite (parseModelQuestion_fallback raw Hs).
  rewrite fallback_question_returns in Hf. injection Hf as Hf.
  unfold finish. rewrite Hf. now destruct Hq as [-> | ->].
Qed.

Lemma degenerate_question_rejected_witness :
  parseModelQuestion (js " ? ") = Returned None.
Proof.
  apply (proj1 degenerate_question_rejected (js " ? ") [c_qmark]).
  - vm_compute; reflexivity.
  - vm_compute; reflexivity.
  - right; reflexivity.
Defined.

(** Two question marks alone are not the degenerate question: they pass. *)
Lemma lone_question_marks_kept :
  parseModelQuestion (js "??") = Returned (Some (js "??")).
Proof. vm_compute; reflexivity. Qed.

(* ------------------------------------------------------------------ *)
(** *** C6 *)

(** C6. On the fallback path the lines are trimmed and not empty, and the
    candidate is chosen among them in this order: the first line with a
    question mark; else the first line with one of the twelve question
    words as a whole word, whatever its case; else the first line that is
    longer than five characters once a leading [digits . or )] prefix is
    removed, taken without that prefix; else the first line as it is;
    else the empty string.  This choice is the candidate of the fallback
    of [parseModelQuestion]: the fallback is the two prefix removals, the
    cut at the first question mark and the closing question mark applied
    to the line so chosen among the lines of the cleaned reply, and so is
    the result of [parseModelQuestion] whenever its structured path
    yields nothing. *)
Theorem candidate_priority_order :
  (forall text, Forall (fun l => l <> [] /\ trim l = l) (lines_of text))
  /\ (forall lines, pick_candidate lines = Some (choose_line lines))
  /\ (forall raw,
        fallback_question raw
        = (candidateLine <-
             first_question
               (strip_candidate (Some (choose_line (lines_of (cleanText raw))))) ;;
           Returned (with_question_mark candidateLine)))
  /\ (forall raw,
        structured_path raw = Returned None ->
        parseModelQuestion raw
        = Returned
            (finish
               (let c := strip_candidate
                           (Some (choose_line (lines_of (cleanText (trim raw))))) in
                if includes c_qmark c then cut_at_qmark c else c))).
Proof.
  split; [exact lines_trimmed|]. split; [exact pick_candidate_choose|]. split.
  - intros raw. unfold fallback_question. cbv zeta.
    now rewrite pick_candidate_choose.
  - intros raw Hs. rewrite (parseModelQuestion_fallback raw Hs).
    unfold candidate_of. now rewrite pick_candidate_choose.
Qed.

Lemma candidate_priority_order_witness :
  parseModelQuestion (js "Sure, here it is:" ++ LF ++ js "2) Explain closures" ++ LF
                        ++ js "Thanks")
  = Returned (Some (js "Explain closures?")).
Proof.
  etransitivity.
  - apply (proj2 (proj2 (proj2 candidate_priority_order))).
    vm_compute. reflexivity.
  - vm_compute. reflexivity.
Defined.

(* ------------------------------------------------------------------ *)
(** *** C7 *)




(* ------------------------------------------------------------------ *)
(** *** C8 *)

(** C8. For every text, [keepOnlyFirstQuestion] collapses each run of
    white space to one space, removes a leading numbering and a leading
    Question/Q/Ask label, drops everything from the first whole-word
    connector (Also, Additionally, And then, Next, Follow up, Follow-up,
    As well as; any case) on; and when no question mark is left it stops
    just after the first dot or exclamation mark.  (With a question mark
    left it cuts at the first one, as the other copy does.) *)
Theorem keepOnlyFirstQuestion_steps (text : jsstring) :
  keepOnlyFirstQuestion text = Returned (keep_first_question text).
Proof. exact (keepOnlyFirstQuestion_returns text). Qed.

(* ------------------------------------------------------------------ *)
(** *** C9 *)

(** C9. In [generateQuestion], when the reply as a whole (trimmed, as the
    function first does) fails to parse as JSON while its text from the
    first opening brace through the last closing brace parses to an object
    with a string field [question] that is not blank, the function returns
    that field trimmed and otherwise untouched: nothing is cut at a
    question mark or a connector and no question mark is added.  Such a
    result can hold several question marks, or end without one. *)
Theorem generateQuestion_brace_verbatim :
  (forall text sub ms q e,
      JSON_parse (trim text) = Threw e ->
      greedy_braces text = Some sub ->
      JSON_parse sub = Returned (JObject ms) ->
      get_member (js "question") ms = Some (JString q) ->
      truthy (trim q) = true ->
      generateQuestion (Some text) = Returned (trim q))
  /\ generateQuestion (Some (jsq "Here: {'question':'What is X? Also, why Y?'}"))
     = Returned (js "What is X? Also, why Y?")
  /\ generateQuestion (Some (jsq "Here: {'question':'Explain closures. Then hoisting'}"))
     = Returned (js "Explain closures. Then hoisting").
Proof.
  split; [|split; vm_compute; reflexivity].
  intros text sub ms q e He Hb Hp Hm Hq.
  unfold generateQuestion, generateQuestion_body.
  replace (or_else (Some text) []) with text by (now destruct text).
  unfold schema_block. rewrite He. cbn [bind try_catch].
  now rewrite (parse_json_block_found text sub q ms Hb Hp Hm Hq).
Qed.

Lemma generateQuestion_brace_verbatim_witness :
  generateQuestion (Some (jsq "Here: {'question':'What is X? Also, why Y?'}"))
  = Returned (js "What is X? Also, why Y?").
Proof.
  apply (proj1 generateQuestion_brace_verbatim
           (jsq "Here: {'question':'What is X? Also, why Y?'}")
           (jsq "{'question':'What is X? Also, why Y?'}")
           [(js "question", JString (js "What is X? Also, why Y?"))]
           (js "What is X? Also, why Y?") SyntaxError); vm_compute; reflexivity.
Defined.

(* ------------------------------------------------------------------ *)
(** *** C10 *)

(** C10. With no argument ([undefined]), with [null] and with the empty
    string, [(raw || '')] is the empty string and [parseModelQuestion]
    returns its absent result without throwing. *)
Theorem parseModelQuestion_missing_argument :
  or_empty Undefined = [] /\ or_empty Null = [] /\ or_empty (Str []) = []
  /\ parseModelQuestion_arg Undefined = Returned None
  /\ parseModelQuestion_arg Null = Returned None
  /\ parseModelQuestion_arg (Str []) = Returned None.
Proof. repeat split; vm_compute; reflexivity. Qed.

(* ================================================================== *)
(** ** Further properties of the two programs *)
(* ================================================================== *)

(* ------------------------------------------------------------------ *)
(** *** White space around the reply *)

Lemma trim_padding (pre raw post : jsstring) :
  forallb is_space pre = true -> forallb is_space post = true ->
  trim (pre ++ raw ++ post) = trim raw.
Proof.
  intros Hpre Hpost. unfold trim, trimStart.
  rewrite (drop_while_app_all is_space pre (raw ++ post) Hpre).
  destruct (drop_while is_space raw) as [|c r] eqn:E.
  - rewrite (drop_while_app_all is_space raw post (drop_while_nil_all _ _ E)).
    now rewrite (drop_while_all is_space post Hpost).
  - rewrite (drop_while_app_stop is_space raw post c r E).
    unfold trimEnd. change (c :: r ++ post) with ((c :: r) ++ post).
    rewrite rev_app_distr.
    rewrite (drop_while_app_all is_space (rev post) (rev (c :: r))); [reflexivity|].
    rewrite forallb_forall in Hpost |- *. intros x Hx. apply Hpost.
    now apply in_rev.
Qed.

Lemma parseModelQuestion_trim (raw : jsstring) :
  parseModelQuestion (trim raw) = parseModelQuestion raw.
Proof.
  unfold parseModelQuestion, parseModelQuestion_arg.
  now rewrite !or_empty_str, trim_idem.
Qed.

Lemma generateQuestion_trim (raw : jsstring) :
  generateQuestion (Some (trim raw)) = generateQuestion (Some raw).
Proof.
  unfold generateQuestion, generateQuestion_body.
  now rewrite !or_else_some, trim_idem.
Qed.

(** X1. White space before and after a reply changes the result of neither
    copy. *)
Theorem padding_ignored (pre raw post : jsstring) :
  forallb is_space pre = true -> forallb is_space post = true ->
  parseModelQuestion (pre ++ raw ++ post) = parseModelQuestion raw
  /\ generateQuestion (Some (pre ++ raw ++ post)) = generateQuestion (Some raw).
Proof.
  intros Hpre Hpost. split.
  - rewrite <- (parseModelQuestion_trim (pre ++ raw ++ post)),
      (trim_padding pre raw post Hpre Hpost).
    apply parseModelQuestion_trim.
  - transitivity (generateQuestion (Some (trim (pre ++ raw ++ post))));
      [symmetry; apply generateQuestion_trim|].
    rewrite (trim_padding pre raw post Hpre Hpost).
    apply generateQuestion_trim.
Qed.

Lemma padding_ignored_witness :
  parseModelQuestion (LF ++ js "  " ++ js "1. What is a heap? " ++ CR ++ LF)
  = parseModelQuestion (js "1. What is a heap? ").
Proof.
  apply (proj1 (padding_ignored (LF ++ js "  ") (js "1. What is a heap? ") (CR ++ LF)
                  eq_refl eq_refl)).
Defined.

(* ------------------------------------------------------------------ *)
(** *** Single spaces *)

Lemma single_spaced_cons (c : char) (r : jsstring) :
  single_spaced (c :: r)
  = (if is_space c then (c =? 32) && negb (space_at r) else true) && single_spaced r.
Proof. reflexivity. Qed.

Lemma collapse_spaces_head (s : jsstring) :
  space_at s = false -> space_at (collapse_spaces s) = false.
Proof.
  destruct s as [|c r]; [reflexivity|]. cbn [space_at collapse_spaces].
  intros H. now rewrite H.
Qed.

Lemma collapse_single_spaced (s : jsstring) :
  single_spaced (collapse_spaces s) = true.
Proof.
  induction s as [|c r IH]; [reflexivity|]. cbn [collapse_spaces].
  destruct (is_space c) eqn:Ec.
  - destruct r as [|x r']; [reflexivity|].
    destruct (is_space x) eqn:Ex; [exact IH|].
    rewrite single_spaced_cons, IH, andb_true_r.
    change (is_space 32) with true. cbv iota.
    rewrite (collapse_spaces_head (x :: r') Ex). reflexivity.
  - rewrite single_spaced_cons, Ec, IH. reflexivity.
Qed.

Lemma single_spaced_suffix (x y : jsstring) :
  single_spaced (x ++ y) = true -> single_spaced y = true.
Proof.
  induction x as [|c r IH]; [auto|]. cbn [app]. rewrite single_spaced_cons.
  intros H; apply andb_true_iff in H as [_ H]. auto.
Qed.

Lemma single_spaced_prefix (x y : jsstring) :
  single_spaced (x ++ y) = true -> single_spaced x = true.
Proof.
  induction x as [|c r IH]; [reflexivity|]. cbn [app].
  rewrite !single_spaced_cons.
  intros H; apply andb_true_iff in H as [Hc H]. rewrite (IH H), andb_true_r.
  destruct (is_space c); [|reflexivity].
  apply andb_true_iff in Hc as [-> Hn]. cbn [andb].
  destruct r as [|x r']; [reflexivity | exact Hn].
Qed.

Lemma single_spaced_infix (u x v : jsstring) :
  single_spaced (u ++ x ++ v) = true -> single_spaced x = true.
Proof.
  intros H. apply single_spaced_suffix in H. now apply single_spaced_prefix in H.
Qed.

Lemma single_spaced_snoc (x : jsstring) (c : char) :
  single_spaced x = true -> is_space c = false -> single_spaced (x ++ [c]) = true.
Proof.
  intros Hx Hc. induction x as [|a r IH]; cbn [app].
  - rewrite single_spaced_cons, Hc. reflexivity.
  - rewrite single_spaced_cons in Hx |- *.
    apply andb_true_iff in Hx as [Ha Hr]. rewrite (IH Hr), andb_true_r.
    destruct (is_space a); [|reflexivity].
    apply andb_true_iff in Ha as [-> Hn]. cbn [andb].
    destruct r as [|x r']; [cbn [app space_at]; now rewrite Hc | exact Hn].
Qed.

Lemma single_spaced_trim (s : jsstring) :
  single_spaced s = true -> single_spaced (trim s) = true.
Proof.
  intros H. destruct (trim_infix s) as (u & v & E). rewrite E in H.
  now apply single_spaced_infix in H.
Qed.

Lemma single_spaced_drop_while (p : char -> bool) (s : jsstring) :
  single_spaced s = true -> single_spaced (drop_while p s) = true.
Proof.
  intros H. rewrite <- (take_drop_while p s) in H.
  now apply single_spaced_suffix in H.
Qed.

Lemma single_spaced_drop_one (p : char -> bool) (s : jsstring) :
  single_spaced s = true -> single_spaced (drop_one p s) = true.
Proof.
  destruct s as [|c r]; [auto|]. cbn [drop_one]. destruct (p c); [|auto].
  apply (single_spaced_suffix [c] r).
Qed.

Lemma single_spaced_no_line_feed (s : jsstring) :
  single_spaced s = true -> includes 10 s = false.
Proof.
  unfold includes. induction s as [|c r IH]; [reflexivity|].
  rewrite single_spaced_cons. cbn [existsb].
  intros H; apply andb_true_iff in H as [Hc Hr]. rewrite (IH Hr), orb_false_r.
  destruct (10 =? c) eqn:E; [|reflexivity].
  apply N.eqb_eq in E. subst c. discriminate.
Qed.

(** The parts of a text kept by the steps of [keep_first_question]. *)
Lemma strip_numbering_suffix (s : jsstring) :
  exists u, s = u ++ strip_numbering s.
Proof.
  unfold strip_numbering. destruct (take_while is_digit s) as [|d0 ds0] eqn:E.
  - exists []. reflexivity.
  - clear E. set (a := drop_while is_digit s).
    assert (H1 : exists u1, a = u1 ++ drop_one dot_only a).
    { destruct a as [|x r]; [exists []; reflexivity|]. cbn [drop_one].
      destruct (dot_only x); [exists [x] | exists []]; reflexivity. }
    set (b := drop_one dot_only a) in *.
    assert (H2 : exists u2, b = u2 ++ drop_one (N.eqb c_rparen) b).
    { destruct b as [|x r]; [exists []; reflexivity|]. cbn [drop_one].
      destruct (c_rparen =? x); [exists [x] | exists []]; reflexivity. }
    set (d := drop_one (N.eqb c_rparen) b) in *.
    destruct H1 as [u1 H1]. destruct H2 as [u2 H2].
    exists (take_while is_digit s ++ u1 ++ u2 ++ take_while is_space d).
    rewrite <- !app_assoc, take_drop_while, <- H2, <- H1.
    subst a. now rewrite take_drop_while.
Qed.

Lemma prefix_ci_suffix (w a rest : jsstring) :
  prefix_ci w a = Some rest -> exists u, a = u ++ rest.
Proof.
  intros H. destruct (prefix_ci_length w a rest H) as [E _]. eauto.
Qed.

Lemma strip_label_suffix (sep : char -> bool) (s : jsstring) :
  exists u, s = u ++ strip_label sep s.
Proof.
  unfold strip_label.
  assert (G : forall w r, prefix_ci w s = Some r -> exists u, s = u ++ drop_while sep r).
  { intros w r H. destruct (prefix_ci_suffix w s r H) as [u ->].
    exists (u ++ take_while sep r). now rewrite <- app_assoc, take_drop_while. }
  destruct (prefix_ci (js "Question") s) eqn:E1; [eauto|].
  destruct (prefix_ci (js "Q") s) eqn:E2; [eauto|].
  destruct (prefix_ci (js "Ask") s) eqn:E3; [eauto|].
  exists []. reflexivity.
Qed.

Lemma before_word_prefix (ws : list jsstring) (a : jsstring) :
  forall b, exists v, a = before_word ws b a ++ v.
Proof.
  induction a as [|c a IH]; intros b; cbn [before_word].
  - destruct (existsb (word_at b []) ws); exists []; reflexivity.
  - destruct (existsb (word_at b (c :: a)) ws); [exists (c :: a); reflexivity|].
    destruct (IH (c :: b)) as [v E]. exists v. cbn [app]. now rewrite <- E.
Qed.

Lemma through_first_prefix (p : char -> bool) (s : jsstring) :
  exists v, s = through_first p s ++ v.
Proof.
  induction s as [|c r [v IH]]; [exists []; reflexivity|]. cbn [through_first].
  destruct (p c); [exists r; reflexivity|].
  exists v. cbn [app]. now rewrite <- IH.
Qed.

Lemma before_first_prefix (p : char -> bool) (s : jsstring) :
  exists v, s = before_first p s ++ v.
Proof.
  unfold before_first. exists (drop_while (fun x => negb (p x)) s).
  now rewrite take_drop_while.
Qed.

Lemma cut_at_qmark_single_spaced (c : jsstring) :
  single_spaced c = true -> single_spaced (cut_at_qmark c) = true.
Proof.
  intros H. unfold cut_at_qmark.
  destruct (truthy (trim (before_first is_qmark c))); [|exact H].
  apply single_spaced_snoc; [|reflexivity]. apply single_spaced_trim.
  destruct (before_first_prefix is_qmark c) as [v E]. rewrite E in H.
  now apply single_spaced_prefix in H.
Qed.

Lemma cut_at_qmark_trimmed (c : jsstring) :
  trimmed c = true -> trimmed (cut_at_qmark c) = true.
Proof.
  intros H. unfold cut_at_qmark.
  destruct (trim (before_first is_qmark c)) as [|x f] eqn:E; [exact H|].
  cbn [truthy]. apply trimmed_snoc; [|discriminate|reflexivity].
  rewrite <- E. apply trimmed_trim.
Qed.

(** What [keepOnlyFirstQuestion] returns is trimmed and written with
    single spaces: no tab, no line break, no doubled space. *)
Lemma keep_first_question_tidy (text : jsstring) :
  trim (keep_first_question text) = keep_first_question text
  /\ single_spaced (keep_first_question text) = true.
Proof.
  unfold keep_first_question.
  set (c1 := trim (collapse_spaces text)).
  assert (S1 : single_spaced c1 = true)
    by apply single_spaced_trim, collapse_single_spaced.
  set (c2 := trim (strip_label colon_space_dash (strip_numbering c1))).
  assert (S2 : single_spaced c2 = true).
  { apply single_spaced_trim.
    destruct (strip_numbering_suffix c1) as [u1 E1].
    destruct (strip_label_suffix colon_space_dash (strip_numbering c1)) as [u2 E2].
    rewrite E1 in S1. apply single_spaced_suffix in S1.
    rewrite E2 in S1. now apply single_spaced_suffix in S1. }
  set (c3 := trim (before_word (List.map js connectors) [] c2)).
  assert (S3 : single_spaced c3 = true).
  { apply single_spaced_trim.
    destruct (before_word_prefix (List.map js connectors) c2 []) as [v E].
    rewrite E in S2. now apply single_spaced_prefix in S2. }
  assert (T3 : trimmed c3 = true) by apply trimmed_trim.
  destruct (includes c_qmark c3).
  - split; [apply trim_trimmed, cut_at_qmark_trimmed, T3|].
    now apply cut_at_qmark_single_spaced.
  - split; [apply trim_idem|]. apply single_spaced_trim.
    destruct (through_first_prefix dot_or_bang c3) as [v E].
    rewrite E in S3. now apply single_spaced_prefix in S3.
Qed.

(** X2. [keepOnlyFirstQuestion] always returns, and what it returns is
    trimmed and written with single spaces: every white-space character
    in it is one space between two other characters, so the text holds no
    tab and no line break. *)
Theorem keepOnlyFirstQuestion_tidy (text : jsstring) :
  exists r, keepOnlyFirstQuestion text = Returned r
            /\ trim r = r /\ single_spaced r = true /\ includes 10 r = false.
Proof.
  exists (keep_first_question text).
  destruct (keep_first_question_tidy text) as [T S].
  repeat split; try assumption.
  - apply keepOnlyFirstQuestion_returns.
  - now apply single_spaced_no_line_feed.
Qed.

(* ------------------------------------------------------------------ *)
(** *** Question marks *)

Lemma includes_infix (c : char) (u x v : jsstring) :
  includes c (u ++ x ++ v) = false -> includes c x = false.
Proof.
  rewrite !includes_app. intros H.
  apply orb_false_iff in H as [_ H]. now apply orb_false_iff in H as [H _].
Qed.

(** A cut line holds one question mark, its last character, unless the
    line began with a question mark. *)
Lemma cut_at_qmark_shape (c : jsstring) :
  trimmed c = true -> includes c_qmark c = true ->
  hd_error (cut_at_qmark c) <> Some c_qmark ->
  endsWith c_qmark (cut_at_qmark c) = true
  /\ count_occ N.eq_dec (cut_at_qmark c) c_qmark = 1%nat.
Proof.
  intros Ht Hi. unfold cut_at_qmark.
  destruct (trim (before_first is_qmark c)) as [|x f] eqn:E; cbn [truthy].
  - intros Hh. exfalso. apply Hh. now apply blank_before_qmark.
  - intros _. rewrite <- E. split; [apply endsWith_snoc|].
    rewrite count_snoc, includes_count; [reflexivity|].
    apply includes_trim_false, before_first_no_qmark.
Qed.

(** X3. When the text returned by [keepOnlyFirstQuestion] holds a question
    mark and does not begin with one, that question mark is its last
    character and its only question mark. *)
Theorem keepOnlyFirstQuestion_one_question (text r : jsstring) :
  keepOnlyFirstQuestion text = Returned r ->
  includes c_qmark r = true ->
  hd_error r <> Some c_qmark ->
  endsWith c_qmark r = true /\ count_occ N.eq_dec r c_qmark = 1%nat.
Proof.
  rewrite keepOnlyFirstQuestion_returns. intros H. apply Returned_inj in H.
  subst r. unfold keep_first_question.
  set (c3 := trim (before_word (List.map js connectors) [] _)).
  assert (T3 : trimmed c3 = true) by apply trimmed_trim.
  destruct (includes c_qmark c3) eqn:Hi.
  - intros _. now apply cut_at_qmark_shape.
  - intros Hr. exfalso.
    destruct (through_first_prefix dot_or_bang c3) as [v E].
    destruct (trim_infix (through_first dot_or_bang c3)) as (a & b & E').
    rewrite E, includes_app in Hi. apply orb_false_iff in Hi as [Hi _].
    rewrite E' in Hi. apply includes_infix in Hi. congruence.
Qed.

Lemma keepOnlyFirstQuestion_one_question_witness :
  endsWith c_qmark (js "What is a heap?") = true
  /\ count_occ N.eq_dec (js "What is a heap?") c_qmark = 1%nat.
Proof.
  apply (keepOnlyFirstQuestion_one_question
           (js "2) Q: What   is a heap? Also, why? And how?")
           (js "What is a heap?")).
  - vm_compute; reflexivity.
  - vm_compute; reflexivity.
  - vm_compute; discriminate.
Defined.

(* ------------------------------------------------------------------ *)
(** *** generateQuestion as a whole *)

Lemma schema_block_cases (raw : jsstring) :
  (exists r, schema_block raw = Returned r
             /\ forall single, r = Some single ->
                  single <> []
                  /\ exists question, single = keep_first_question question)
  \/ schema_block raw = Threw SyntaxError.
Proof.
  unfold schema_block.
  destruct (JSON_parse_total raw) as [[v ->]| ->]; [|right; reflexivity].
  left. cbn [bind]. destruct (question_of v) as [q|].
  - rewrite keepOnlyFirstQuestion_returns. cbn [bind].
    destruct (keep_first_question q) as [|x f] eqn:E; cbn [truthy].
    + exists None. split; [reflexivity | discriminate].
    + exists (Some (x :: f)). split; [reflexivity|].
      intros single H. injection H as <-. split; [discriminate|].
      exists q. now rewrite E.
  - exists None. split; [reflexivity | discriminate].
Qed.

Lemma with_question_mark_cases (c : jsstring) :
  with_question_mark c = []
  \/ (with_question_mark c <> [] /\ endsWith c_qmark (with_question_mark c) = true
      /\ (with_question_mark c = c \/ with_question_mark c = c ++ [c_qmark])).
Proof.
  unfold with_question_mark. destruct c as [|x r]; [now left|]. right.
  cbn [truthy]. destruct (endsWith c_qmark (x :: r)) eqn:E.
  - repeat split; [discriminate | exact E | now left].
  - repeat split; [now destruct r | apply endsWith_snoc | now right].
Qed.

Lemma trouble_message_not_empty : trouble_message <> [].
Proof. discriminate. Qed.

Lemma generateQuestion_body_unfold (text : option jsstring) :
  generateQuestion_body text
  = (first <- try_catch (schema_block (trim (or_else text []))) (fun _ => Returned None) ;;
     match first with
     | Some single => Returned single
     | None =>
         second <- try_catch (parse_json_block (trim (or_else text [])))
                     (fun _ => Returned None) ;;
         match second with
         | Some question => Returned question
         | None => Returned (service_fallback (trim (or_else text [])))
         end
     end).
Proof.
  unfold generateQuestion_body, service_fallback.
  destruct (try_catch (schema_block _) _) as [[single|]| |]; cbn [bind];
    try reflexivity.
  destruct (try_catch (parse_json_block _) _) as [[q|]| |]; cbn [bind];
    try reflexivity.
  rewrite keepOnlyFirstQuestion_returns. cbn [bind]. now destruct (_ || _).
Qed.

Lemma generateQuestion_body_returns (text : option jsstring) :
  exists q, generateQuestion_body text = Returned q /\ q <> [].
Proof.
  rewrite generateQuestion_body_unfold. set (raw := trim (or_else text [])).
  destruct (schema_block_cases raw) as [(r & -> & Hr)| ->]; cbn [try_catch bind].
  - destruct r as [single|].
    + exists single. split; [reflexivity|]. now destruct (Hr single eq_refl).
    + fold (try_catch (parse_json_block raw) (fun _ => Returned None)).
      destruct (parse_json_block_cases raw) as [[[q|] E]| E]; rewrite E;
        cbn [try_catch bind].
      * exists q. split; [reflexivity|].
        now destruct (parse_json_block_some raw q E) as (_ & _ & H).
      * eexists. split; [reflexivity|]. unfold service_fallback.
        destruct (with_question_mark_cases
                    (keep_first_question
                       (or_else (pick_candidate (lines_of (cleanText_g raw))) [])))
          as [-> | (Hne & _)]; [exact trouble_message_not_empty|].
        cbv zeta. destruct (_ || _); [exact trouble_message_not_empty | exact Hne].
      * eexists. split; [reflexivity|]. unfold service_fallback.
        destruct (with_question_mark_cases
                    (keep_first_question
                       (or_else (pick_candidate (lines_of (cleanText_g raw))) [])))
          as [-> | (Hne & _)]; [exact trouble_message_not_empty|].
        cbv zeta. destruct (_ || _); [exact trouble_message_not_empty | exact Hne].
  - destruct (parse_json_block_cases raw) as [[[q|] E]| E]; rewrite E;
      cbn [try_catch bind].
    + exists q. split; [reflexivity|].
      now destruct (parse_json_block_some raw q E) as (_ & _ & H).
    + eexists. split; [reflexivity|]. unfold service_fallback.
      destruct (with_question_mark_cases
                  (keep_first_question
                     (or_else (pick_candidate (lines_of (cleanText_g raw))) [])))
        as [-> | (Hne & _)]; [exact trouble_message_not_empty|].
      cbv zeta. destruct (_ || _); [exact trouble_message_not_empty | exact Hne].
    + eexists. split; [reflexivity|]. unfold service_fallback.
      destruct (with_question_mark_cases
                  (keep_first_question
                     (or_else (pick_candidate (lines_of (cleanText_g raw))) [])))
        as [-> | (Hne & _)]; [exact trouble_message_not_empty|].
      cbv zeta. destruct (_ || _); [exact trouble_message_not_empty | exact Hne].
Qed.

(** X4. [generateQuestion] never throws and never returns the empty string:
    whether the call of the model is rejected, the reply has no text, or
    the text is anything at all, the caller receives a non-empty string
    (a question or the fixed retry message). *)
Theorem generateQuestion_call_answers (r : reply) :
  exists q, generateQuestion_call r = Returned q /\ q <> [].
Proof.
  unfold generateQuestion_call. destruct r as [e|text]; cbn [try_catch].
  - exists trouble_message. split; [reflexivity | exact trouble_message_not_empty].
  - destruct (generateQuestion_body_returns text) as (q & -> & Hq).
    exists q. now split.
Qed.

Lemma trouble_message_tidy :
  trim trouble_message = trouble_message /\ single_spaced trouble_message = true.
Proof. split; vm_compute; reflexivity. Qed.

Lemma with_question_mark_tidy (c : jsstring) :
  trim c = c -> single_spaced c = true ->
  trim (with_question_mark c) = with_question_mark c
  /\ single_spaced (with_question_mark c) = true.
Proof.
  intros T S. unfold with_question_mark.
  destruct c as [|x r]; [now split|]. cbn [truthy].
  destruct (endsWith c_qmark (x :: r)); [now split|]. split.
  - apply trim_trimmed, trimmed_snoc; [now apply trim_fixed_iff | discriminate | reflexivity].
  - now apply single_spaced_snoc.
Qed.

Lemma service_fallback_shape (raw : jsstring) :
  (trim (service_fallback raw) = service_fallback raw
   /\ single_spaced (service_fallback raw) = true)
  /\ service_fallback raw <> []
  /\ (service_fallback raw = trouble_message
      \/ endsWith c_qmark (service_fallback raw) = true).
Proof.
  unfold service_fallback.
  set (c := keep_first_question _).
  destruct (keep_first_question_tidy
              (or_else (pick_candidate (lines_of (cleanText_g raw))) [])) as [T S].
  fold c in T, S. cbv zeta.
  destruct (negb (truthy (with_question_mark c))
            || str_eqb (with_question_mark c) [c_qmark]) eqn:E.
  - split; [exact trouble_message_tidy|].
    split; [exact trouble_message_not_empty | now left].
  - split; [now apply with_question_mark_tidy|].
    apply orb_false_iff in E as [E _]. apply negb_false_iff in E.
    destruct (with_question_mark_cases c) as [H | (Hne & He & _)].
    + rewrite H in E. discriminate.
    + split; [exact Hne | now right].
Qed.

Lemma schema_path_returns (raw : jsstring) :
  exists r, schema_path raw = Returned r.
Proof.
  unfold schema_path.
  destruct (schema_block_cases (trim raw)) as [(r & -> & _)| ->];
    cbn [try_catch]; eauto.
Qed.

(** The two ways in which a result does not come from the braces. *)
Lemma not_from_braces (raw : jsstring) :
  ~ (schema_path raw = Returned None
     /\ exists question, structured_path raw = Returned (Some question)) ->
  (exists single, schema_path raw = Returned (Some single))
  \/ (schema_path raw = Returned None /\ structured_path raw = Returned None).
Proof.
  intros H. destruct (schema_path_returns raw) as [[single|] E]; [eauto|].
  right. split; [exact E|].
  destruct (structured_path_returns raw) as [[q|] S]; [|exact S].
  exfalso. apply H. eauto.
Qed.

Lemma generateQuestion_schema (raw single : jsstring) :
  schema_path raw = Returned (Some single) ->
  generateQuestion (Some raw) = Returned single
  /\ exists question, single = keep_first_question question.
Proof.
  intros E. split.
  - unfold generateQuestion. rewrite generateQuestion_body_unfold, or_else_some.
    fold (schema_path raw). now rewrite E.
  - unfold schema_path in E.
    destruct (schema_block_cases (trim raw)) as [(r & Er & Hr)| Er];
      rewrite Er in E; cbn [try_catch] in E; [|discriminate].
    apply Returned_inj in E. subst r.
    now destruct (Hr single eq_refl) as (_ & question & ->); eauto.
Qed.

Lemma generateQuestion_fallback (raw : jsstring) :
  schema_path raw = Returned None ->
  structured_path raw = Returned None ->
  generateQuestion (Some raw) = Returned (service_fallback (trim raw)).
Proof.
  intros E S. unfold generateQuestion.
  rewrite generateQuestion_body_unfold, or_else_some.
  fold (schema_path raw). rewrite E. cbn [bind].
  fold (structured_path raw). now rewrite S.
Qed.

(** X5. Unless the question comes from the JSON object found between
    braces (the schema path gives nothing and the structured path gives a
    question), what [generateQuestion] returns is trimmed and written with
    single spaces (no tab, no line break): this holds for a result of the
    schema path and for a result of the fallback.  When the schema path
    gave nothing, the result is the fixed retry message or a text closed
    by a question mark. *)
Theorem generateQuestion_tidy (raw q : jsstring) :
  ~ (schema_path raw = Returned None
     /\ exists question, structured_path raw = Returned (Some question)) ->
  generateQuestion (Some raw) = Returned q ->
  (trim q = q /\ single_spaced q = true /\ includes 10 q = false)
  /\ (schema_path raw = Returned None ->
      q = trouble_message \/ endsWith c_qmark q = true).
Proof.
  intros Hn.
  assert (G : forall x, trim x = x /\ single_spaced x = true ->
                        trim x = x /\ single_spaced x = true /\ includes 10 x = false).
  { intros x [T S]. repeat split; try assumption.
    now apply single_spaced_no_line_feed. }
  destruct (not_from_braces raw Hn) as [[single E] | [E S]].
  - destruct (generateQuestion_schema raw single E) as [-> (question & ->)].
    intros H. apply Returned_inj in H. subst q.
    split; [|rewrite E; discriminate].
    apply G, keep_first_question_tidy.
  - rewrite (generateQuestion_fallback raw E S).
    intros H. apply Returned_inj in H. subst q.
    destruct (service_fallback_shape (trim raw)) as (TS & _ & He).
    split; [now apply G | intros _; exact He].
Qed.

Lemma generateQuestion_tidy_witness :
  (trim (js "What is X?") = js "What is X?"
   /\ single_spaced (js "What is X?") = true
   /\ includes 10 (js "What is X?") = false)
  /\ (trim (js "Tell me about REST.?") = js "Tell me about REST.?"
      /\ single_spaced (js "Tell me about REST.?") = true
      /\ includes 10 (js "Tell me about REST.?") = false).
Proof.
  split.
  - refine (proj1 (generateQuestion_tidy (jsq "{'question':'What  is X?  Also Y?'}")
                     (js "What is X?") _ _)).
    + intros [H _]. vm_compute in H. discriminate.
    + vm_compute. reflexivity.
  - refine (proj1 (generateQuestion_tidy
                     (js "Sure!" ++ LF ++ js "Tell  me about REST. Then SOAP")
                     (js "Tell me about REST.?") _ _)).
    + intros [_ [question H]]. vm_compute in H. discriminate.
    + vm_compute. reflexivity.
Defined.

(* ------------------------------------------------------------------ *)
(** *** Lines *)

Lemma newline_match_at (b a : jsstring) :
  match_at re_newline b a
  = match a with
    | x :: r =>
        if x =? 10 then Some (x :: b, r)
        else if x =? 13 then
               match r with
               | y :: r' => if y =? 10 then Some (y :: x :: b, r') else None
               | [] => None
               end
             else None
    | [] => None
    end.
Proof.
  rewrite match_at_unfold. unfold re_newline, Opt.
  cbn [source ignoreCase]. rewrite m_seq, m_alt. cbn [m chr_matches].
  destruct a as [|x r]; [reflexivity|].
  rewrite (N.eqb_sym 13 x), (N.eqb_sym 10 x).
  destruct (x =? 13) eqn:E13.
  - assert (E10 : (x =? 10) = false)
      by (apply N.eqb_eq in E13; subst x; reflexivity).
    rewrite E10. destruct r as [|y r']; [reflexivity|].
    rewrite (N.eqb_sym 10 y). unfold accept. now destruct (y =? 10).
  - unfold accept. now destruct (x =? 10).
Qed.

Lemma includes_rev (c : char) (s : jsstring) :
  includes c (rev s) = includes c s.
Proof.
  induction s as [|x r IH]; [reflexivity|]. cbn [rev].
  rewrite includes_app, IH. unfold includes at 2 3. cbn [existsb].
  rewrite orb_false_r. apply orb_comm.
Qed.

Lemma split_from_no_line_feed (a : jsstring) :
  forall b seg skip,
    no_line_feed seg ->
    Forall no_line_feed (split_from re_newline b a seg skip).
Proof.
  unfold no_line_feed.
  induction a as [|c a IH]; intros b seg skip Hseg; cbn [split_from].
  - constructor; [|constructor]. now rewrite includes_rev.
  - destruct skip as [|n]; [|now apply IH].
    assert (Hrev : includes 10 (rev seg) = false) by (now rewrite includes_rev).
    rewrite newline_match_at.
    destruct (c =? 10) eqn:E10.
    { unfold match_length. cbn [fst List.length].
      rewrite Nat.sub_succ_l, Nat.sub_diag by lia.
      constructor; [exact Hrev | now apply IH]. }
    assert (Hc : includes 10 (c :: seg) = false).
    { unfold includes in *. cbn [existsb]. now rewrite N.eqb_sym, E10, Hseg. }
    destruct (c =? 13).
    + destruct a as [|y a']; [now apply IH|].
      destruct (y =? 10); [|now apply IH].
      unfold match_length. cbn [fst List.length].
      replace (S (S (List.length b)) - List.length b)%nat with 2%nat by lia.
      constructor; [exact Hrev | now apply IH].
    + now apply IH.
Qed.

Lemma lines_no_line_feed (text : jsstring) :
  Forall no_line_feed (lines_of text).
Proof.
  unfold lines_of. apply Forall_forall. intros l H.
  apply filter_In in H as [H _]. apply in_map_iff in H as (p & <- & Hp).
  assert (F : Forall no_line_feed (split re_newline text)).
  { unfold split. destruct text as [|c t].
    - destruct (match_at re_newline [] []); repeat constructor.
    - now apply split_from_no_line_feed. }
  rewrite Forall_forall in F. specialize (F p Hp). unfold no_line_feed in *.
  destruct (trim_infix p) as (u & v & E). rewrite E in F.
  now apply includes_infix in F.
Qed.

(** The candidate of steps 1) to 3) is a line, a line without its item
    number, or empty. *)
Lemma pick_candidate_source (lines : list jsstring) :
  exists l, pick_candidate lines = Some l
            /\ (In l lines \/ In l (List.map strip_item_number lines) \/ l = []).
Proof.
  unfold pick_candidate, find. cbv zeta.
  set (c1 := List.find (includes c_qmark) lines).
  set (c2 := if negb (truthy_opt c1)
             then List.find (test questionWordRegex) lines else c1).
  assert (H2 : forall l, c2 = Some l -> In l lines).
  { intros l. subst c2.
    destruct (negb (truthy_opt c1)); [|subst c1]; intros H;
      now apply find_some in H as [H _]. }
  destruct c2 as [l|] eqn:E; cbn [truthy_opt].
  - destruct (truthy l); cbn [negb].
    + exists l. split; [reflexivity | left; now apply H2].
    + rewrite (map_ext _ _ item_number_replace).
      destruct (List.find _ (List.map strip_item_number lines)) as [n|] eqn:En;
        cbn [or_else].
      * apply find_some in En as [Hin Hn]. apply andb_true_iff in Hn as [-> _].
        exists n. split; [reflexivity | right; now left].
      * destruct lines as [|l0 ls]; cbn [index0 hd_error or_else].
        -- exists []. split; [reflexivity | now right; right].
        -- destruct (truthy l0); [exists l0 | exists []];
             (split; [reflexivity|]); [left; now left | now right; right].
  - cbn [negb]. rewrite (map_ext _ _ item_number_replace).
    destruct (List.find _ (List.map strip_item_number lines)) as [n|] eqn:En;
      cbn [or_else].
    + apply find_some in En as [Hin Hn]. apply andb_true_iff in Hn as [-> _].
      exists n. split; [reflexivity | right; now left].
    + destruct lines as [|l0 ls]; cbn [index0 hd_error or_else].
      * exists []. split; [reflexivity | now right; right].
      * destruct (truthy l0); [exists l0 | exists []];
          (split; [reflexivity|]); [left; now left | now right; right].
Qed.

Lemma strip_item_number_suffix (s : jsstring) :
  exists u, s = u ++ strip_item_number s.
Proof.
  unfold strip_item_number.
  destruct (take_while is_digit s) as [|d ds] eqn:E; [exists []; reflexivity|].
  destruct (drop_while is_digit s) as [|c r] eqn:D; [exists []; reflexivity|].
  destruct (dot_or_rparen c); [|exists []; reflexivity].
  exists (take_while is_digit s ++ [c] ++ take_while is_space r).
  rewrite <- !app_assoc, take_drop_while. cbn [app]. rewrite <- D.
  now rewrite take_drop_while.
Qed.

Lemma candidate_no_line_feed (raw : jsstring) :
  no_line_feed (candidate_of raw).
Proof.
  unfold candidate_of, strip_candidate.
  set (lines := lines_of (cleanText (trim raw))).
  destruct (pick_candidate_source lines) as (l & -> & Hl).
  assert (L : no_line_feed l).
  { pose proof (lines_no_line_feed (cleanText (trim raw))) as F.
    fold lines in F. rewrite Forall_forall in F.
    destruct Hl as [H | [H | ->]]; [now apply F| |reflexivity].
    apply in_map_iff in H as (x & <- & Hx). specialize (F x Hx).
    unfold no_line_feed in *.
    destruct (strip_item_number_suffix x) as [u E]. rewrite E in F.
    rewrite includes_app in F. now apply orb_false_iff in F as [_ F]. }
  assert (O : no_line_feed (or_else (Some l) [])).
  { cbn [or_else]. now destruct (truthy l). }
  unfold no_line_feed in *.
  rewrite item_number_replace. change re_label with (label_pattern colon_space).
  rewrite label_replace.
  set (x := or_else (Some l) []) in *.
  destruct (strip_item_number_suffix x) as [u1 E1].
  destruct (strip_label_suffix colon_space (strip_item_number x)) as [u2 E2].
  destruct (trim_infix (strip_label colon_space (strip_item_number x)))
    as (u3 & v3 & E3).
  rewrite E1, includes_app in O. apply orb_false_iff in O as [_ O].
  rewrite E2, includes_app in O. apply orb_false_iff in O as [_ O].
  rewrite E3 in O. now apply includes_infix in O.
Qed.

(** X6. A question that [parseModelQuestion] takes from its fallback is
    one line: it holds no line feed. *)
Theorem fallback_question_one_line (raw q : jsstring) :
  structured_path raw = Returned None ->
  parseModelQuestion raw = Returned (Some q) ->
  includes 10 q = false.
Proof.
  intros Hs. rewrite (parseModelQuestion_fallback raw Hs).
  intros H. apply Returned_inj in H.
  pose proof (candidate_no_line_feed raw) as L. unfold no_line_feed in L.
  set (c := candidate_of raw) in *.
  assert (C : includes 10 (if includes c_qmark c then cut_at_qmark c else c) = false).
  { destruct (includes c_qmark c); [|exact L]. unfold cut_at_qmark.
    destruct (truthy (trim (before_first is_qmark c))); [|exact L].
    rewrite includes_app. apply orb_false_iff. split; [|reflexivity].
    apply includes_trim_false.
    destruct (before_first_prefix is_qmark c) as [v E]. rewrite E in L.
    rewrite includes_app in L. now apply orb_false_iff in L as [L _]. }
  apply finish_some in H as [_ [[_ ->] | [_ ->]]]; [exact C|].
  rewrite includes_app, C. reflexivity.
Qed.

Lemma fallback_question_one_line_witness :
  includes 10 (js "What is Big O?") = false.
Proof.
  apply (fallback_question_one_line
           (js "Here are some questions:" ++ LF ++ js "1) What is Big O?" ++ LF
              ++ js "2) How do you reverse a linked list?")
           (js "What is Big O?")); vm_compute; reflexivity.
Defined.

(* ------------------------------------------------------------------ *)
(** *** What stands after a clean question *)

Lemma strip_item_number_head (c : char) (r : jsstring) :
  is_digit c = false -> strip_item_number (c :: r) = c :: r.
Proof. intros H. unfold strip_item_number. cbn [take_while]. now rewrite H. Qed.

Lemma strip_numbering_head (c : char) (r : jsstring) :
  is_digit c = false -> strip_numbering (c :: r) = c :: r.
Proof. intros H. unfold strip_numbering. cbn [take_while]. now rewrite H. Qed.

Lemma question_number_head (c : char) (r : jsstring) :
  chr_matches true 81 c = false ->
  replace re_question_number [] (c :: r) = c :: r.
Proof.
  intros Hq. unfold re_question_number. rewrite replace_anchored, m_seq.
  cbn [js list_ascii_of_string List.map Lit]. rewrite m_seq.
  change (N_of_ascii "Q") with 81.
  assert (E : chr_matches false 81 c = false).
  { unfold chr_matches in *. destruct (81 =? c) eqn:E; [|reflexivity].
    apply N.eqb_eq in E. subst c. discriminate. }
  cbn [m]. now rewrite E.
Qed.

Lemma prefix_ci_app_free (q : char) (w0 : jsstring) :
  free_of q w0 = true ->
  forall x t,
    (prefix_ci w0 (x ++ [q]) = None /\ prefix_ci w0 (x ++ q :: t) = None)
    \/ (exists r, prefix_ci w0 (x ++ [q]) = Some (r ++ [q])
                  /\ prefix_ci w0 (x ++ q :: t) = Some (r ++ q :: t)).
Proof.
  unfold free_of. induction w0 as [|c0 w0 IH]; intros Hf x t.
  - right. exists x. now split.
  - cbn [forallb] in Hf. apply andb_true_iff in Hf as [Hc Hf].
    apply negb_true_iff in Hc.
    destruct x as [|y x]; cbn [app prefix_ci].
    + rewrite Hc. now left.
    + destruct (chr_matches true c0 y); [now apply IH | now left].
Qed.

Lemma is_word_at_app (r t : jsstring) :
  r <> [] -> is_word_at (r ++ t) = is_word_at r.
Proof. destruct r; [congruence | reflexivity]. Qed.

Lemma word_at_app_free (q : char) (w0 b x t : jsstring) :
  free_of q w0 = true ->
  word_at b (x ++ q :: t) w0 = word_at b (x ++ [q]) w0.
Proof.
  intros Hf. unfold word_at.
  destruct (prefix_ci_app_free q w0 Hf x t) as [[-> ->] | (r & -> & ->)];
    [reflexivity|].
  change (r ++ q :: t) with (r ++ [q] ++ t). rewrite app_assoc.
  rewrite is_word_at_app; [reflexivity | now destruct r].
Qed.

Lemma existsb_word_at_app (q : char) (ws : list jsstring) (b x t : jsstring) :
  Forall (fun w0 => free_of q w0 = true) ws ->
  existsb (word_at b (x ++ q :: t)) ws = existsb (word_at b (x ++ [q])) ws.
Proof.
  induction 1 as [|w0 ws H0 _ IH]; [reflexivity|]. cbn [existsb].
  now rewrite IH, (word_at_app_free q w0 b x t H0).
Qed.

Lemma before_word_app (q : char) (ws : list jsstring) (t : jsstring) :
  Forall (fun w0 => free_of q w0 = true) ws ->
  forall x b,
    occurs_from ws b (x ++ [q]) = false ->
    before_word ws b (x ++ q :: t)
    = x ++ q :: before_word ws (q :: rev x ++ b) t.
Proof.
  intros Hws. induction x as [|c x IH]; intros b H.
  - cbn [app occurs_from] in H. apply orb_false_iff in H as [H _].
    cbn [app before_word rev].
    change (q :: t) with ([] ++ q :: t).
    rewrite (existsb_word_at_app q ws b [] t Hws). cbn [app]. now rewrite H.
  - cbn [app occurs_from] in H. apply orb_false_iff in H as [H1 H2].
    cbn [app before_word].
    change (c :: x ++ q :: t) with ((c :: x) ++ q :: t).
    rewrite (existsb_word_at_app q ws b (c :: x) t Hws). cbn [app].
    rewrite H1, (IH (c :: b) H2). cbn [rev]. now rewrite <- app_assoc.
Qed.

Lemma connectors_free_of_qmark :
  Forall (fun w0 => free_of c_qmark w0 = true) (List.map js connectors).
Proof. repeat constructor. Qed.

Lemma trimEnd_app_last (x y : jsstring) (q : char) :
  is_space q = false -> trimEnd ((x ++ [q]) ++ y) = (x ++ [q]) ++ trimEnd y.
Proof.
  intros Hq. unfold trimEnd. rewrite !rev_app_distr. cbn [rev app].
  destruct (drop_while is_space (rev y)) as [|c r] eqn:E.
  - rewrite (drop_while_app_all is_space (rev y) _ (drop_while_nil_all _ _ E)).
    rewrite (drop_while_stop is_space q (rev x) Hq).
    cbn [rev]. now rewrite rev_involutive, app_nil_r.
  - rewrite (drop_while_app_stop is_space (rev y) _ c r E).
    change (c :: r ++ q :: rev x) with ((c :: r) ++ q :: rev x).
    rewrite rev_app_distr. cbn [rev]. now rewrite rev_involutive.
Qed.

Lemma trim_app_last (x y : jsstring) (q : char) :
  starts_clean (x ++ [q]) = true -> is_space q = false ->
  trim ((x ++ [q]) ++ y) = (x ++ [q]) ++ trimEnd y.
Proof.
  intros Hs Hq. unfold trim, trimStart. rewrite drop_while_clean.
  - now apply trimEnd_app_last.
  - destruct x; exact Hs.
Qed.

Lemma collapse_spaces_app_last (x y : jsstring) (q : char) :
  is_space q = false ->
  collapse_spaces ((x ++ [q]) ++ y) = collapse_spaces (x ++ [q]) ++ collapse_spaces y.
Proof.
  intros Hq. induction x as [|c x IH]; cbn [app collapse_spaces].
  - now rewrite Hq.
  - cbn [app] in IH. rewrite IH.
    destruct (is_space c); [|reflexivity].
    destruct x as [|c' x]; cbn [app].
    + now rewrite Hq.
    + now destruct (is_space c').
Qed.

Lemma split_from_first (a : jsstring) :
  forall b seg, exists t1 ps,
    split_from re_newline b a seg 0 = (rev seg ++ t1) :: ps.
Proof.
  induction a as [|c a IH]; intros b seg; cbn [split_from].
  - exists [], []. now rewrite app_nil_r.
  - rewrite newline_match_at.
    assert (Rec : exists t1 ps,
               split_from re_newline (c :: b) a (c :: seg) 0 = (rev seg ++ t1) :: ps).
    { destruct (IH (c :: b) (c :: seg)) as (t1 & ps & E).
      exists (c :: t1), ps. rewrite E. cbn [rev]. now rewrite <- app_assoc. }
    destruct (c =? 10).
    { unfold match_length. cbn [fst List.length].
      rewrite Nat.sub_succ_l, Nat.sub_diag by lia.
      eexists [], _. now rewrite app_nil_r. }
    destruct (c =? 13); [|exact Rec].
    destruct a as [|y a']; [exact Rec|].
    destruct (y =? 10); [|exact Rec].
    unfold match_length. cbn [fst List.length].
    replace (S (S (List.length b)) - List.length b)%nat with 2%nat by lia.
    eexists [], _. now rewrite app_nil_r.
Qed.

Lemma split_from_within (q : char) (y : jsstring) :
  (q =? 10) = false -> (q =? 13) = false ->
  forall x b seg,
    includes 10 x = false ->
    exists t1 ps,
      split_from re_newline b (x ++ q :: y) seg 0 = (rev seg ++ x ++ q :: t1) :: ps.
Proof.
  intros H10 H13. induction x as [|c x IH]; intros b seg Hx.
  - cbn [app split_from]. rewrite newline_match_at, H10, H13.
    destruct (split_from_first y (q :: b) (q :: seg)) as (t1 & ps & E).
    exists t1, ps. rewrite E. cbn [rev]. now rewrite <- app_assoc.
  - unfold includes in Hx. cbn [existsb] in Hx.
    apply orb_false_iff in Hx as [Hc Hx]. rewrite N.eqb_sym in Hc.
    cbn [app split_from]. rewrite newline_match_at, Hc.
    assert (Rec : exists t1 ps,
               split_from re_newline (c :: b) (x ++ q :: y) (c :: seg) 0
               = (rev seg ++ c :: x ++ q :: t1) :: ps).
    { destruct (IH (c :: b) (c :: seg) Hx) as (t1 & ps & E).
      exists t1, ps. rewrite E. cbn [rev]. now rewrite <- app_assoc. }
    destruct (c =? 13); [|exact Rec].
    destruct x as [|c' x']; cbn [app].
    + now rewrite H10.
    + unfold includes in Hx. cbn [existsb] in Hx.
      apply orb_false_iff in Hx as [Hc' _]. rewrite N.eqb_sym in Hc'.
      now rewrite Hc'.
Qed.

Lemma space_is_not (q : char) :
  is_space q = false -> (q =? 10) = false /\ (q =? 13) = false.
Proof.
  intros H. split.
  - destruct (q =? 10) eqn:E; [|reflexivity].
    apply N.eqb_eq in E. subst q. discriminate.
  - destruct (q =? 13) eqn:E; [|reflexivity].
    apply N.eqb_eq in E. subst q. discriminate.
Qed.

(** The first line of a text that begins with a line-feed-free part [x q]. *)
Lemma lines_first (x y : jsstring) (q : char) :
  starts_clean (x ++ [q]) = true -> is_space q = false ->
  includes 10 x = false ->
  exists t1 ls,
    lines_of ((x ++ [q]) ++ y) = ((x ++ [q]) ++ t1) :: ls.
Proof.
  intros Hs Hq Hx. destruct (space_is_not q Hq) as [H10 H13].
  unfold lines_of, split.
  destruct ((x ++ [q]) ++ y) as [|c0 r0] eqn:E; [now destruct x|].
  rewrite <- E, <- app_assoc. cbn [app].
  destruct (split_from_within q y H10 H13 x [] [] Hx) as (t1 & ps & ->).
  cbn [rev app List.map filter].
  change (x ++ q :: t1) with (x ++ [q] ++ t1). rewrite app_assoc.
  rewrite (trim_app_last x t1 q Hs Hq).
  assert (T : truthy ((x ++ [q]) ++ trimEnd t1) = true) by (now destruct x).
  rewrite T. eauto.
Qed.

Lemma pick_candidate_first (l1 : jsstring) (ls : list jsstring) :
  includes c_qmark l1 = true -> pick_candidate (l1 :: ls) = Some l1.
Proof.
  intros H. unfold pick_candidate, find. cbn [List.find]. rewrite H.
  cbn [truthy_opt].
  assert (T : truthy l1 = true) by (destruct l1; [discriminate | reflexivity]).
  rewrite T. cbn [negb truthy_opt]. now rewrite T.
Qed.

Lemma no_lbrace_structured (raw : jsstring) :
  includes c_lbrace raw = false -> structured_path raw = Returned None.
Proof.
  intros H. unfold structured_path, parse_json_block.
  rewrite braces_match0, greedy_braces_trim. unfold greedy_braces.
  fold not_lbrace. rewrite drop_while_all; [reflexivity|].
  unfold includes in H. induction raw as [|c r IH]; [reflexivity|].
  cbn [existsb forallb] in *. apply orb_false_iff in H as [Hc Hr].
  rewrite (IH Hr), andb_true_r. unfold not_lbrace. now rewrite N.eqb_sym, Hc.
Qed.

(** A reply that does not begin with a brace is not an object for the
    schema path. *)
Lemma schema_path_head (raw : jsstring) (c : char) (r : jsstring) :
  trim raw = c :: r -> (c =? c_lbrace) = false ->
  schema_path raw = Returned None.
Proof.
  intros Et Hc. unfold schema_path, schema_block. rewrite Et.
  destruct (JSON_parse (c :: r)) as [v| |] eqn:E; cbn [bind try_catch];
    try reflexivity.
  - destruct v; try reflexivity.
    apply JSON_parse_object in E as [t E].
    pose proof (trimmed_trim raw) as T. rewrite Et in T.
    unfold trimmed in T. apply andb_true_iff in T as [T _].
    cbn [starts_clean] in T. apply negb_true_iff in T.
    unfold skip_ws in E. cbn [drop_while] in E.
    destruct (is_json_ws c) eqn:J.
    + apply json_ws_is_space in J. congruence.
    + injection E as -> _. discriminate.
  - destruct (JSON_parse_total (c :: r)) as [[v H]|H]; congruence.
Qed.

Lemma before_first_app_tail (w t : jsstring) :
  includes c_qmark w = false -> before_first is_qmark (w ++ c_qmark :: t) = w.
Proof.
  unfold includes, before_first, is_qmark.
  induction w as [|x r IH]; [reflexivity|].
  cbn [existsb app take_while]. intros H.
  apply orb_false_iff in H as [Hx Hr].
  rewrite N.eqb_sym in Hx. rewrite Hx. cbn [negb]. now rewrite (IH Hr).
Qed.

Lemma has_label_head (c : char) (r : jsstring) :
  has_label (c :: r) = false ->
  chr_matches true 81 c = false /\ prefix_ci (js "Ask") (c :: r) = None.
Proof.
  unfold has_label. cbn [js list_ascii_of_string List.map prefix_ci].
  change (N_of_ascii "Q") with 81.
  destruct (chr_matches true 81 c); [discriminate|].
  intros H. split; [reflexivity|].
  destruct (if chr_matches true (N_of_ascii "A") c then _ else _);
    [discriminate | reflexivity].
Qed.

Section AfterQuestion.

Variable w : jsstring.
Hypothesis clean : clean_question w = true.

Let s : jsstring := w ++ [c_qmark].

Lemma after_starts_clean : starts_clean s = true.
Proof.
  destruct (clean_head w clean) as (c & r & E & _ & Hs & _).
  fold s in E. rewrite E. cbn [starts_clean]. now rewrite Hs.
Qed.

Lemma after_trim (t : jsstring) : trim (s ++ t) = s ++ trimEnd t.
Proof. apply trim_app_last; [apply after_starts_clean | reflexivity]. Qed.

Lemma after_includes (t : jsstring) : includes c_qmark (s ++ t) = true.
Proof. unfold s. now rewrite includes_app, (clean_includes w). Qed.

Lemma after_cut (t : jsstring) : cut_at_qmark (s ++ t) = s.
Proof.
  destruct (clean_parts w clean) as (Hne & Ht & Hp & _).
  unfold cut_at_qmark. subst s. rewrite <- app_assoc. cbn [app].
  rewrite (before_first_app_tail w t (plain_no_qmark w Hp)), (trim_trimmed w Ht).
  now apply truthy_nonempty in Hne as ->.
Qed.

Lemma after_item_number (t : jsstring) : strip_item_number (s ++ t) = s ++ t.
Proof.
  destruct (clean_head w clean) as (c & r & E & _ & _ & Hd & _).
  fold s in E. rewrite E. now apply strip_item_number_head.
Qed.

Lemma after_numbering (t : jsstring) : strip_numbering (s ++ t) = s ++ t.
Proof.
  destruct (clean_head w clean) as (c & r & E & _ & _ & Hd & _).
  fold s in E. rewrite E. now apply strip_numbering_head.
Qed.

Lemma after_question_number (t : jsstring) :
  replace re_question_number [] (s ++ t) = s ++ t.
Proof.
  destruct (clean_head w clean) as (c & r & E & _ & _ & _ & Hq).
  fold s in E. rewrite E. now apply question_number_head.
Qed.

Lemma after_label (sep : char -> bool) (t : jsstring) :
  strip_label sep (s ++ t) = s ++ t.
Proof.
  destruct (clean_parts w clean) as (_ & _ & _ & _ & Hl & _).
  fold s in Hl. unfold has_label in Hl. unfold strip_label.
  subst s. rewrite <- app_assoc. cbn [app].
  assert (free : forall w0, free_of c_qmark (js w0) = true ->
                            prefix_ci (js w0) (w ++ [c_qmark]) = None ->
                            prefix_ci (js w0) (w ++ c_qmark :: t) = None).
  { intros w0 F N.
    destruct (prefix_ci_app_free c_qmark (js w0) F w t) as [[_ H]|(r & H & _)];
      [exact H | congruence]. }
  destruct (prefix_ci (js "Q") (w ++ [c_qmark])) eqn:EQ; [discriminate|].
  destruct (prefix_ci (js "Ask") (w ++ [c_qmark])) eqn:EA; [discriminate|].
  rewrite (free "Q"%string eq_refl EQ), (free "Ask"%string eq_refl EA).
  assert (EL : prefix_ci (js "Question") (w ++ c_qmark :: t) = None).
  { destruct w as [|c r]; cbn [app js list_ascii_of_string List.map prefix_ci] in EQ |- *.
    - reflexivity.
    - destruct (chr_matches true (N_of_ascii "Q") c); [discriminate | reflexivity]. }
  now rewrite EL.
Qed.

Lemma after_collapse (t : jsstring) :
  collapse_spaces (s ++ t) = s ++ collapse_spaces t.
Proof.
  destruct (clean_parts w clean) as (_ & _ & _ & _ & _ & Hc & _).
  fold s in Hc. subst s.
  rewrite (collapse_spaces_app_last w t c_qmark eq_refl). now rewrite Hc.
Qed.

Lemma after_connectors (t : jsstring) :
  exists u, before_word (List.map js connectors) [] (s ++ t) = s ++ u.
Proof.
  destruct (clean_parts w clean) as (_ & _ & _ & _ & _ & _ & Ho).
  fold s in Ho. subst s. rewrite <- app_assoc. cbn [app].
  rewrite (before_word_app c_qmark _ t connectors_free_of_qmark w [] Ho).
  eexists. rewrite <- app_assoc. reflexivity.
Qed.

(** [keepOnlyFirstQuestion] on a line that begins with the clean question. *)
Lemma after_keep (t : jsstring) : keep_first_question (s ++ t) = s.
Proof.
  unfold keep_first_question.
  rewrite after_collapse, after_trim, after_numbering, after_label, after_trim.
  destruct (after_connectors (trimEnd (trimEnd (collapse_spaces t)))) as [u ->].
  now rewrite after_trim, after_includes, after_cut.
Qed.

(** The last steps of the script on such a line. *)
Lemma after_candidate (t : jsstring) :
  let c := strip_candidate (Some (s ++ t)) in
  finish (if includes c_qmark c then cut_at_qmark c else c) = Some s.
Proof.
  cbv zeta. unfold strip_candidate.
  assert (O : or_else (Some (s ++ t)) [] = s ++ t) by apply or_else_some.
  rewrite O, item_number_replace, after_item_number.
  change re_label with (label_pattern colon_space).
  rewrite label_replace, after_label, after_trim, after_includes, after_cut.
  apply (clean_finish w clean).
Qed.

Lemma after_one_line : includes 10 w = false.
Proof.
  destruct (clean_parts w clean) as (_ & _ & Hp & _).
  apply (plain_no_line_feed w Hp).
Qed.

Lemma after_lines (t : jsstring) :
  exists t1 ls, lines_of (s ++ t) = (s ++ t1) :: ls.
Proof.
  apply lines_first; [apply after_starts_clean | reflexivity | apply after_one_line].
Qed.

Lemma after_pick (t : jsstring) :
  exists t1, pick_candidate (lines_of (s ++ t)) = Some (s ++ t1).
Proof.
  destruct (after_lines t) as (t1 & ls & ->). exists t1.
  apply pick_candidate_first, after_includes.
Qed.

(** The script, once the clean-up of the reply has left the question
    followed by some text. *)
Lemma script_after (raw t : jsstring) :
  structured_path raw = Returned None ->
  cleanText (trim raw) = s ++ t ->
  parseModelQuestion raw = Returned (Some s).
Proof.
  intros Hs Hc. rewrite (parseModelQuestion_fallback raw Hs).
  unfold candidate_of. rewrite Hc.
  destruct (after_pick t) as [t1 ->]. f_equal. apply after_candidate.
Qed.

Lemma service_after (raw t : jsstring) :
  schema_path raw = Returned None ->
  structured_path raw = Returned None ->
  cleanText_g (trim raw) = s ++ t ->
  generateQuestion (Some raw) = Returned s.
Proof.
  intros H1 H2 Hc. unfold generateQuestion.
  rewrite generateQuestion_body_unfold, or_else_some.
  fold (schema_path raw). rewrite H1. cbn [bind].
  fold (structured_path raw). rewrite H2. cbn [bind try_catch].
  unfold service_fallback. rewrite Hc.
  destruct (after_pick t) as [t1 ->]. rewrite or_else_some, after_keep.
  pose proof (clean_finish w clean) as F. fold s in F. unfold finish in F.
  destruct (negb (truthy (with_question_mark s))
            || str_eqb (with_question_mark s) [c_qmark]); [discriminate|].
  now injection F as ->.
Qed.

End AfterQuestion.

(* ------------------------------------------------------------------ *)
(** *** Replies that begin with a clean question *)

Lemma includes_forallb (x : char) (p : char -> bool) (l : jsstring) :
  p x = false -> forallb p l = true -> includes x l = false.
Proof.
  intros Hx. unfold includes. induction l as [|c r IH]; [reflexivity|].
  cbn [forallb existsb]. intros H. apply andb_true_iff in H as [Hc Hr].
  rewrite (IH Hr), orb_false_r.
  destruct (x =? c) eqn:E; [|reflexivity].
  apply N.eqb_eq in E. subst c. congruence.
Qed.

Lemma trimEnd_clean (t : jsstring) :
  starts_clean (rev t) = true -> trimEnd t = t.
Proof.
  intros H. unfold trimEnd. rewrite (drop_while_clean _ H). apply rev_involutive.
Qed.

Lemma trimEnd_idem (t : jsstring) : trimEnd (trimEnd t) = trimEnd t.
Proof.
  apply trimEnd_clean. unfold trimEnd. rewrite rev_involutive.
  induction (rev t) as [|c r IH]; [reflexivity|].
  cbn [drop_while]. destruct (is_space c) eqn:E; [exact IH|].
  cbn [starts_clean]. now rewrite E.
Qed.

Lemma includes_trimEnd (x : char) (t : jsstring) :
  includes x t = false -> includes x (trimEnd t) = false.
Proof.
  intros H. destruct (trimEnd_split t) as (sp & E & _).
  rewrite E, includes_app in H. now apply orb_false_iff in H as [H _].
Qed.

Section Replies.

Variable w : jsstring.
Hypothesis clean : clean_question w = true.

Let s : jsstring := w ++ [c_qmark].

Lemma after_no_lbrace (t : jsstring) :
  includes c_lbrace t = false -> includes c_lbrace (s ++ t) = false.
Proof.
  intros H. destruct (clean_parts w clean) as (_ & _ & Hp & _).
  unfold s. rewrite !includes_app, H, orb_false_r.
  apply orb_false_iff. split; [|reflexivity].
  apply (includes_forallb c_lbrace plain_char); [reflexivity | exact Hp].
Qed.

Lemma after_head : exists c r, w = c :: r /\ (c =? c_lbrace) = false
                               /\ is_space c = false.
Proof.
  destruct (clean_parts w clean) as (Hne & Ht & Hp & _).
  destruct w as [|c r]; [congruence|]. exists c, r.
  cbn [forallb] in Hp. apply andb_true_iff in Hp as [Hc _].
  unfold plain_char in Hc. apply andb_true_iff in Hc as [Hc _].
  apply andb_true_iff in Hc as [_ Hc]. apply negb_true_iff in Hc.
  unfold trimmed in Ht. apply andb_true_iff in Ht as [Ht _].
  cbn [starts_clean] in Ht. apply negb_true_iff in Ht. auto.
Qed.

Lemma after_cleanText (t : jsstring) :
  cleanText (s ++ t) = s ++ trimEnd t /\ cleanText_g (s ++ t) = s ++ trimEnd t.
Proof.
  unfold cleanText, cleanText_g.
  rewrite item_number_replace, numbering_replace.
  rewrite (after_item_number w clean), (after_numbering w clean).
  rewrite (after_question_number w clean), (after_trim w clean). now split.
Qed.

(** A reply that is the clean question followed by brace-free text. *)
Lemma reply_after (tail : jsstring) :
  includes c_lbrace tail = false ->
  parseModelQuestion (s ++ tail) = Returned (Some s)
  /\ generateQuestion (Some (s ++ tail)) = Returned s.
Proof.
  intros Hb.
  assert (St : structured_path (s ++ tail) = Returned None)
    by (apply no_lbrace_structured, after_no_lbrace, Hb).
  assert (Sc : schema_path (s ++ tail) = Returned None).
  { destruct after_head as (c & r & E & Hc & _).
    apply (schema_path_head _ c ((r ++ [c_qmark]) ++ trimEnd tail)); [|exact Hc].
    rewrite (after_trim w clean). unfold s. now rewrite E. }
  destruct (after_cleanText (trimEnd tail)) as [C1 C2].
  split.
  - apply (script_after w clean _ (trimEnd (trimEnd tail)) St).
    now rewrite (after_trim w clean).
  - apply (service_after w clean _ (trimEnd (trimEnd tail)) Sc St).
    now rewrite (after_trim w clean).
Qed.

(** A reply whose clean-up leaves the clean question followed by
    brace-free text, behind a prefix [pre] that holds no brace and begins
    with a character that is neither white space nor a brace. *)
Lemma reply_behind (c0 : char) (pre tail : jsstring) :
  is_space c0 = false -> (c0 =? c_lbrace) = false ->
  includes c_lbrace pre = false -> includes c_lbrace tail = false ->
  (forall t, replace re_question_number []
               (replace re_item_number [] ((c0 :: pre) ++ s ++ t)) = s ++ t) ->
  (forall t, replace re_question_number []
               (replace re_numbering [] ((c0 :: pre) ++ s ++ t)) = s ++ t) ->
  parseModelQuestion ((c0 :: pre) ++ s ++ tail) = Returned (Some s)
  /\ generateQuestion (Some ((c0 :: pre) ++ s ++ tail)) = Returned s.
Proof.
  intros Hs Hc Hp Hb R1 R2.
  set (raw := (c0 :: pre) ++ s ++ tail).
  assert (Et : trim raw = (c0 :: pre) ++ s ++ trimEnd tail).
  { unfold raw, s. rewrite !app_assoc.
    apply (trim_app_last ((c0 :: pre) ++ w) tail c_qmark); [|reflexivity].
    cbn [app starts_clean]. now rewrite Hs. }
  assert (St : structured_path raw = Returned None).
  { apply no_lbrace_structured. unfold raw.
    rewrite includes_app, (after_no_lbrace tail Hb), orb_false_r.
    unfold includes in *. cbn [existsb]. rewrite Hp, orb_false_r.
    now rewrite N.eqb_sym. }
  assert (Sc : schema_path raw = Returned None).
  { apply (schema_path_head raw c0 (pre ++ s ++ trimEnd tail)); [exact Et | exact Hc]. }
  split.
  - apply (script_after w clean raw (trimEnd (trimEnd tail)) St).
    unfold cleanText. now rewrite Et, R1, (after_trim w clean).
  - apply (service_after w clean raw (trimEnd (trimEnd tail)) Sc St).
    unfold cleanText_g. now rewrite Et, R2, (after_trim w clean).
Qed.

End Replies.

Lemma take_while_app_stop (p : char -> bool) (ds : jsstring) (c : char) (r : jsstring) :
  forallb p ds = true -> p c = false ->
  take_while p (ds ++ c :: r) = ds /\ drop_while p (ds ++ c :: r) = c :: r.
Proof.
  intros Hd Hc. induction ds as [|d ds IH]; cbn [app take_while drop_while].
  - now rewrite Hc.
  - cbn [forallb] in Hd. apply andb_true_iff in Hd as [-> Hd].
    destruct (IH Hd) as [-> ->]. now split.
Qed.

Lemma dot_or_rparen_not_digit (c : char) :
  dot_or_rparen c = true -> is_digit c = false.
Proof.
  unfold dot_or_rparen. intros H. apply orb_true_iff in H as [H|H];
    apply N.eqb_eq in H; now subst c.
Qed.

Lemma digit_not_space (c : char) : is_digit c = true -> is_space c = false.
Proof.
  unfold is_digit, is_space. intros H. apply andb_true_iff in H as [A B].
  apply N.leb_le in A, B.
  repeat (apply orb_false_iff; split);
    try (apply N.eqb_neq; lia);
    apply andb_false_iff; ((left; apply N.leb_gt; lia) || (right; apply N.leb_gt; lia)).
Qed.

Lemma strip_item_number_hit (ds sp rest : jsstring) (sep : char) :
  ds <> [] -> forallb is_digit ds = true -> dot_or_rparen sep = true ->
  forallb is_space sp = true -> starts_clean rest = true ->
  strip_item_number (ds ++ sep :: sp ++ rest) = rest.
Proof.
  intros Hne Hd Hsep Hsp Hr. unfold strip_item_number.
  destruct (take_while_app_stop is_digit ds sep (sp ++ rest) Hd
              (dot_or_rparen_not_digit sep Hsep)) as [-> ->].
  destruct ds as [|d ds']; [congruence|]. rewrite Hsep.
  rewrite (drop_while_app_all is_space sp rest Hsp). now apply drop_while_clean.
Qed.

Lemma strip_numbering_hit (ds sp rest : jsstring) (sep : char) :
  ds <> [] -> forallb is_digit ds = true -> dot_or_rparen sep = true ->
  forallb is_space sp = true -> starts_clean rest = true ->
  hd_error rest <> Some c_rparen ->
  strip_numbering (ds ++ sep :: sp ++ rest) = rest.
Proof.
  intros Hne Hd Hsep Hsp Hr Hh. unfold strip_numbering.
  destruct (take_while_app_stop is_digit ds sep (sp ++ rest) Hd
              (dot_or_rparen_not_digit sep Hsep)) as [-> ->].
  destruct ds as [|d ds']; [congruence|].
  assert (D : drop_one (N.eqb c_rparen) (sp ++ rest) = sp ++ rest).
  { destruct sp as [|x sp']; cbn [app drop_one].
    - destruct rest as [|y r]; [reflexivity|]. cbn [drop_one].
      destruct (c_rparen =? y) eqn:E; [|reflexivity].
      apply N.eqb_eq in E. subst y. now contradiction Hh.
    - cbn [forallb] in Hsp. apply andb_true_iff in Hsp as [Hx _].
      destruct (c_rparen =? x) eqn:E; [|reflexivity].
      apply N.eqb_eq in E. subst x. discriminate. }
  unfold dot_or_rparen in Hsep. apply orb_true_iff in Hsep as [H|H];
    apply N.eqb_eq in H; subst sep; cbn [drop_one dot_only N.eqb c_dot c_rparen Pos.eqb].
  - rewrite D, (drop_while_app_all is_space sp rest Hsp). now apply drop_while_clean.
  - rewrite (drop_while_app_all is_space sp rest Hsp). now apply drop_while_clean.
Qed.

(** X7. Text after the first question is ignored: on a reply [w?]
    followed by any text without an opening brace, where the body [w]
    satisfies [clean_question] ([w] is not empty, has no white space at
    its start or its end, holds no question mark, opening brace or line
    feed, has no white space other than single spaces, does not begin
    with a digit, nor with q or Q, nor with ask in any letter case, and
    holds no connector as a whole word), both copies return [w?]. *)
Theorem first_question_wins (w tail : jsstring) :
  clean_question w = true ->
  includes c_lbrace tail = false ->
  parseModelQuestion (w ++ c_qmark :: tail) = Returned (Some (w ++ [c_qmark]))
  /\ generateQuestion (Some (w ++ c_qmark :: tail)) = Returned (w ++ [c_qmark]).
Proof.
  intros clean Hb.
  change (w ++ c_qmark :: tail) with (w ++ [c_qmark] ++ tail).
  rewrite app_assoc. now apply reply_after.
Qed.

Lemma first_question_wins_witness :
  parseModelQuestion (js "What is a closure? And how would you use one? Explain.")
  = Returned (Some (js "What is a closure?"))
  /\ generateQuestion (Some (js "What is a closure? And how would you use one? Explain."))
     = Returned (js "What is a closure?").
Proof.
  apply (first_question_wins (js "What is a closure")
           (js " And how would you use one? Explain."));
    vm_compute; reflexivity.
Defined.

(** X8. A leading item number is removed: on a reply made of one or more
    digits, a dot or a closing parenthesis, any white space, and then
    [w?] and any brace-free text, where [w] satisfies [clean_question]
    (the conditions listed at X7) and does not begin with a closing
    parenthesis, both copies return [w?]. *)
Theorem leading_number_removed (ds sp w tail : jsstring) (sep : char) :
  ds <> [] -> forallb is_digit ds = true ->
  dot_or_rparen sep = true ->
  forallb is_space sp = true ->
  clean_question w = true ->
  hd_error w <> Some c_rparen ->
  includes c_lbrace tail = false ->
  parseModelQuestion (ds ++ sep :: sp ++ w ++ c_qmark :: tail)
  = Returned (Some (w ++ [c_qmark]))
  /\ generateQuestion (Some (ds ++ sep :: sp ++ w ++ c_qmark :: tail))
     = Returned (w ++ [c_qmark]).
Proof.
  intros Hne Hd Hsep Hsp clean Hh Hb.
  destruct ds as [|d ds'] eqn:Eds; [congruence|]. rewrite <- Eds in *.
  assert (Hd0 : is_digit d = true).
  { rewrite Eds in Hd. cbn [forallb] in Hd. now apply andb_true_iff in Hd as [-> _]. }
  assert (shape : forall t,
             ds ++ sep :: sp ++ w ++ c_qmark :: t
             = (d :: ds' ++ sep :: sp) ++ (w ++ [c_qmark]) ++ t).
  { intros t. rewrite Eds. cbn [app]. rewrite <- !app_assoc. reflexivity. }
  assert (Sc : forall t, starts_clean ((w ++ [c_qmark]) ++ t) = true).
  { intros t. pose proof (after_starts_clean w clean) as H.
    destruct w; [discriminate|exact H]. }
  rewrite shape.
  apply (reply_behind w clean d (ds' ++ sep :: sp) tail).
  - now apply digit_not_space.
  - destruct (d =? c_lbrace) eqn:E; [|reflexivity].
    apply N.eqb_eq in E. subst d. discriminate.
  - rewrite includes_app. apply orb_false_iff. split.
    + apply (includes_forallb c_lbrace is_digit); [reflexivity|].
      rewrite Eds in Hd. cbn [forallb] in Hd. now apply andb_true_iff in Hd as [_ ->].
    + unfold includes. cbn [existsb].
      apply orb_false_iff. split.
      * destruct (c_lbrace =? sep) eqn:E; [|reflexivity].
        apply N.eqb_eq in E. subst sep. discriminate.
      * apply (includes_forallb c_lbrace is_space); [reflexivity | exact Hsp].
  - exact Hb.
  - intros t. rewrite <- shape, item_number_replace.
    change (w ++ c_qmark :: t) with (w ++ [c_qmark] ++ t).
    rewrite (app_assoc w [c_qmark] t).
    rewrite (strip_item_number_hit ds sp _ sep Hne Hd Hsep Hsp (Sc t)).
    apply (after_question_number w clean).
  - intros t. rewrite <- shape, numbering_replace.
    change (w ++ c_qmark :: t) with (w ++ [c_qmark] ++ t).
    rewrite (app_assoc w [c_qmark] t).
    rewrite (strip_numbering_hit ds sp _ sep Hne Hd Hsep Hsp (Sc t)).
    + apply (after_question_number w clean).
    + destruct w; [discriminate | exact Hh].
Qed.

Lemma leading_number_removed_witness :
  parseModelQuestion (js "12)  What is a closure? Also explain scope.")
  = Returned (Some (js "What is a closure?"))
  /\ generateQuestion (Some (js "12)  What is a closure? Also explain scope."))
     = Returned (js "What is a closure?").
Proof.
  apply (leading_number_removed (js "12") (js "  ") (js "What is a closure")
           (js " Also explain scope.") c_rparen);
    solve [vm_compute; reflexivity | discriminate].
Defined.

(* ------------------------------------------------------------------ *)
(** *** The pattern of a numbered question *)

Lemma m_lit_exact (W : jsstring) :
  forall b a k,
    m false (Lit W) b a k = None
    \/ exists rest, a = W ++ rest /\ m false (Lit W) b a k = k (rev W ++ b) rest.
Proof.
  induction W as [|c W IH]; intros b a k.
  - right. exists a. now split.
  - cbn [Lit]. rewrite m_seq. cbn [m].
    destruct a as [|x a']; [now left|].
    unfold chr_matches. destruct (c =? x) eqn:E; [|now left].
    apply N.eqb_eq in E. subst x.
    destruct (IH (c :: b) a' k) as [H | (rest & -> & H)]; [now left|].
    right. exists rest. split; [reflexivity|].
    rewrite H. cbn [rev]. now rewrite <- app_assoc.
Qed.

Lemma star_cls_blocked (p q : char -> bool) (k : cont) :
  (forall c, p c = true -> q c = false) ->
  (forall b a, head_in q a = false -> k b a = None) ->
  forall a b, head_in q (drop_while p a) = false -> star_cls p b a k = None.
Proof.
  intros Hpq Hk. induction a as [|c a IH]; intros b H; cbn [star_cls].
  - now apply Hk.
  - cbn [drop_while] in H. destruct (p c) eqn:E.
    + rewrite (IH (c :: b) H). apply Hk. cbn [head_in]. now apply Hpq.
    + now apply Hk.
Qed.

Lemma space_not_digit (c : char) : is_space c = true -> is_digit c = false.
Proof.
  intros H. destruct (is_digit c) eqn:E; [|reflexivity].
  apply digit_not_space in E. congruence.
Qed.

(** The pattern of [Question <number>] leaves alone a text in which the
    word is not followed by white space and a digit. *)
Lemma question_number_miss (a : jsstring) :
  (forall rest, a = js "Question" ++ rest ->
                head_in is_digit (drop_while is_space rest) = false) ->
  replace re_question_number [] a = a.
Proof.
  intros H. unfold re_question_number. rewrite replace_anchored, m_seq.
  destruct (m_lit_exact (js "Question") [] a
              (fun b' a' => m false (Plus is_space >> Plus is_digit
                                     >> Star colon_dash_space) b' a' accept))
    as [-> | (rest & E & ->)]; [reflexivity|].
  specialize (H rest E).
  assert (N : m false (Plus is_space >> Plus is_digit >> Star colon_dash_space)
                (rev (js "Question") ++ []) rest accept = None).
  { rewrite m_seq. unfold Plus at 1. rewrite m_seq. cbn [m].
    destruct rest as [|y r]; [reflexivity|].
    cbn [drop_while] in H. destruct (is_space y) eqn:Ey; [|reflexivity].
    apply (star_cls_blocked is_space is_digit); [apply space_not_digit | | exact H].
    intros b0 a0 H0. unfold Plus. rewrite !m_seq. cbn [m].
    destruct a0 as [|z a1]; [reflexivity|]. cbn [head_in] in H0. now rewrite H0. }
  now rewrite N.
Qed.

Lemma m_lit_here (W : jsstring) :
  forall b rest k, m false (Lit W) b (W ++ rest) k = k (rev W ++ b) rest.
Proof.
  induction W as [|c W IH]; intros b rest k; [reflexivity|].
  cbn [Lit app]. rewrite m_seq. cbn [m]. unfold chr_matches.
  rewrite N.eqb_refl, IH. cbn [rev]. now rewrite <- app_assoc.
Qed.

Lemma m_plus (i : bool) (p : char -> bool) (b a : jsstring) (k : cont) :
  m i (Plus p) b a k
  = match a with
    | c :: a' => if p c then star_cls p (c :: b) a' k else None
    | [] => None
    end.
Proof. reflexivity. Qed.

Lemma drop_while_run (p : char -> bool) (xs : jsstring) (c : char) (r : jsstring) :
  forallb p xs = true -> p c = false -> drop_while p (xs ++ c :: r) = c :: r.
Proof. intros H1 H2. now destruct (take_while_app_stop p xs c r H1 H2). Qed.

(** The pattern of [Question <number>] on a text that begins with it. *)
Lemma question_number_hit (sp ds seps : jsstring) (c : char) (r : jsstring) :
  sp <> [] -> forallb is_space sp = true ->
  ds <> [] -> forallb is_digit ds = true ->
  forallb colon_dash_space seps = true ->
  colon_dash_space c = false -> is_digit c = false ->
  replace re_question_number [] (js "Question" ++ sp ++ ds ++ seps ++ c :: r) = c :: r.
Proof.
  intros Hsp1 Hsp Hds1 Hds Hseps Hc Hcd.
  unfold re_question_number. rewrite replace_anchored, m_seq, m_lit_here, m_seq.
  destruct sp as [|x sp']; [congruence|].
  destruct ds as [|d ds']; [congruence|].
  cbn [forallb] in Hsp, Hds.
  apply andb_true_iff in Hsp as [Hx Hsp]. apply andb_true_iff in Hds as [Hd Hds].
  cbn [app]. rewrite m_plus, Hx.
  assert (Hd' : is_space d = false) by now apply digit_not_space.
  assert (D3 : drop_while colon_dash_space (seps ++ c :: r) = c :: r)
    by now apply drop_while_run.
  assert (D : drop_while is_digit (ds' ++ seps ++ c :: r) = seps ++ c :: r).
  { destruct seps as [|y seps']; cbn [app].
    - now apply drop_while_run.
    - apply drop_while_run; [exact Hds|].
      cbn [forallb] in Hseps. apply andb_true_iff in Hseps as [Hy _].
      destruct (is_digit y) eqn:E; [|reflexivity].
      clear - Hy E. unfold colon_dash_space in Hy.
      apply orb_true_iff in Hy as [Hy|Hy].
      + apply orb_true_iff in Hy as [Hy|Hy]; apply N.eqb_eq in Hy; now subst y.
      + apply digit_not_space in E. congruence. }
  match goal with
  | |- match ?X with _ => _ end = _ =>
      assert (M : exists e, X = Some (e, c :: r))
  end.
  { eexists. apply star_cls_first.
    rewrite (drop_while_run is_space sp' d _ Hsp Hd').
    rewrite m_seq, m_plus, Hd. apply star_cls_first.
    rewrite D. cbn [m]. rewrite star_cls_accept, D3. reflexivity. }
  destruct M as [e ->]. reflexivity.
Qed.

Lemma colon_dash_space_no_lbrace (x : jsstring) :
  forallb colon_dash_space x = true -> includes c_lbrace x = false.
Proof. apply (includes_forallb c_lbrace colon_dash_space). reflexivity. Qed.

(** X9. A leading [Question <number>] is removed: on a reply made of the
    word Question (in this very case), one or more white-space
    characters, one or more digits, any colons, dashes and white space,
    and then [w?] and any brace-free text, where [w] satisfies
    [clean_question] (the conditions listed at X7) and does not begin
    with a colon or a dash, both copies return [w?]. *)
Theorem question_number_removed (sp ds seps w tail : jsstring) :
  sp <> [] -> forallb is_space sp = true ->
  ds <> [] -> forallb is_digit ds = true ->
  forallb colon_dash_space seps = true ->
  clean_question w = true ->
  head_in colon_dash_space w = false ->
  includes c_lbrace tail = false ->
  parseModelQuestion (js "Question" ++ sp ++ ds ++ seps ++ w ++ c_qmark :: tail)
  = Returned (Some (w ++ [c_qmark]))
  /\ generateQuestion (Some (js "Question" ++ sp ++ ds ++ seps ++ w ++ c_qmark :: tail))
     = Returned (w ++ [c_qmark]).
Proof.
  intros Hsp1 Hsp Hds1 Hds Hseps clean Hh Hb.
  destruct (clean_head w clean) as (c & r & E & _ & _ & Hcd & _).
  assert (Hc : colon_dash_space c = false).
  { destruct w as [|c' w']; [discriminate|]. cbn [app] in E.
    injection E as -> _. exact Hh. }
  assert (shape : forall t,
             js "Question" ++ sp ++ ds ++ seps ++ w ++ c_qmark :: t
             = (81 :: js "uestion" ++ sp ++ ds ++ seps) ++ (w ++ [c_qmark]) ++ t).
  { intros t. change (js "Question") with (81 :: js "uestion").
    cbn [app]. rewrite <- !app_assoc. reflexivity. }
  assert (hit : forall t,
             replace re_question_number []
               (js "Question" ++ sp ++ ds ++ seps ++ w ++ c_qmark :: t)
             = (w ++ [c_qmark]) ++ t).
  { intros t. change (w ++ c_qmark :: t) with (w ++ [c_qmark] ++ t).
    rewrite (app_assoc w [c_qmark] t), E. cbn [app].
    now apply question_number_hit. }
  rewrite shape.
  apply (reply_behind w clean 81 (js "uestion" ++ sp ++ ds ++ seps) tail);
    try reflexivity.
  - rewrite !includes_app, (includes_forallb c_lbrace is_space sp eq_refl Hsp),
      (includes_forallb c_lbrace is_digit ds eq_refl Hds),
      (colon_dash_space_no_lbrace seps Hseps).
    reflexivity.
  - exact Hb.
  - intros t. rewrite item_number_replace.
    change ((81 :: js "uestion" ++ sp ++ ds ++ seps) ++ (w ++ [c_qmark]) ++ t)
      with (81 :: (js "uestion" ++ sp ++ ds ++ seps) ++ (w ++ [c_qmark]) ++ t).
    rewrite strip_item_number_head by reflexivity.
    change (81 :: (js "uestion" ++ sp ++ ds ++ seps) ++ (w ++ [c_qmark]) ++ t)
      with ((81 :: js "uestion" ++ sp ++ ds ++ seps) ++ (w ++ [c_qmark]) ++ t).
    rewrite <- shape. apply hit.
  - intros t. rewrite numbering_replace.
    change ((81 :: js "uestion" ++ sp ++ ds ++ seps) ++ (w ++ [c_qmark]) ++ t)
      with (81 :: (js "uestion" ++ sp ++ ds ++ seps) ++ (w ++ [c_qmark]) ++ t).
    rewrite strip_numbering_head by reflexivity.
    change (81 :: (js "uestion" ++ sp ++ ds ++ seps) ++ (w ++ [c_qmark]) ++ t)
      with ((81 :: js "uestion" ++ sp ++ ds ++ seps) ++ (w ++ [c_qmark]) ++ t).
    rewrite <- shape. apply hit.
Qed.

Lemma question_number_removed_witness :
  parseModelQuestion (js "Question 12: - What is a closure? Then tell me why.")
  = Returned (Some (js "What is a closure?"))
  /\ generateQuestion (Some (js "Question 12: - What is a closure? Then tell me why."))
     = Returned (js "What is a closure?").
Proof.
  apply (question_number_removed (js " ") (js "12") (js ": - ")
           (js "What is a closure") (js " Then tell me why."));
    solve [vm_compute; reflexivity | discriminate].
Defined.

(* ------------------------------------------------------------------ *)
(** *** Labels *)

Lemma prefix_ci_app_rest (W : jsstring) :
  forall L r rest,
    prefix_ci W L = Some r -> prefix_ci W (L ++ rest) = Some (r ++ rest).
Proof.
  induction W as [|x W IH]; intros L r rest; cbn [prefix_ci].
  - now intros [= ->].
  - destruct L as [|y L]; [discriminate|]. cbn [app].
    destruct (chr_matches true x y); [apply IH | discriminate].
Qed.

Lemma prefix_ci_whole (W : jsstring) :
  forallb is_letter W = true ->
  forall L, prefix_ci W L = Some [] ->
            List.length L = List.length W /\ forallb is_letter L = true.
Proof.
  induction W as [|x W IH]; intros HW L; cbn [prefix_ci].
  - intros [= ->]. now split.
  - cbn [forallb] in HW. apply andb_true_iff in HW as [Hx HW].
    destruct L as [|y L]; [discriminate|].
    destruct (chr_matches true x y) eqn:E; [|discriminate].
    intros H. destruct (IH HW L H) as [Hl Hf].
    cbn [List.length forallb]. rewrite Hl, Hf, (chr_matches_letter x y Hx E).
    now split.
Qed.

Lemma is_label_cases (L : jsstring) :
  is_label L = true ->
  prefix_ci (js "Question") L = Some []
  \/ prefix_ci (js "Q") L = Some []
  \/ prefix_ci (js "Ask") L = Some [].
Proof.
  unfold is_label, labels. cbn [existsb]. rewrite orb_false_r. intros H.
  apply orb_true_iff in H as [H|H]; [|apply orb_true_iff in H as [H|H]].
  - left. now destruct (prefix_ci (js "Question") L) as [[|]|].
  - right; left. now destruct (prefix_ci (js "Q") L) as [[|]|].
  - right; right. now destruct (prefix_ci (js "Ask") L) as [[|]|].
Qed.

Lemma label_letters (L : jsstring) :
  is_label L = true -> L <> [] /\ forallb is_letter L = true.
Proof.
  intros H.
  destruct (is_label_cases L H) as [E|[E|E]];
    apply prefix_ci_whole in E; try reflexivity; destruct E as [El Ef];
    (split; [|exact Ef]); intros ->; discriminate.
Qed.

Lemma letter_facts (c : char) :
  is_letter c = true ->
  is_space c = false /\ is_digit c = false /\ is_word c = true
  /\ (c =? c_lbrace) = false /\ (10 =? c) = false.
Proof.
  unfold is_letter. intros H.
  assert (R : 65 <= c <= 122).
  { apply orb_true_iff in H as [H|H]; apply andb_true_iff in H as [A B];
      apply N.leb_le in A, B; lia. }
  repeat split.
  - unfold is_space.
    repeat (apply orb_false_iff; split);
      try (apply N.eqb_neq; lia);
      apply andb_false_iff; ((left; apply N.leb_gt; lia) || (right; apply N.leb_gt; lia)).
  - unfold is_digit. apply andb_false_iff. right. apply N.leb_gt. lia.
  - unfold is_word. now rewrite H.
  - apply N.eqb_neq. unfold c_lbrace. lia.
  - apply N.eqb_neq. lia.
Qed.

Lemma colon_space_facts (c : char) :
  colon_space c = true ->
  is_word c = false /\ colon_space_dash c = true /\ (c_lbrace =? c) = false
  /\ (is_space c = false -> is_digit c = false).
Proof.
  unfold colon_space, colon_space_dash. intros H.
  apply orb_true_iff in H as [H|H].
  - apply N.eqb_eq in H. subst c. repeat split.
  - rewrite H, orb_true_r. cbn [orb]. repeat split.
    + unfold is_word. rewrite (space_not_digit c H).
      unfold is_space in H.
      destruct ((65 <=? c) && (c <=? 90)) eqn:A.
      { apply andb_true_iff in A as [A1 A2]. apply N.leb_le in A1, A2.
        exfalso. revert H. apply not_true_iff_false.
        repeat (apply orb_false_iff; split);
          try (apply N.eqb_neq; lia);
          apply andb_false_iff; ((left; apply N.leb_gt; lia) || (right; apply N.leb_gt; lia)). }
      destruct ((97 <=? c) && (c <=? 122)) eqn:B.
      { apply andb_true_iff in B as [A1 A2]. apply N.leb_le in A1, A2.
        exfalso. revert H. apply not_true_iff_false.
        repeat (apply orb_false_iff; split);
          try (apply N.eqb_neq; lia);
          apply andb_false_iff; ((left; apply N.leb_gt; lia) || (right; apply N.leb_gt; lia)). }
      cbn [orb]. destruct (c =? 95) eqn:C; [|reflexivity].
      apply N.eqb_eq in C. subst c. discriminate.
    + destruct (c_lbrace =? c) eqn:C; [|reflexivity].
      apply N.eqb_eq in C. subst c. discriminate.
    + congruence.
Qed.

Lemma app_same_length (A : Type) (l1 l2 r1 r2 : list A) :
  List.length l1 = List.length l2 -> l1 ++ r1 = l2 ++ r2 -> l1 = l2 /\ r1 = r2.
Proof.
  revert l2. induction l1 as [|x l1 IH]; intros [|y l2]; cbn; try discriminate.
  - now split.
  - intros Hl [= -> H]. injection Hl as Hl. destruct (IH l2 Hl H) as [-> ->].
    now split.
Qed.

Lemma strip_label_hit (sep : char -> bool) (L rest : jsstring) :
  is_label L = true -> head_in is_word rest = false ->
  strip_label sep (L ++ rest) = drop_while sep rest.
Proof.
  intros HL Hr. unfold strip_label.
  destruct (is_label_cases L HL) as [E|[E|E]].
  - now rewrite (prefix_ci_app_rest _ L [] rest E).
  - pose proof (prefix_ci_app_rest _ L [] rest E) as E1. cbn [app] in E1.
    assert (E0 : prefix_ci (js "Question") (L ++ rest) = None).
    { destruct L as [|x [|x' L']]; try discriminate.
      - cbn [app]. change (js "Question") with (81 :: js "uestion").
        cbn [prefix_ci]. destruct (chr_matches true 81 x); [|reflexivity].
        destruct rest as [|y r]; [reflexivity|].
        change (js "uestion") with (117 :: js "estion"). cbn [prefix_ci].
        destruct (chr_matches true 117 y) eqn:M; [|reflexivity].
        apply chr_matches_letter in M; [|reflexivity].
        apply letter_facts in M as (_ & _ & M & _). cbn [head_in] in Hr. congruence.
      - change (js "Q") with [81] in E. cbn [prefix_ci] in E.
        destruct (chr_matches true 81 x); discriminate. }
    now rewrite E0, E1.
  - pose proof (prefix_ci_app_rest _ L [] rest E) as E1. cbn [app] in E1.
    destruct L as [|x L']; [discriminate|].
    change (js "Ask") with (65 :: js "sk") in E. cbn [prefix_ci] in E.
    destruct (chr_matches true 65 x) eqn:M; [|discriminate].
    assert (Q : chr_matches true 81 x = false).
    { unfold chr_matches in *. apply N.eqb_eq in M. rewrite <- M. reflexivity. }
    cbn [app]. change (js "Question") with (81 :: js "uestion").
    change (js "Q") with [81]. cbn [prefix_ci]. rewrite Q.
    cbn [app] in E1. now rewrite E1.
Qed.

Lemma digit_after_seps (seps rest : jsstring) :
  forallb colon_space seps = true -> starts_clean rest = true ->
  head_in is_digit rest = false ->
  head_in is_digit (drop_while is_space (seps ++ rest)) = false.
Proof.
  intros Hs Hc Hd. induction seps as [|y seps IH]; cbn [app].
  - now rewrite drop_while_clean.
  - cbn [forallb] in Hs. apply andb_true_iff in Hs as [Hy Hs].
    cbn [drop_while]. destruct (is_space y) eqn:E; [now apply IH|].
    cbn [head_in]. now apply (colon_space_facts y Hy).
Qed.

Lemma question_number_label (L seps rest : jsstring) :
  is_label L = true -> seps <> [] -> forallb colon_space seps = true ->
  starts_clean rest = true -> head_in is_digit rest = false ->
  replace re_question_number [] (L ++ seps ++ rest) = L ++ seps ++ rest.
Proof.
  intros HL Hs1 Hs Hc Hd. apply question_number_miss. intros rest' E.
  destruct (is_label_cases L HL) as [P|[P|P]].
  - apply prefix_ci_whole in P as [Pl _]; [|reflexivity].
    apply app_same_length in E as [_ <-]; [|exact Pl].
    now apply digit_after_seps.
  - apply prefix_ci_whole in P as [Pl _]; [|reflexivity].
    destruct L as [|x [|x' L']]; try discriminate.
    destruct seps as [|y seps']; [congruence|].
    cbn [forallb] in Hs. apply andb_true_iff in Hs as [Hy _].
    change (js "Question") with (81 :: 117 :: js "estion") in E.
    cbn [app] in E. injection E as _ -> _. discriminate.
  - destruct L as [|x L']; [discriminate|].
    change (js "Ask") with (65 :: js "sk") in P. cbn [prefix_ci] in P.
    destruct (chr_matches true 65 x) eqn:M; [|discriminate].
    change (js "Question") with (81 :: js "uestion") in E.
    cbn [app] in E. injection E as -> _. discriminate.
Qed.

Lemma collapse_spaces_letters (L y : jsstring) :
  forallb is_letter L = true -> collapse_spaces (L ++ y) = L ++ collapse_spaces y.
Proof.
  induction L as [|c L IH]; [reflexivity|]. cbn [forallb]. intros H.
  apply andb_true_iff in H as [Hc HL]. cbn [app collapse_spaces].
  destruct (letter_facts c Hc) as (-> & _). now rewrite (IH HL).
Qed.

Lemma collapse_spaces_app_clean (x y : jsstring) :
  starts_clean y = true ->
  collapse_spaces (x ++ y) = collapse_spaces x ++ collapse_spaces y.
Proof.
  intros Hy. induction x as [|c x IH]; [reflexivity|].
  cbn [app collapse_spaces]. rewrite IH.
  destruct (is_space c); [|reflexivity].
  destruct x as [|e x']; cbn [app].
  - destruct y as [|d y']; [reflexivity|].
    cbn [starts_clean] in Hy. apply negb_true_iff in Hy. now rewrite Hy.
  - now destruct (is_space e).
Qed.

Lemma collapse_spaces_forallb (p : char -> bool) (x : jsstring) :
  p 32 = true -> forallb p x = true -> forallb p (collapse_spaces x) = true.
Proof.
  intros H32. induction x as [|c x IH]; [reflexivity|].
  cbn [forallb collapse_spaces]. intros H. apply andb_true_iff in H as [Hc Hx].
  specialize (IH Hx).
  destruct (is_space c).
  - destruct x as [|e x']; [cbn [forallb]; now rewrite H32|].
    destruct (is_space e); [exact IH|]. cbn [forallb]. now rewrite H32, IH.
  - cbn [forallb]. now rewrite Hc, IH.
Qed.

Lemma collapse_spaces_nonempty (x : jsstring) :
  x <> [] -> collapse_spaces x <> [].
Proof.
  induction x as [|c x IH]; [congruence|]. intros _. cbn [collapse_spaces].
  destruct (is_space c); [|discriminate].
  destruct x as [|e x']; [discriminate|].
  destruct (is_space e); [|discriminate]. apply IH. discriminate.
Qed.

Section LabelledQuestion.

Variables L seps w : jsstring.
Hypothesis label : is_label L = true.
Hypothesis seps_run : forallb colon_space seps = true.
Hypothesis seps_some : seps <> [].
Hypothesis clean : clean_question w = true.
Hypothesis free_head : head_in colon_space_dash w = false.

Let s : jsstring := w ++ [c_qmark].

Lemma label_head : exists x L', L = x :: L' /\ is_letter x = true.
Proof.
  destruct (label_letters L label) as [Hne Hl].
  destruct L as [|x L']; [congruence|]. exists x, L'.
  cbn [forallb] in Hl. now apply andb_true_iff in Hl as [-> _].
Qed.

Lemma question_head : exists c r, s = c :: r /\ colon_space_dash c = false
                                  /\ colon_space c = false /\ is_digit c = false.
Proof.
  destruct (clean_head w clean) as (c & r & E & _ & Hsp & Hd & _).
  fold s in E. exists c, r. split; [exact E|].
  assert (H : colon_space_dash c = false).
  { unfold s in E. destruct w as [|c' w']; [discriminate|]. cbn [app] in E.
    injection E as -> _. exact free_head. }
  repeat split; try assumption.
  unfold colon_space_dash in H. unfold colon_space.
  apply orb_false_iff in H as [H _]. exact H.
Qed.

Lemma seps_dropped (sep : char -> bool) (t : jsstring) :
  forallb sep seps = true ->
  (forall c, colon_space_dash c = false -> sep c = false) ->
  drop_while sep (seps ++ s ++ t) = s ++ t.
Proof.
  intros H1 H2. rewrite (drop_while_app_all sep seps _ H1).
  destruct question_head as (c & r & E & Hc & _). rewrite E. cbn [app].
  apply drop_while_stop. now apply H2.
Qed.

Lemma labelled_shape (A B t : jsstring) :
  A ++ B ++ s ++ t = ((A ++ B ++ w) ++ [c_qmark]) ++ t.
Proof. unfold s. now rewrite <- !app_assoc. Qed.

Lemma labelled_trim (t : jsstring) :
  trim (L ++ seps ++ s ++ t) = L ++ seps ++ s ++ trimEnd t.
Proof.
  rewrite !labelled_shape. apply trim_app_last; [|reflexivity].
  destruct label_head as (x & L' & -> & Hx). cbn [app starts_clean].
  now destruct (letter_facts x Hx) as (-> & _).
Qed.

Lemma labelled_structured (t : jsstring) :
  includes c_lbrace t = false ->
  structured_path (L ++ seps ++ s ++ t) = Returned None.
Proof.
  intros Ht. apply no_lbrace_structured.
  destruct (label_letters L label) as [_ Hl].
  rewrite (includes_app _ L), (includes_app _ seps).
  unfold s. rewrite (after_no_lbrace w clean t Ht).
  rewrite (includes_forallb c_lbrace is_letter L eq_refl Hl).
  rewrite (includes_forallb c_lbrace colon_space seps eq_refl seps_run).
  reflexivity.
Qed.

Lemma labelled_schema (t : jsstring) :
  schema_path (L ++ seps ++ s ++ t) = Returned None.
Proof.
  destruct label_head as (x & L' & E & Hx).
  apply (schema_path_head _ x (L' ++ seps ++ s ++ trimEnd t)).
  - rewrite labelled_trim, E. reflexivity.
  - now destruct (letter_facts x Hx) as (_ & _ & _ & -> & _).
Qed.

Lemma labelled_cleanText (t : jsstring) :
  cleanText (L ++ seps ++ s ++ t) = L ++ seps ++ s ++ trimEnd t
  /\ cleanText_g (L ++ seps ++ s ++ t) = L ++ seps ++ s ++ trimEnd t.
Proof.
  unfold cleanText, cleanText_g.
  rewrite item_number_replace, numbering_replace.
  destruct label_head as (x & L' & E & Hx).
  destruct (letter_facts x Hx) as (_ & Hd & _).
  assert (I : strip_item_number (L ++ seps ++ s ++ t) = L ++ seps ++ s ++ t)
    by (rewrite E; now apply strip_item_number_head).
  assert (N : strip_numbering (L ++ seps ++ s ++ t) = L ++ seps ++ s ++ t)
    by (rewrite E; now apply strip_numbering_head).
  rewrite I, N.
  assert (Q : replace re_question_number [] (L ++ seps ++ s ++ t)
              = L ++ seps ++ s ++ t).
  { apply question_number_label; try assumption.
    - pose proof (after_starts_clean w clean) as H. fold s in H.
      destruct question_head as (c & r & Es & _). rewrite Es in H |- *. exact H.
    - destruct question_head as (c & r & Es & _ & _ & Hcd). rewrite Es. exact Hcd. }
  rewrite Q, labelled_trim. now split.
Qed.

Hypothesis one_line : includes 10 seps = false.

Lemma labelled_pick (t : jsstring) :
  exists t1, pick_candidate (lines_of (L ++ seps ++ s ++ t))
             = Some (L ++ seps ++ s ++ t1).
Proof.
  destruct (label_letters L label) as [_ Hl].
  destruct label_head as (x & L' & E & Hx).
  destruct (lines_first (L ++ seps ++ w) t c_qmark) as (t1 & ls & El).
  - rewrite E. cbn [app starts_clean]. now destruct (letter_facts x Hx) as (-> & _).
  - reflexivity.
  - rewrite !includes_app, one_line, (after_one_line w clean), !orb_false_r.
    apply (includes_forallb 10 is_letter); [reflexivity | exact Hl].
  - exists t1. rewrite labelled_shape, El, <- labelled_shape.
    apply pick_candidate_first.
    rewrite (includes_app _ L), (includes_app _ seps).
    unfold s. now rewrite (after_includes w t1), !orb_true_r.
Qed.

Lemma labelled_candidate (t : jsstring) :
  strip_candidate (Some (L ++ seps ++ s ++ t)) = s ++ trimEnd t.
Proof.
  unfold strip_candidate.
  assert (O : or_else (Some (L ++ seps ++ s ++ t)) [] = L ++ seps ++ s ++ t)
    by apply or_else_some.
  rewrite O, item_number_replace.
  destruct label_head as (x & L' & E & Hx).
  destruct (letter_facts x Hx) as (_ & Hd & _).
  assert (I : strip_item_number (L ++ seps ++ s ++ t) = L ++ seps ++ s ++ t)
    by (rewrite E; now apply strip_item_number_head).
  rewrite I. change re_label with (label_pattern colon_space).
  rewrite label_replace, strip_label_hit; [|exact label|].
  - rewrite seps_dropped; [apply (after_trim w clean) | exact seps_run |].
    intros c Hc. unfold colon_space_dash in Hc. unfold colon_space.
    now apply orb_false_iff in Hc as [-> _].
  - destruct seps as [|y seps']; [congruence|]. cbn [app head_in].
    cbn [forallb] in seps_run. apply andb_true_iff in seps_run as [Hy _].
    now apply (colon_space_facts y Hy).
Qed.

Lemma labelled_keep (t : jsstring) :
  keep_first_question (L ++ seps ++ s ++ t) = s.
Proof.
  destruct (label_letters L label) as [_ Hl].
  destruct label_head as (x & L' & E & Hx).
  destruct (letter_facts x Hx) as (Hxs & Hxd & _).
  set (seps' := collapse_spaces seps).
  assert (R' : forallb colon_space seps' = true)
    by (apply collapse_spaces_forallb; [reflexivity | exact seps_run]).
  assert (N' : seps' <> []) by (apply collapse_spaces_nonempty, seps_some).
  assert (C : collapse_spaces (L ++ seps ++ s ++ t)
              = L ++ seps' ++ s ++ collapse_spaces t).
  { rewrite (collapse_spaces_letters L _ Hl), collapse_spaces_app_clean.
    - now rewrite (after_collapse w clean).
    - pose proof (after_starts_clean w clean) as H. fold s in H.
      destruct question_head as (c & r & Es & _). rewrite Es in H |- *. exact H. }
  assert (T : forall u, trim (L ++ seps' ++ s ++ u) = L ++ seps' ++ s ++ trimEnd u).
  { intros u. rewrite !labelled_shape. apply trim_app_last; [|reflexivity].
    rewrite E. cbn [app starts_clean]. now rewrite Hxs. }
  assert (D : forall u, strip_label colon_space_dash (L ++ seps' ++ s ++ u) = s ++ u).
  { intros u. rewrite strip_label_hit; [|exact label|].
    - rewrite (drop_while_app_all colon_space_dash seps').
      + destruct question_head as (c & r & Es & Hc & _). rewrite Es. cbn [app].
        now apply drop_while_stop.
      + rewrite forallb_forall in R' |- *. intros y Hy.
        now apply (colon_space_facts y (R' y Hy)).
    - destruct seps' as [|y r]; [congruence|]. cbn [app head_in].
      cbn [forallb] in R'. apply andb_true_iff in R' as [Hy _].
      now apply (colon_space_facts y Hy). }
  unfold keep_first_question. rewrite C, T.
  assert (N : forall u, strip_numbering (L ++ seps' ++ s ++ u) = L ++ seps' ++ s ++ u)
    by (intros u; rewrite E; now apply strip_numbering_head).
  rewrite N, D, (after_trim w clean).
  destruct (after_connectors w clean (trimEnd (trimEnd (collapse_spaces t))))
    as [u ->].
  now rewrite (after_trim w clean), (after_includes w), (after_cut w clean).
Qed.

(** A reply that is a label, separators and the clean question, followed
    by brace-free text. *)
Lemma reply_labelled (tail : jsstring) :
  includes c_lbrace tail = false ->
  parseModelQuestion (L ++ seps ++ s ++ tail) = Returned (Some s)
  /\ generateQuestion (Some (L ++ seps ++ s ++ tail)) = Returned s.
Proof.
  intros Hb.
  pose proof (labelled_structured tail Hb) as St.
  pose proof (labelled_schema tail) as Sc.
  destruct (labelled_cleanText (trimEnd tail)) as [C1 C2].
  destruct (labelled_pick (trimEnd (trimEnd tail))) as [t1 P].
  split.
  - rewrite (parseModelQuestion_fallback _ St). unfold candidate_of.
    rewrite labelled_trim, C1, P, labelled_candidate.
    rewrite (after_includes w), (after_cut w clean).
    f_equal. apply (clean_finish w clean).
  - unfold generateQuestion.
    rewrite generateQuestion_body_unfold, or_else_some.
    fold (schema_path (L ++ seps ++ s ++ tail)). rewrite Sc. cbn [bind].
    fold (structured_path (L ++ seps ++ s ++ tail)). rewrite St. cbn [bind try_catch].
    unfold service_fallback. rewrite labelled_trim, C2, P.
    assert (O : or_else (Some (L ++ seps ++ s ++ t1)) [] = L ++ seps ++ s ++ t1)
      by apply or_else_some.
    rewrite O, labelled_keep.
    pose proof (clean_finish w clean) as F. fold s in F. unfold finish in F.
    destruct (negb (truthy (with_question_mark s))
              || str_eqb (with_question_mark s) [c_qmark]); [discriminate|].
    now injection F as ->.
Qed.

End LabelledQuestion.

(** X10. A leading label is removed: on a reply made of Question, Q or
    Ask in any letter case, one or more colons and white-space characters
    other than a line feed, and then [w?] and any brace-free text, where
    [w] satisfies [clean_question] (the conditions listed at X7; among
    them, [w] does not itself begin with q, Q or ask) and does not begin
    with a colon or a dash, both copies return [w?]. *)
Theorem leading_label_removed (L seps w tail : jsstring) :
  is_label L = true ->
  seps <> [] -> forallb colon_space seps = true -> includes 10 seps = false ->
  clean_question w = true ->
  head_in colon_space_dash w = false ->
  includes c_lbrace tail = false ->
  parseModelQuestion (L ++ seps ++ w ++ c_qmark :: tail)
  = Returned (Some (w ++ [c_qmark]))
  /\ generateQuestion (Some (L ++ seps ++ w ++ c_qmark :: tail))
     = Returned (w ++ [c_qmark]).
Proof.
  intros HL Hs1 Hs Hs10 clean Hh Hb.
  change (w ++ c_qmark :: tail) with (w ++ [c_qmark] ++ tail).
  rewrite (app_assoc w [c_qmark] tail).
  now apply reply_labelled.
Qed.

Lemma leading_label_removed_witness :
  parseModelQuestion (js "QUESTION:  What is a closure? Next, explain scope.")
  = Returned (Some (js "What is a closure?"))
  /\ generateQuestion (Some (js "QUESTION:  What is a closure? Next, explain scope."))
     = Returned (js "What is a closure?").
Proof.
  apply (leading_label_removed (js "QUESTION") (js ":  ") (js "What is a closure")
           (js " Next, explain scope."));
    solve [vm_compute; reflexivity | discriminate].
Defined.

(* ------------------------------------------------------------------ *)
(** *** Connectors *)

Lemma existsb_impl (A : Type) (f g : A -> bool) (l : list A) :
  (forall x, In x l -> f x = true -> g x = true) ->
  existsb f l = true -> existsb g l = true.
Proof.
  intros H E. apply existsb_exists in E as (x & Hx & Fx).
  apply existsb_exists. exists x. auto.
Qed.

Lemma space_not_word (c : char) : is_space c = true -> is_word c = false.
Proof.
  intros H. apply (colon_space_facts c). unfold colon_space.
  now rewrite H, orb_true_r.
Qed.

Lemma spaces_not_word (sp : jsstring) :
  forallb is_space sp = true -> is_word_at sp = false.
Proof.
  destruct sp as [|c r]; [reflexivity|]. cbn [forallb is_word_at]. intros H.
  apply andb_true_iff in H as [H _]. now apply space_not_word.
Qed.

Section Occurrences.

Variable ws : list jsstring.

Lemma occurs_from_behind (a : jsstring) :
  forall b b', is_word_at b = is_word_at b' ->
               occurs_from ws b a = occurs_from ws b' a.
Proof.
  assert (W : forall b b' x, is_word_at b = is_word_at b' ->
                             existsb (word_at b x) ws = existsb (word_at b' x) ws).
  { intros b b' x H. unfold word_at. now rewrite H. }
  induction a as [|c a' IH]; intros b b' H; cbn [occurs_from].
  - now rewrite (W b b' [] H).
  - rewrite (W b b' _ H). f_equal. now apply IH.
Qed.

Lemma occurs_from_shift (l a : jsstring) :
  forall b, occurs_from ws b (l ++ a) = false ->
            occurs_from ws (rev l ++ b) a = false.
Proof.
  induction l as [|c l IH]; intros b H; [exact H|].
  cbn [app occurs_from] in H. apply orb_false_iff in H as [_ H].
  cbn [rev]. rewrite <- app_assoc. now apply IH.
Qed.

Lemma occurs_from_leading (l a : jsstring) :
  forallb is_space l = true ->
  occurs_from ws [] (l ++ a) = false -> occurs_from ws [] a = false.
Proof.
  intros Hl H. apply occurs_from_shift in H. rewrite app_nil_r in H.
  rewrite <- H. apply occurs_from_behind.
  destruct (rev l) as [|c r] eqn:E; [reflexivity|].
  cbn [is_word_at]. symmetry. apply space_not_word.
  rewrite forallb_forall in Hl. apply Hl, in_rev. rewrite E. now left.
Qed.

Lemma word_at_within (b x t w : jsstring) :
  is_word_at t = false -> word_at b x w = true -> word_at b (x ++ t) w = true.
Proof.
  intros Ht. unfold word_at. intros H. apply andb_true_iff in H as [-> H].
  destruct (prefix_ci w x) as [rest|] eqn:E; [|discriminate].
  rewrite (prefix_ci_app_rest w x rest t E).
  destruct rest as [|c r]; [cbn [app]; now rewrite Ht | exact H].
Qed.

Lemma occurs_within (t : jsstring) :
  is_word_at t = false ->
  forall x b, occurs_from ws b x = true -> occurs_from ws b (x ++ t) = true.
Proof.
  intros Ht. induction x as [|c x IH]; intros b H.
  - cbn [occurs_from] in H. rewrite orb_false_r in H.
    assert (E : existsb (word_at b ([] ++ t)) ws = true).
    { revert H. apply existsb_impl. intros w _. now apply word_at_within. }
    cbn [app] in *. destruct t; cbn [occurs_from]; now rewrite E.
  - cbn [app occurs_from] in *. apply orb_true_iff in H as [H|H].
    + apply orb_true_iff. left. revert H. apply existsb_impl.
      intros w _. now apply (word_at_within b (c :: x) t w).
    + apply orb_true_iff. right. now apply IH.
Qed.

Lemma free_within (x t : jsstring) :
  is_word_at t = false ->
  occurs_from ws [] (x ++ t) = false -> occurs_from ws [] x = false.
Proof.
  intros Ht H. destruct (occurs_from ws [] x) eqn:E; [|reflexivity].
  apply (occurs_within t Ht) in E. congruence.
Qed.

Lemma prefix_ci_snoc_free (q : char) (w : jsstring) :
  free_of q w = true ->
  forall x rest, prefix_ci w (x ++ [q]) = Some rest ->
                 exists r, rest = r ++ [q] /\ prefix_ci w x = Some r.
Proof.
  unfold free_of. induction w as [|c0 w IH]; intros Hf x rest.
  - cbn [prefix_ci]. intros [= <-]. now exists x.
  - cbn [forallb] in Hf. apply andb_true_iff in Hf as [Hc Hf].
    apply negb_true_iff in Hc.
    destruct x as [|y x]; cbn [app prefix_ci].
    + now rewrite Hc.
    + destruct (chr_matches true c0 y); [now apply IH | discriminate].
Qed.

Lemma word_at_snoc (q : char) (b x w : jsstring) :
  free_of q w = true ->
  word_at b (x ++ [q]) w = true -> word_at b x w = true.
Proof.
  intros Hf. unfold word_at. intros H. apply andb_true_iff in H as [-> H].
  destruct (prefix_ci w (x ++ [q])) as [rest|] eqn:E; [|discriminate].
  destruct (prefix_ci_snoc_free q w Hf x rest E) as (r & -> & ->).
  destruct r; [reflexivity | exact H].
Qed.

Lemma word_at_nil (b w : jsstring) : wordlike w = true -> word_at b [] w = false.
Proof.
  intros H. unfold word_at. destruct w; [discriminate|].
  cbn [prefix_ci]. apply andb_false_r.
Qed.

Hypothesis words : Forall (fun w => wordlike w = true) ws.

Lemma occurs_nil (b : jsstring) : occurs_from ws b [] = false.
Proof.
  cbn [occurs_from]. rewrite orb_false_r.
  destruct (existsb (word_at b []) ws) eqn:E; [|reflexivity].
  apply existsb_exists in E as (w & Hw & E).
  rewrite Forall_forall in words. now rewrite (word_at_nil b w (words w Hw)) in E.
Qed.

Lemma occurs_snoc (q : char) :
  Forall (fun w => free_of q w = true) ws ->
  forall x b, occurs_from ws b (x ++ [q]) = true -> occurs_from ws b x = true.
Proof.
  intros Hf. rewrite Forall_forall in Hf.
  induction x as [|c x IH]; intros b H.
  - cbn [app occurs_from] in H. rewrite orb_false_r in H.
    apply orb_true_iff in H as [H|H].
    + cbn [occurs_from]. rewrite orb_false_r. revert H. apply existsb_impl.
      intros w Hw. now apply (word_at_snoc q b [] w), Hf.
    + pose proof (occurs_nil (q :: b)) as N. cbn [occurs_from] in N.
      rewrite orb_false_r in N. congruence.
  - cbn [app occurs_from] in *. apply orb_true_iff in H as [H|H].
    + apply orb_true_iff. left. revert H. apply existsb_impl.
      intros w Hw. now apply (word_at_snoc q b (c :: x) w), Hf.
    + apply orb_true_iff. right. now apply IH.
Qed.

Lemma free_snoc (q : char) (x : jsstring) :
  Forall (fun w => free_of q w = true) ws ->
  occurs_from ws [] x = false -> occurs_from ws [] (x ++ [q]) = false.
Proof.
  intros Hf H. destruct (occurs_from ws [] (x ++ [q])) eqn:E; [|reflexivity].
  apply (occurs_snoc q Hf) in E. congruence.
Qed.

Lemma before_word_split (a : jsstring) :
  forall b, exists T,
    a = before_word ws b a ++ T
    /\ (T = [] \/ existsb (word_at (rev (before_word ws b a) ++ b) T) ws = true).
Proof.
  induction a as [|c a IH]; intros b; cbn [before_word].
  - exists []. destruct (existsb (word_at b []) ws); auto.
  - destruct (existsb (word_at b (c :: a)) ws) eqn:E.
    + exists (c :: a). auto.
    + destruct (IH (c :: b)) as (T & E1 & E2). exists T. split.
      * cbn [app]. now rewrite <- E1.
      * cbn [rev]. now rewrite <- app_assoc.
Qed.

(** The text before the first occurrence holds no occurrence. *)
Lemma before_word_free (a : jsstring) :
  forall b, occurs_from ws b (before_word ws b a) = false.
Proof.
  induction a as [|c a IH]; intros b; cbn [before_word].
  - destruct (existsb (word_at b []) ws); apply occurs_nil.
  - destruct (existsb (word_at b (c :: a)) ws) eqn:E; [apply occurs_nil|].
    cbn [occurs_from]. rewrite (IH (c :: b)), orb_false_r.
    destruct (existsb (word_at b (c :: before_word ws (c :: b) a)) ws) eqn:F;
      [|reflexivity].
    apply existsb_exists in F as (w & Hw & F).
    assert (G : word_at b (c :: a) w = true).
    { destruct (before_word_split a (c :: b)) as (T & E1 & E2).
      set (R := before_word ws (c :: b) a) in *.
      unfold word_at in F |- *. apply andb_true_iff in F as [-> F].
      destruct (prefix_ci w (c :: R)) as [rest|] eqn:P; [|discriminate].
      rewrite E1. change (c :: R ++ T) with ((c :: R) ++ T).
      rewrite (prefix_ci_app_rest w (c :: R) rest T P).
      destruct rest as [|y r]; [|exact F]. cbn [app andb].
      destruct E2 as [-> | E2]; [reflexivity|].
      exfalso.
      rewrite Forall_forall in words.
      pose proof (prefix_ci_last w (c :: R) [] b (words w Hw) P) as L.
      destruct (prefix_ci_length w (c :: R) [] P) as [L1 _].
      rewrite app_nil_r in L1. unfold eaten in L. rewrite <- L1 in L.
      cbn [rev] in L. rewrite <- app_assoc in L. cbn [app] in L.
      apply existsb_exists in E2 as (w' & _ & E2).
      unfold word_at in E2. rewrite L in E2. discriminate. }
    assert (X : existsb (word_at b (c :: a)) ws = true)
      by (apply existsb_exists; eauto).
    congruence.
Qed.

Lemma trim_free (a : jsstring) :
  occurs_from ws [] a = false -> occurs_from ws [] (trim a) = false.
Proof.
  intros H. unfold trim.
  destruct (trimEnd_split (trimStart a)) as (sp & E & Hsp).
  apply (free_within _ sp (spaces_not_word sp Hsp)). rewrite <- E.
  apply (occurs_from_leading (take_while is_space a)); [apply take_while_all|].
  unfold trimStart. now rewrite take_drop_while.
Qed.

End Occurrences.

Lemma before_first_split (p : char -> bool) (s : jsstring) :
  exists v, s = before_first p s ++ v /\ (v = [] \/ head_in p v = true).
Proof.
  unfold before_first. induction s as [|c r (v & E & H)]; [exists []; auto|].
  cbn [take_while]. destruct (p c) eqn:Pc; cbn [negb].
  - exists (c :: r). cbn [app head_in]. auto.
  - exists v. cbn [app]. now rewrite <- E.
Qed.

Lemma through_first_split (p : char -> bool) (s : jsstring) :
  through_first p s = s
  \/ exists x e v, s = x ++ e :: v /\ through_first p s = x ++ [e] /\ p e = true.
Proof.
  induction s as [|c r IH]; [now left|]. cbn [through_first].
  destruct (p c) eqn:Pc.
  - right. exists [], c, r. auto.
  - destruct IH as [-> | (x & e & v & E & -> & He)]; [now left|].
    right. exists (c :: x), e, v. cbn [app]. now rewrite <- E.
Qed.

Lemma connectors_free_of (q : char) :
  is_qmark q = true \/ dot_or_bang q = true ->
  Forall (fun w0 => free_of q w0 = true) (List.map js connectors).
Proof.
  intros [H|H].
  - apply N.eqb_eq in H. subst q. apply connectors_free_of_qmark.
  - unfold dot_or_bang in H. apply orb_true_iff in H as [H|H];
      apply N.eqb_eq in H; subst q; repeat constructor.
Qed.

Lemma connector_test (s : jsstring) :
  test re_connector s = occurs_from (List.map js connectors) [] s.
Proof.
  rewrite re_connector_words. apply (word_pattern_test _ _ connectors_ok).
Qed.

Lemma keep_first_question_free (text : jsstring) :
  occurs_from (List.map js connectors) [] (keep_first_question text) = false.
Proof.
  unfold keep_first_question.
  set (ws := List.map js connectors).
  set (c2 := trim (strip_label colon_space_dash
                     (strip_numbering (trim (collapse_spaces text))))).
  set (c3 := trim (before_word ws [] c2)).
  assert (F3 : occurs_from ws [] c3 = false)
    by (apply trim_free, before_word_free, connectors_ok).
  destruct (includes c_qmark c3).
  - unfold cut_at_qmark.
    destruct (truthy (trim (before_first is_qmark c3))); [|exact F3].
    apply free_snoc; [apply connectors_ok | apply connectors_free_of; now left |].
    apply trim_free.
    destruct (before_first_split is_qmark c3) as (v & E & Hv).
    apply (free_within ws _ v); [|now rewrite <- E].
    destruct Hv as [-> | Hv]; [reflexivity|].
    destruct v as [|y r]; [discriminate|]. cbn [head_in] in Hv.
    apply N.eqb_eq in Hv. now subst y.
  - apply trim_free.
    destruct (through_first_split dot_or_bang c3) as [-> | (x & e & v & E & -> & He)];
      [exact F3|].
    apply free_snoc; [apply connectors_ok | apply connectors_free_of; now right |].
    apply (free_within ws x (e :: v)); [|now rewrite <- E].
    cbn [is_word_at]. unfold dot_or_bang in He.
    apply orb_true_iff in He as [He|He]; apply N.eqb_eq in He; now subst e.
Qed.

(** X11. [keepOnlyFirstQuestion] leaves no follow-up connector behind: the
    connector pattern of its own split matches nowhere in the result. *)
Theorem keepOnlyFirstQuestion_no_connector (text : jsstring) :
  exists r, keepOnlyFirstQuestion text = Returned r /\ test re_connector r = false.
Proof.
  exists (keep_first_question text). split.
  - apply keepOnlyFirstQuestion_returns.
  - rewrite connector_test. apply keep_first_question_free.
Qed.

(* ------------------------------------------------------------------ *)
(** *** Connectors in what generateQuestion returns *)

Lemma with_question_mark_free (c : jsstring) :
  occurs_from (List.map js connectors) [] c = false ->
  occurs_from (List.map js connectors) [] (with_question_mark c) = false.
Proof.
  intros H. unfold with_question_mark.
  destruct (truthy c); [|reflexivity].
  destruct (endsWith c_qmark c); [exact H|].
  apply free_snoc; [apply connectors_ok | apply connectors_free_of; now left | exact H].
Qed.

Lemma service_fallback_free (raw : jsstring) :
  test re_connector (service_fallback raw) = false.
Proof.
  rewrite connector_test. unfold service_fallback. cbv zeta.
  destruct (negb (truthy _) || str_eqb _ [c_qmark]); [vm_compute; reflexivity|].
  apply with_question_mark_free, keep_first_question_free.
Qed.

(** X12. Unless the question comes from the JSON object found between
    braces (the schema path gives nothing and the structured path gives a
    question), what [generateQuestion] returns holds no follow-up
    connector: the connector pattern of [keepOnlyFirstQuestion] matches
    nowhere in it, be it a result of the schema path or of the
    fallback. *)
Theorem generateQuestion_no_connector (raw q : jsstring) :
  ~ (schema_path raw = Returned None
     /\ exists question, structured_path raw = Returned (Some question)) ->
  generateQuestion (Some raw) = Returned q ->
  test re_connector q = false.
Proof.
  intros Hn. destruct (not_from_braces raw Hn) as [[single E] | [E S]].
  - destruct (generateQuestion_schema raw single E) as [-> (question & ->)].
    intros H. apply Returned_inj in H. subst q.
    rewrite connector_test. apply keep_first_question_free.
  - rewrite (generateQuestion_fallback raw E S).
    intros H. apply Returned_inj in H. subst q. apply service_fallback_free.
Qed.

Lemma generateQuestion_no_connector_witness :
  test re_connector (js "What is a heap?") = false.
Proof.
  apply (generateQuestion_no_connector
           (jsq "{'question':'What is a heap? Additionally, what is a trie?'}")
           (js "What is a heap?")).
  - intros [H _]. vm_compute in H. discriminate.
  - vm_compute. reflexivity.
Defined.

(* ------------------------------------------------------------------ *)
(** *** A statement instead of a question *)

Section Statement.

Variable w : jsstring.
Hypothesis clean : clean_question w = true.

Lemma statement_head :
  exists c r, w = c :: r /\ is_space c = false /\ is_digit c = false
              /\ (c =? c_lbrace) = false /\ chr_matches true 81 c = false.
Proof.
  destruct (clean_head w clean) as (c & r & E & _ & Hs & Hd & Hq).
  destruct (after_head w clean) as (c' & r' & E' & Hb & _).
  rewrite E' in E. cbn [app] in E. injection E as -> _.
  exists c, r'. auto.
Qed.

Lemma statement_trimmed : trim w = w.
Proof.
  destruct (clean_parts w clean) as (_ & Ht & _). now apply trim_trimmed.
Qed.

Lemma statement_label (sep : char -> bool) : strip_label sep w = w.
Proof.
  pose proof (clean_label w clean sep) as H. unfold strip_label in *.
  assert (N : forall W, prefix_ci W (w ++ [c_qmark]) = None -> prefix_ci W w = None).
  { intros W HW. destruct (prefix_ci W w) as [r|] eqn:E; [|reflexivity].
    rewrite (prefix_ci_app_rest W w r [c_qmark] E) in HW. discriminate. }
  destruct (clean_parts w clean) as (_ & _ & _ & _ & Hl & _).
  unfold has_label in Hl.
  destruct (prefix_ci (js "Q") (w ++ [c_qmark])) eqn:EQ; [discriminate|].
  destruct (prefix_ci (js "Ask") (w ++ [c_qmark])) eqn:EA; [discriminate|].
  rewrite (N _ EQ), (N _ EA).
  destruct statement_head as (c & r & -> & _ & _ & _ & Hq).
  change (js "Question") with (81 :: js "uestion"). cbn [prefix_ci].
  now rewrite Hq.
Qed.

Lemma statement_cleanText : cleanText w = w /\ cleanText_g w = w.
Proof.
  unfold cleanText, cleanText_g. rewrite item_number_replace, numbering_replace.
  destruct statement_head as (c & r & E & _ & Hd & _ & Hq).
  assert (I : strip_item_number w = w) by (rewrite E; now apply strip_item_number_head).
  assert (N : strip_numbering w = w) by (rewrite E; now apply strip_numbering_head).
  assert (Q : replace re_question_number [] w = w)
    by (rewrite E; now apply question_number_head).
  now rewrite I, N, Q, statement_trimmed.
Qed.

Lemma statement_no_qmark : includes c_qmark w = false.
Proof.
  destruct (clean_parts w clean) as (_ & _ & Hp & _). now apply plain_no_qmark.
Qed.

Lemma statement_lines : lines_of w = [w].
Proof.
  unfold lines_of, split.
  destruct statement_head as (c & r & E & _).
  pose proof (after_one_line w clean) as L. pose proof statement_trimmed as T.
  rewrite E in L, T |- *.
  rewrite (split_one_line (c :: r) L [] []).
  cbn [rev app List.map filter]. now rewrite T.
Qed.

Lemma statement_pick : or_else (pick_candidate [w]) [] = w.
Proof.
  destruct statement_head as (c & r & E & _ & Hd & _).
  assert (T : truthy w = true) by now rewrite E.
  unfold pick_candidate, find. cbn [List.find List.map].
  rewrite statement_no_qmark. cbn [truthy_opt negb].
  destruct (test questionWordRegex w); cbn [truthy_opt].
  - rewrite T. cbn [negb]. apply or_else_some.
  - cbn [negb]. rewrite item_number_replace.
    assert (I : strip_item_number w = w) by (rewrite E; now apply strip_item_number_head).
    rewrite I, T. cbn [andb index0 hd_error].
    destruct (5 <? List.length w)%nat; cbn [or_else]; rewrite T;
      cbn [or_else]; now rewrite T.
Qed.

Lemma statement_candidate : candidate_of w = w.
Proof.
  unfold candidate_of. rewrite statement_trimmed.
  destruct statement_cleanText as [-> _]. rewrite statement_lines.
  unfold strip_candidate.
  destruct statement_head as (c & r & E & _ & Hd & _).
  assert (P : or_else (pick_candidate [w]) [] = w) by apply statement_pick.
  rewrite P, item_number_replace.
  assert (I : strip_item_number w = w) by (rewrite E; now apply strip_item_number_head).
  rewrite I. change re_label with (label_pattern colon_space).
  now rewrite label_replace, statement_label, statement_trimmed.
Qed.

Lemma statement_open : endsWith c_qmark w = false.
Proof.
  pose proof statement_no_qmark as H. unfold endsWith.
  destruct (rev w) as [|x r] eqn:E; [reflexivity|].
  destruct (x =? c_qmark) eqn:X; [|reflexivity].
  apply N.eqb_eq in X. subst x.
  assert (I : In c_qmark w) by (apply in_rev; rewrite E; now left).
  unfold includes in H. rewrite <- not_true_iff_false in H. exfalso. apply H.
  apply existsb_exists. exists c_qmark. split; [exact I | apply N.eqb_refl].
Qed.

Lemma statement_script : parseModelQuestion w = Returned (Some (w ++ [c_qmark])).
Proof.
  assert (St : structured_path w = Returned None).
  { apply no_lbrace_structured.
    destruct (clean_parts w clean) as (_ & _ & Hp & _).
    apply (includes_forallb c_lbrace plain_char); [reflexivity | exact Hp]. }
  rewrite (parseModelQuestion_fallback w St), statement_candidate.
  rewrite statement_no_qmark. f_equal. apply finish_open; [|apply statement_open].
  now destruct (clean_parts w clean) as (Hne & _).
Qed.

Hypothesis one_sentence : forallb (fun c => negb (dot_or_bang c)) w = true.

Lemma statement_keep : keep_first_question w = w.
Proof.
  destruct (clean_parts w clean) as (_ & _ & _ & _ & _ & Hc & Ho).
  assert (C : collapse_spaces w = w).
  { rewrite (collapse_spaces_app_clean w [c_qmark] eq_refl) in Hc.
    now apply app_inv_tail in Hc. }
  assert (O : occurs_from (List.map js connectors) [] w = false)
    by (apply (free_within _ w [c_qmark] eq_refl), Ho).
  unfold keep_first_question.
  destruct statement_head as (c & r & E & _ & Hd & _).
  assert (N : strip_numbering w = w) by (rewrite E; now apply strip_numbering_head).
  rewrite C, statement_trimmed, N, statement_label, statement_trimmed.
  rewrite (before_word_none _ w [] O), statement_trimmed, statement_no_qmark.
  destruct (through_first_split dot_or_bang w) as [-> | (x & e & v & Ew & _ & He)];
    [apply statement_trimmed|].
  rewrite Ew, forallb_app in one_sentence.
  apply andb_true_iff in one_sentence as [_ H]. cbn [forallb] in H.
  rewrite He in H. discriminate.
Qed.

Lemma statement_service : generateQuestion (Some w) = Returned (w ++ [c_qmark]).
Proof.
  destruct statement_head as (c & r & E & _ & _ & Hb & _).
  assert (St : structured_path w = Returned None).
  { apply no_lbrace_structured.
    destruct (clean_parts w clean) as (_ & _ & Hp & _).
    apply (includes_forallb c_lbrace plain_char); [reflexivity | exact Hp]. }
  assert (Sc : schema_path w = Returned None).
  { apply (schema_path_head w c r); [|exact Hb]. now rewrite statement_trimmed. }
  unfold generateQuestion. rewrite generateQuestion_body_unfold, or_else_some.
  fold (schema_path w). rewrite Sc. cbn [bind].
  fold (structured_path w). rewrite St. cbn [bind try_catch].
  unfold service_fallback. rewrite statement_trimmed.
  destruct statement_cleanText as [_ ->].
  rewrite statement_lines, statement_pick, statement_keep.
  assert (Hne : w <> []) by (rewrite E; discriminate).
  pose proof (finish_open w Hne statement_open) as F. unfold finish in F.
  destruct (negb (truthy (with_question_mark w))
            || str_eqb (with_question_mark w) [c_qmark]); [discriminate|].
  now injection F as ->.
Qed.

End Statement.

(** X13. A statement is turned into a question: on a reply [w] that
    satisfies [clean_question] (the conditions listed at X7: among them,
    [w] holds no question mark and does not begin with a digit, with q or
    Q, or with ask in any letter case), [parseModelQuestion] returns [w?],
    and so does [generateQuestion] when [w] holds no dot and no
    exclamation mark. *)
Theorem statement_gets_question_mark (w : jsstring) :
  clean_question w = true ->
  parseModelQuestion w = Returned (Some (w ++ [c_qmark]))
  /\ (forallb (fun c => negb (dot_or_bang c)) w = true ->
      generateQuestion (Some w) = Returned (w ++ [c_qmark])).
Proof.
  intros clean. split; [now apply statement_script | now apply statement_service].
Qed.

Lemma statement_gets_question_mark_witness :
  parseModelQuestion (js "Explain how a hash map resolves collisions")
  = Returned (Some (js "Explain how a hash map resolves collisions?"))
  /\ generateQuestion (Some (js "Explain how a hash map resolves collisions"))
     = Returned (js "Explain how a hash map resolves collisions?").
Proof.
  destruct (statement_gets_question_mark
              (js "Explain how a hash map resolves collisions") eq_refl) as [A B].
  split; [exact A | exact (B eq_refl)].
Defined.

(* ------------------------------------------------------------------ *)
(** *** The reply that the prompt asks for *)

Lemma string_chars_plain (q r : jsstring) :
  forallb json_plain q = true ->
  forall acc, string_chars (q ++ c_dquote :: r) acc = Some (rev acc ++ q, r).
Proof.
  induction q as [|c q IH]; intros H acc.
  - cbn [app string_chars]. rewrite N.eqb_refl. now rewrite app_nil_r.
  - cbn [forallb] in H. apply andb_true_iff in H as [Hc Hq].
    unfold json_plain in Hc. apply andb_true_iff in Hc as [Hc Hb].
    apply andb_true_iff in Hc as [Hc Hd].
    apply negb_true_iff in Hb, Hd. apply N.leb_le in Hc.
    cbn [app string_chars]. rewrite Hd, Hb.
    assert (L : (c <? 32) = false) by (apply N.ltb_ge; exact Hc).
    rewrite L, (IH Hq (c :: acc)). cbn [rev]. now rewrite <- app_assoc.
Qed.

Lemma skip_ws_run (ws : jsstring) (c : char) (r : jsstring) :
  forallb is_json_ws ws = true -> is_json_ws c = false ->
  skip_ws (ws ++ c :: r) = c :: r.
Proof. apply drop_while_run. Qed.

Lemma parse_value_string (f : nat) (q r : jsstring) :
  forallb json_plain q = true ->
  parse_value (S f) (c_dquote :: q ++ c_dquote :: r) = Parsed (JString q) r.
Proof.
  intros H. cbn [parse_value].
  change (c_dquote =? c_lbrace) with false. change (c_dquote =? c_lbrack) with false.
  rewrite N.eqb_refl. cbv iota. now rewrite (string_chars_plain q r H []).
Qed.

Lemma parse_question_reply (f : nat) (ws1 ws2 ws3 ws4 q : jsstring) :
  forallb is_json_ws ws1 = true -> forallb is_json_ws ws2 = true ->
  forallb is_json_ws ws3 = true -> forallb is_json_ws ws4 = true ->
  forallb json_plain q = true ->
  parse_value (S (S (S f))) (question_reply ws1 ws2 ws3 ws4 q)
  = Parsed (JObject [(js "question", JString q)]) [].
Proof.
  intros H1 H2 H3 H4 Hq. unfold question_reply.
  cbn [parse_value]. rewrite N.eqb_refl. cbv iota.
  rewrite (skip_ws_run ws1 c_dquote _ H1 eq_refl).
  change (c_dquote =? c_rbrace) with false. cbv iota.
  cbn [parse_members]. rewrite N.eqb_refl. cbv iota.
  rewrite (string_chars_plain (js "question") _ eq_refl []). cbn [rev app].
  rewrite (skip_ws_run ws2 c_colon _ H2 eq_refl), N.eqb_refl. cbv iota.
  rewrite (skip_ws_run ws3 c_dquote _ H3 eq_refl).
  rewrite (parse_value_string f q _ Hq).
  rewrite (skip_ws_run ws4 c_rbrace [] H4 eq_refl).
  change (c_rbrace =? c_comma) with false. rewrite N.eqb_refl. reflexivity.
Qed.

Lemma JSON_parse_question_reply (ws1 ws2 ws3 ws4 q : jsstring) :
  forallb is_json_ws ws1 = true -> forallb is_json_ws ws2 = true ->
  forallb is_json_ws ws3 = true -> forallb is_json_ws ws4 = true ->
  forallb json_plain q = true ->
  JSON_parse (question_reply ws1 ws2 ws3 ws4 q)
  = Returned (JObject [(js "question", JString q)]).
Proof.
  intros H1 H2 H3 H4 Hq. unfold JSON_parse.
  assert (S0 : skip_ws (question_reply ws1 ws2 ws3 ws4 q)
               = question_reply ws1 ws2 ws3 ws4 q) by reflexivity.
  rewrite S0.
  assert (F : exists f, parse_fuel (question_reply ws1 ws2 ws3 ws4 q) = S (S (S f))).
  { unfold parse_fuel, question_reply. cbn [List.length].
    set (L := List.length _). exists (2 * L)%nat. lia. }
  destruct F as [f ->].
  now rewrite (parse_question_reply f ws1 ws2 ws3 ws4 q H1 H2 H3 H4 Hq).
Qed.

Lemma through_last_snoc (c : char) (r : jsstring) :
  through_last c (r ++ [c]) = Some (r ++ [c]).
Proof.
  induction r as [|x r IH]; cbn [app through_last].
  - now rewrite N.eqb_refl.
  - now rewrite IH.
Qed.

Lemma question_reply_braces (ws1 ws2 ws3 ws4 q : jsstring) :
  greedy_braces (question_reply ws1 ws2 ws3 ws4 q)
  = Some (question_reply ws1 ws2 ws3 ws4 q).
Proof.
  unfold greedy_braces, question_reply. cbn [drop_while].
  change (negb (c_lbrace =? c_lbrace)) with false. cbv iota.
  set (body := ws1 ++ _).
  assert (E : exists r, body = r ++ [c_rbrace]).
  { unfold body. eexists (ws1 ++ c_dquote :: js "question" ++ c_dquote :: ws2
                            ++ c_colon :: ws3 ++ c_dquote :: q ++ c_dquote :: ws4).
    repeat (rewrite <- app_assoc; cbn [app]). reflexivity. }
  destruct E as [r ->]. now rewrite through_last_snoc.
Qed.

Lemma question_reply_trimmed (ws1 ws2 ws3 ws4 q : jsstring) :
  trim (question_reply ws1 ws2 ws3 ws4 q) = question_reply ws1 ws2 ws3 ws4 q.
Proof.
  unfold question_reply.
  assert (E : exists r, c_lbrace :: ws1 ++ c_dquote :: js "question" ++ c_dquote :: ws2
                          ++ c_colon :: ws3 ++ c_dquote :: q ++ c_dquote :: ws4
                          ++ [c_rbrace]
                        = (c_lbrace :: r) ++ [c_rbrace]).
  { eexists (ws1 ++ c_dquote :: js "question" ++ c_dquote :: ws2
               ++ c_colon :: ws3 ++ c_dquote :: q ++ c_dquote :: ws4).
    cbn [app]. repeat (rewrite <- app_assoc; cbn [app]). reflexivity. }
  destruct E as [r ->].
  rewrite <- (app_nil_r ((c_lbrace :: r) ++ [c_rbrace])) at 1.
  now rewrite (trim_app_last (c_lbrace :: r) [] c_rbrace eq_refl eq_refl), app_nil_r.
Qed.

(** X14. The reply that the prompt asks for is decoded: on a JSON object
    whose only member is named question and holds a string written without
    escapes, with any JSON white space around its tokens,
    [parseModelQuestion] returns that string trimmed, and
    [generateQuestion] returns what [keepOnlyFirstQuestion] makes of it,
    or the string trimmed when that is empty. *)
Theorem question_reply_decoded (ws1 ws2 ws3 ws4 q : jsstring) :
  forallb is_json_ws ws1 = true -> forallb is_json_ws ws2 = true ->
  forallb is_json_ws ws3 = true -> forallb is_json_ws ws4 = true ->
  forallb json_plain q = true ->
  trim q <> [] ->
  parseModelQuestion (question_reply ws1 ws2 ws3 ws4 q) = Returned (Some (trim q))
  /\ exists single,
       keepOnlyFirstQuestion q = Returned single
       /\ generateQuestion (Some (question_reply ws1 ws2 ws3 ws4 q))
          = Returned (if truthy single then single else trim q).
Proof.
  intros H1 H2 H3 H4 Hq Hne.
  set (raw := question_reply ws1 ws2 ws3 ws4 q).
  pose proof (JSON_parse_question_reply ws1 ws2 ws3 ws4 q H1 H2 H3 H4 Hq) as P.
  fold raw in P.
  assert (T : truthy (trim q) = true) by now apply truthy_nonempty.
  assert (B : parse_json_block (trim raw) = Returned (Some (trim q))).
  { apply (parse_json_block_found raw raw q [(js "question", JString q)]);
      [apply question_reply_braces | exact P | reflexivity | exact T]. }
  split.
  - apply parseModelQuestion_structured. unfold structured_path. now rewrite B.
  - exists (keep_first_question q). split; [apply keepOnlyFirstQuestion_returns|].
    unfold generateQuestion. rewrite generateQuestion_body_unfold, or_else_some.
    rewrite B. unfold raw at 1. rewrite question_reply_trimmed. fold raw.
    unfold schema_block. rewrite P. cbn [bind question_of get_member].
    change (str_eqb (js "question") (js "question")) with true. cbv iota.
    rewrite keepOnlyFirstQuestion_returns. cbn [bind].
    now destruct (truthy (keep_first_question q)).
Qed.

Lemma question_reply_decoded_witness :
  parseModelQuestion (jsq "{ 'question': ' What is a heap? Also, what is a trie? ' }")
  = Returned (Some (js "What is a heap? Also, what is a trie?"))
  /\ exists single,
       keepOnlyFirstQuestion (js " What is a heap? Also, what is a trie? ")
       = Returned single
       /\ generateQuestion
            (Some (jsq "{ 'question': ' What is a heap? Also, what is a trie? ' }"))
          = Returned (if truthy single then single
                      else trim (js " What is a heap? Also, what is a trie? ")).
Proof.
  apply (question_reply_decoded (js " ") [] (js " ") (js " ")
           (js " What is a heap? Also, what is a trie? "));
    solve [vm_compute; reflexivity | discriminate].
Defined.

(* ------------------------------------------------------------------ *)
(** *** askCustomQuestion and its caller *)

Lemma askCustomQuestion_cases (r : reply) :
  askCustomQuestion r
  = Returned match r with
             | Rejected _ => snag_message
             | Replied response_text =>
                 if truthy (trim (or_else response_text []))
                 then trim (or_else response_text [])
                 else no_answer_message
             end.
Proof.
  destruct r as [e|response_text]; [reflexivity|].
  unfold askCustomQuestion. cbv zeta.
  now destruct (truthy (trim (or_else response_text []))).
Qed.

Lemma askCustomQuestion_some (r : reply) :
  exists a, askCustomQuestion r = Returned a /\ a <> [].
Proof.
  rewrite askCustomQuestion_cases. eexists. split; [reflexivity|].
  destruct r as [e|response_text]; [discriminate|].
  destruct (truthy (trim (or_else response_text []))) eqn:T;
    [now apply truthy_nonempty | discriminate].
Qed.

(** X15. [askCustomQuestion] always answers, with a text that is neither
    empty nor padded with white space: the snag message when the call of
    the model fails; the trimmed text of the reply when that is not
    empty; and the message that no answer could be generated when the
    reply has no text or only white space. *)
Theorem askCustomQuestion_answers (r : reply) :
  exists a, askCustomQuestion r = Returned a
            /\ a <> [] /\ trim a = a
            /\ match r with
               | Rejected _ => a = snag_message
               | Replied None => a = no_answer_message
               | Replied (Some t) =>
                   if truthy (trim t) then a = trim t else a = no_answer_message
               end.
Proof.
  rewrite askCustomQuestion_cases. eexists. split; [reflexivity|].
  destruct r as [e|[t|]].
  - split; [discriminate|]. split; [vm_compute; reflexivity | reflexivity].
  - rewrite or_else_some. destruct (truthy (trim t)) eqn:T.
    + split; [now apply truthy_nonempty|]. split; [apply trim_idem | reflexivity].
    + split; [discriminate|]. split; [vm_compute; reflexivity | reflexivity].
  - split; [discriminate|]. split; [vm_compute; reflexivity | reflexivity].
Qed.

(** X16. [handleCustomAsk] never shows its own apology.  Called with a
    string or with nothing, it takes as question the trimmed string,
    respectively the trimmed input field; when that is empty or a request
    is under way, it returns with the state as it is; otherwise
    [askCustomQuestion] returns a non-empty answer and the handler
    returns with the input field emptied, the loading flag down and
    exactly two messages appended: the question as the user's and that
    answer as the model's.  Called with the event of a click, it throws a
    TypeError before it changes anything. *)
Theorem handleCustomAsk_outcomes (value : handler_arg) (r : reply) (st : dashboard) :
  match value with
  | ClickEvent => handleCustomAsk value r st = Threw TypeError
  | _ =>
      let question :=
        trim match value with Value s => s | _ => customInput st end in
      if negb (truthy question) || isCustomLoading st
      then handleCustomAsk value r st = Returned st
      else
        exists answer,
          askCustomQuestion r = Returned answer /\ answer <> []
          /\ handleCustomAsk value r st
             = Returned {| customInput := [];
                           isCustomLoading := false;
                           customMessages :=
                             customMessages st
                             ++ [{| role := user; text := question |};
                                 {| role := model; text := answer |}] |}
  end.
Proof.
  assert (G : forall question,
             if negb (truthy question) || isCustomLoading st
             then (if negb (truthy question) || isCustomLoading st then Returned st
                   else
                     messages <-
                       try_catch
                         (answer <- askCustomQuestion r ;;
                          Returned ((customMessages st
                                     ++ [{| role := user; text := question |}])
                                    ++ [{| role := model; text := answer |}]))
                         (fun _ => Returned ((customMessages st
                                              ++ [{| role := user; text := question |}])
                                             ++ [{| role := system; text := apology |}])) ;;
                     Returned {| customInput := [];
                                 isCustomLoading := false;
                                 customMessages := messages |}) = Returned st
             else
               exists answer,
                 askCustomQuestion r = Returned answer /\ answer <> []
                 /\ (if negb (truthy question) || isCustomLoading st then Returned st
                     else
                       messages <-
                         try_catch
                           (answer <- askCustomQuestion r ;;
                            Returned ((customMessages st
                                       ++ [{| role := user; text := question |}])
                                      ++ [{| role := model; text := answer |}]))
                           (fun _ => Returned ((customMessages st
                                                ++ [{| role := user; text := question |}])
                                               ++ [{| role := system; text := apology |}])) ;;
                       Returned {| customInput := [];
                                   isCustomLoading := false;
                                   customMessages := messages |})
                    = Returned {| customInput := [];
                                  isCustomLoading := false;
                                  customMessages :=
                                    customMessages st
                                    ++ [{| role := user; text := question |};
                                        {| role := model; text := answer |}] |}).
  { intros question.
    destruct (negb (truthy question) || isCustomLoading st) eqn:E; [reflexivity|].
    destruct (askCustomQuestion_some r) as (a & Ea & Ha).
    exists a. split; [exact Ea|]. split; [exact Ha|].
    rewrite Ea. cbn [bind try_catch]. now rewrite <- app_assoc. }
  destruct value as [|s|]; [| |reflexivity]; unfold handleCustomAsk;
    cbn [bind]; cbv zeta; apply G.
Qed.

(* ------------------------------------------------------------------ *)
(** *** evaluateAnswer *)

(** X17. [evaluateAnswer] always returns: the value that [JSON.parse]
    gives for the trimmed text of the reply, whatever that value is, and
    the error feedback in every other case (the call fails, the reply has
    no text, the text is not JSON). *)
Theorem evaluateAnswer_returns (r : reply) :
  exists f, evaluateAnswer r = Returned f
    /\ ((exists t, r = Replied (Some t) /\ JSON_parse (trim t) = Returned f)
        \/ (f = error_feedback
            /\ forall t v, r = Replied (Some t) -> JSON_parse (trim t) <> Returned v)).
Proof.
  destruct r as [e|[t|]].
  - exists error_feedback. split; [reflexivity|]. right. split; [reflexivity|].
    discriminate.
  - unfold evaluateAnswer. cbn [call_trim bind].
    destruct (JSON_parse_total (trim t)) as [[v H]|H]; rewrite H; cbn [try_catch].
    + exists v. split; [reflexivity|]. left. now exists t.
    + exists error_feedback. split; [reflexivity|]. right. split; [reflexivity|].
      intros t' v [= <-]. rewrite H. discriminate.
  - exists error_feedback. split; [reflexivity|]. right. split; [reflexivity|].
    discriminate.
Qed.

(* ------------------------------------------------------------------ *)
(** *** The image of the request *)

Lemma split_char_none (c : char) (s : jsstring) :
  includes c s = false -> split_char c s = [s].
Proof.
  unfold includes. induction s as [|x r IH]; [reflexivity|].
  cbn [existsb split_char]. intros H. apply orb_false_iff in H as [Hx Hr].
  rewrite N.eqb_sym in Hx. now rewrite Hx, (IH Hr).
Qed.

Lemma split_char_at (c : char) (p d : jsstring) :
  includes c p = false -> split_char c (p ++ c :: d) = p :: split_char c d.
Proof.
  unfold includes. induction p as [|x r IH]; cbn [app existsb split_char].
  - now rewrite N.eqb_refl.
  - intros H. apply orb_false_iff in H as [Hx Hr].
    rewrite N.eqb_sym in Hx. now rewrite Hx, (IH Hr).
Qed.

Lemma split_char_head (c : char) (d : jsstring) :
  hd_error (split_char c d) = Some (before_first (fun x => x =? c) d).
Proof.
  unfold before_first. induction d as [|x r IH]; [reflexivity|].
  cbn [split_char take_while]. destruct (x =? c); [reflexivity|]. cbn [negb].
  destruct (split_char c r) as [|q qs]; [discriminate|].
  cbn [hd_error] in *. now injection IH as ->.
Qed.

Lemma includes_split (c : char) (s : jsstring) :
  includes c s = true ->
  exists p d, s = p ++ c :: d /\ includes c p = false.
Proof.
  unfold includes. induction s as [|x r IH]; [discriminate|].
  cbn [existsb]. destruct (c =? x) eqn:E.
  - apply N.eqb_eq in E. subst x. intros _. now exists [], r.
  - cbn [orb]. intros H. destruct (IH H) as (p & d & -> & Hp).
    exists (x :: p), d. cbn [app existsb]. now rewrite E, Hp.
Qed.

(** X18. The request of [evaluateAnswer] carries image data exactly at
    the Advanced level and for an image text with a comma; the data is
    then the text between the first comma and the next one (or the end).
    A non-empty image text without a comma is sent, at that level, as an
    image with no data. *)
Theorem request_image_data (difficulty : Difficulty)
    (imageB64Data : option jsstring) (prompt : jsstring) :
  (forall payload,
     requestContents difficulty imageB64Data prompt
     = Parts prompt (js "image/jpeg") (Some payload)
     <-> difficulty = Advanced
         /\ exists p d, imageB64Data = Some (p ++ c_comma :: d)
                        /\ includes c_comma p = false
                        /\ payload = before_first (fun x => x =? c_comma) d)
  /\ (requestContents difficulty imageB64Data prompt
      = Parts prompt (js "image/jpeg") None
      <-> difficulty = Advanced
          /\ exists image, imageB64Data = Some image /\ image <> []
                           /\ includes c_comma image = false).
Proof.
  unfold requestContents, withVisualAnalysis.
  assert (N1 : forall p d, includes c_comma p = false ->
                 nth_error (split_char c_comma (p ++ c_comma :: d)) 1
                 = Some (before_first (fun x => x =? c_comma) d)).
  { intros p d Hp. rewrite (split_char_at _ p d Hp).
    cbn [nth_error]. pose proof (split_char_head c_comma d) as H.
    now destruct (split_char c_comma d). }
  assert (N0 : forall image, includes c_comma image = false ->
                 nth_error (split_char c_comma image) 1 = None).
  { intros image I. now rewrite (split_char_none _ _ I). }
  split; [intros payload|]; split.
  - destruct imageB64Data as [image|]; [|discriminate].
    destruct difficulty; try discriminate.
    cbn [truthy_opt]. destruct (truthy image) eqn:T; [|discriminate].
    cbn [andb]. intros H. split; [reflexivity|].
    destruct (includes c_comma image) eqn:I.
    + destruct (includes_split _ _ I) as (p & d & -> & Hp).
      exists p, d. rewrite (N1 p d Hp) in H. injection H as <-. auto.
    + rewrite (N0 _ I) in H. discriminate.
  - intros (-> & p & d & -> & Hp & ->). cbn [truthy_opt].
    assert (T : truthy (p ++ c_comma :: d) = true) by (now destruct p).
    rewrite T. cbn [andb]. now rewrite (N1 p d Hp).
  - destruct imageB64Data as [image|]; [|discriminate].
    destruct difficulty; try discriminate.
    cbn [truthy_opt]. destruct (truthy image) eqn:T; [|discriminate].
    cbn [andb]. intros H. split; [reflexivity|].
    exists image. split; [reflexivity|]. split; [now apply truthy_nonempty|].
    destruct (includes c_comma image) eqn:I; [|reflexivity].
    destruct (includes_split _ _ I) as (p & d & -> & Hp).
    rewrite (N1 p d Hp) in H. discriminate.
  - intros (-> & image & -> & Hne & I). cbn [truthy_opt].
    apply truthy_nonempty in Hne. rewrite Hne. cbn [andb]. now rewrite (N0 _ I).
Qed.

(* ------------------------------------------------------------------ *)
(** *** The test for an HR interview *)

Lemma chr_matches_cases (l u x : char) :
  97 <= l <= 122 -> u = l - 32 ->
  chr_matches true l x = true <-> x = u \/ x = l.
Proof.
  intros Hl ->. unfold chr_matches, canonicalize.
  assert (L : (97 <=? l) && (l <=? 122) = true).
  { apply andb_true_iff. split; apply N.leb_le; lia. }
  rewrite L. destruct ((97 <=? x) && (x <=? 122)) eqn:X.
  - apply andb_true_iff in X as [X1 X2]. apply N.leb_le in X1, X2.
    rewrite N.eqb_eq. lia.
  - rewrite N.eqb_eq. split.
    + intros H. now left.
    + intros [H|H]; [now subst|]. subst x. congruence.
Qed.

Lemma hr_match_at (b a : jsstring) :
  match_at re_hr b a <> None
  <-> exists x y v, a = x :: y :: v /\ (x = 72 \/ x = 104) /\ (y = 82 \/ y = 114).
Proof.
  rewrite match_at_unfold. cbn [ignoreCase source re_hr]. rewrite m_lit.
  change (js "hr") with [104; 114]. cbn [prefix_ci].
  destruct a as [|x [|y v]].
  - split; [congruence|]. intros (x & y & v & E & _). discriminate.
  - destruct (chr_matches true 104 x); (split; [congruence|]);
      intros (x' & y & v & E & _); discriminate.
  - pose proof (chr_matches_cases 104 72 x ltac:(lia) eq_refl) as Hx.
    pose proof (chr_matches_cases 114 82 y ltac:(lia) eq_refl) as Hy.
    destruct (chr_matches true 104 x).
    + destruct (chr_matches true 114 y).
      * split; [|discriminate]. intros _. exists x, y, v.
        split; [reflexivity|]. split; [now apply Hx | now apply Hy].
      * split; [congruence|]. intros (x' & y' & v' & [= <- <- <-] & _ & H).
        apply Hy in H. discriminate.
    + split; [congruence|]. intros (x' & y' & v' & [= <- <- <-] & H & _).
      apply Hx in H. discriminate.
Qed.

Lemma hr_exec_from (a : jsstring) :
  forall b, exec_from re_hr b a <> None
            <-> exists u x y v, a = u ++ x :: y :: v
                                /\ (x = 72 \/ x = 104) /\ (y = 82 \/ y = 114).
Proof.
  induction a as [|c a IH]; intros b.
  - cbn [exec_from]. destruct (match_at re_hr b []) eqn:E.
    + assert (H : match_at re_hr b [] <> None) by congruence.
      apply hr_match_at in H as (x & y & v & E' & _). discriminate.
    + split; [congruence|]. intros (u & x & y & v & E' & _).
      now destruct u.
  - cbn [exec_from]. destruct (match_at re_hr b (c :: a)) eqn:E.
    + split; [|discriminate]. intros _.
      assert (H : match_at re_hr b (c :: a) <> None) by congruence.
      apply hr_match_at in H as (x & y & v & E' & Hx & Hy).
      exists [], x, y, v. auto.
    + rewrite (IH (c :: b)). split.
      * intros (u & x & y & v & -> & H). exists (c :: u), x, y, v. auto.
      * intros (u & x & y & v & E' & Hx & Hy).
        destruct u as [|c' u]; cbn [app] in E'.
        -- assert (H : match_at re_hr b (c :: a) <> None).
           { apply hr_match_at. exists x, y, v. auto. }
           congruence.
        -- injection E' as -> ->. exists u, x, y, v. auto.
Qed.

(** X19. A subject counts as an HR interview exactly when the letter h
    or H is directly followed by r or R somewhere in it, inside a word
    or not. *)
Theorem isHrInterview_iff (subject : jsstring) :
  isHrInterview subject = true
  <-> exists u x y v, subject = u ++ x :: y :: v
                      /\ (x = 72 \/ x = 104) /\ (y = 82 \/ y = 114).
Proof.
  rewrite <- (hr_exec_from subject []).
  unfold isHrInterview, test, exec.
  destruct (exec_from re_hr [] subject); split; congruence.
Qed.
